(** * Image Classifier API: a shallow embedding of the TypeScript services

    The development follows the three source units of the repository:
    - [ImageProcessor]  (src/services/ImageProcessor.ts),
    - [ModelService]    (src/services/ModelService.ts),
    - [ClassificationController] (src/controllers/ClassificationController.ts).

    JavaScript numbers are modelled by their exact values (a rational, NaN or
    an infinity); the tfjs engine is a store of live tensors addressed by
    handles; arrays live in a heap of array objects, so that aliasing is
    visible; exceptions are an outcome of every effectful call.  What the
    services print to the console is left out, and so is the rounding of
    results to binary floating point. *)

From Stdlib Require Import ZArith QArith Qround Lqa Lia String Ascii List.
From Stdlib Require Import Permutation Sorted.
From Stdlib Require Import Strings.Byte.
From stdpp Require Import base option list gmap strings pretty.

Local Open Scope Z_scope.
Local Open Scope string_scope.
Local Open Scope list_scope.
Local Open Scope stdpp_scope.

(** ** JavaScript numbers *)

Module JS.

(** A JS number: NaN, -Infinity, a finite value (kept exact), +Infinity.
    The two zeros are not told apart. *)
Inductive num : Type :=
  | NaN
  | NegInf
  | Fin (q : Q)
  | PosInf.

Definition neg (a : num) : num :=
  match a with
  | NaN => NaN
  | NegInf => PosInf
  | Fin q => Fin (- q)
  | PosInf => NegInf
  end.

(** [a + b] *)
Definition add (a b : num) : num :=
  match a, b with
  | NaN, _ | _, NaN => NaN
  | PosInf, NegInf | NegInf, PosInf => NaN
  | PosInf, _ | _, PosInf => PosInf
  | NegInf, _ | _, NegInf => NegInf
  | Fin x, Fin y => Fin (x + y)
  end.

(** [a - b] *)
Definition sub (a b : num) : num := add a (neg b).

Definition sgn (q : Q) : comparison := (q ?= 0)%Q.

(** [a * b] *)
Definition mul (a b : num) : num :=
  let inf (positive : bool) := if positive then PosInf else NegInf in
  let by_inf (positive : bool) (q : Q) :=
    match sgn q with
    | Eq => NaN
    | Gt => inf positive
    | Lt => inf (negb positive)
    end in
  match a, b with
  | NaN, _ | _, NaN => NaN
  | PosInf, PosInf | NegInf, NegInf => PosInf
  | PosInf, NegInf | NegInf, PosInf => NegInf
  | PosInf, Fin q | Fin q, PosInf => by_inf true q
  | NegInf, Fin q | Fin q, NegInf => by_inf false q
  | Fin x, Fin y => Fin (x * y)
  end.

(** [a / b]; a finite value divided by zero is taken at +0. *)
Definition div (a b : num) : num :=
  match a, b with
  | NaN, _ | _, NaN => NaN
  | (PosInf | NegInf), (PosInf | NegInf) => NaN
  | Fin _, (PosInf | NegInf) => Fin 0
  | PosInf, Fin q => match sgn q with Lt => NegInf | _ => PosInf end
  | NegInf, Fin q => match sgn q with Lt => PosInf | _ => NegInf end
  | Fin x, Fin y =>
      match sgn y with
      | Eq => match sgn x with Eq => NaN | Gt => PosInf | Lt => NegInf end
      | _ => Fin (x / y)
      end
  end.

(** The relational comparison of two numbers; [None] when one is NaN. *)
Definition compare (a b : num) : option comparison :=
  match a, b with
  | NaN, _ | _, NaN => None
  | NegInf, NegInf | PosInf, PosInf => Some Eq
  | NegInf, _ | _, PosInf => Some Lt
  | _, NegInf | PosInf, _ => Some Gt
  | Fin x, Fin y => Some (x ?= y)%Q
  end.

(** [a === b] *)
Definition eqb (a b : num) : bool :=
  match compare a b with Some Eq => true | _ => false end.
(** [a < b] *)
Definition ltb (a b : num) : bool :=
  match compare a b with Some Lt => true | _ => false end.
(** [a > b] *)
Definition gtb (a b : num) : bool :=
  match compare a b with Some Gt => true | _ => false end.
(** [a >= b] *)
Definition geb (a b : num) : bool :=
  match compare a b with Some Gt | Some Eq => true | _ => false end.

(** A value that may be [undefined] (a read outside an array). *)
Definition ToNumber (v : option num) : num := default NaN v.

(** [Math.max(...xs)]: -Infinity on no argument, NaN as soon as one
    argument is NaN. *)
Definition max2 (a b : num) : num :=
  match compare a b with
  | None => NaN
  | Some Lt => b
  | Some _ => a
  end.

Definition Math_max (xs : list num) : num := foldl max2 NegInf xs.

(** [xs.indexOf(x)]: the first index whose element is strictly equal to
    [x], or -1. *)
Fixpoint indexOf_from (xs : list num) (x : num) (i : Z) : Z :=
  match xs with
  | [] => -1
  | y :: ys => if eqb y x then i else indexOf_from ys x (i + 1)
  end.

Definition indexOf (xs : list num) (x : num) : Z := indexOf_from xs x 0.

(** [xs[i]] for an index that may be negative. *)
Definition get {A} (xs : list A) (i : Z) : option A :=
  if (i <? 0)%Z then None else xs !! Z.to_nat i.

(** [s.includes(t)] *)
Fixpoint includes (s t : string) : bool :=
  String.prefix t s ||
  match s with
  | EmptyString => false
  | String _ s' => includes s' t
  end.

(** [xs.join(sep)] *)
Definition join (sep : string) (xs : list string) : string :=
  String.concat sep xs.

(** The integer [n] of [Number.prototype.toFixed]: [n / 10^digits] is as
    close to [x] as possible, the larger [n] on a tie ([x] is not
    negative). *)
Definition scaled (digits : nat) (x : Q) : Z :=
  Qfloor (x * inject_Z (10 ^ Z.of_nat digits) + (1 # 2))%Q.

Fixpoint zeros (k : nat) : string :=
  match k with O => "" | S k' => "0" +:+ zeros k' end.

(** The decimal digits of [n] with a point before the last [digits] ones,
    zero-padded on the left to [digits + 1] digits. *)
Definition positional (digits : nat) (n : Z) : string :=
  let m := pretty (Z.to_N n) in
  let m := zeros (S digits - String.length m) +:+ m in
  let k := String.length m in
  match digits with
  | O => m
  | _ => substring 0 (k - digits) m +:+ "." +:+ substring (k - digits) digits m
  end.

(** [x.toFixed(digits)].  From 10^21 on JavaScript prints the shortest
    binary64 digits with an exponent; that range is printed positionally
    here. *)
Definition toFixed (x : num) (digits : nat) : string :=
  match x with
  | NaN => "NaN"
  | PosInf => "Infinity"
  | NegInf => "-Infinity"
  | Fin q =>
      match sgn q with
      | Lt => "-" +:+ positional digits (scaled digits (- q))
      | _ => positional digits (scaled digits q)
      end
  end.

(** [Number(s)] on the strings [toFixed] prints: an optional sign, digits,
    an optional point and digits, or the name of a non-finite value; every
    other string reads as NaN.  The result is the decimal itself, its
    rounding to a binary64 is left out. *)
Definition digit_of (c : ascii) : option Z :=
  let n := Z.of_N (N_of_ascii c) in
  if Z.leb 48 n && Z.leb n 57 then Some (n - 48) else None.

Fixpoint read_digits (s : string) (acc : Z) (seen : nat) : Z * nat * string :=
  match s with
  | EmptyString => (acc, seen, s)
  | String c s' =>
      match digit_of c with
      | Some d => read_digits s' (acc * 10 + d) (S seen)
      | None => (acc, seen, s)
      end
  end.

Definition read_decimal (s : string) : option Q :=
  let '(int, k, rest) := read_digits s 0 O in
  match rest with
  | EmptyString => if Nat.eqb k 0 then None else Some (inject_Z int)
  | String "." frac =>
      let '(num, j, rest') := read_digits frac int O in
      match rest' with
      | EmptyString =>
          if Nat.eqb (k + j) 0 then None
          else Some (num # Z.to_pos (10 ^ Z.of_nat j))
      | _ => None
      end
  | _ => None
  end.

Definition Number (s : string) : num :=
  if String.eqb s "Infinity" then PosInf
  else if String.eqb s "-Infinity" then NegInf
  else match s with
       | String "-" s' => from_option (fun q => Fin (- q)) NaN (read_decimal s')
       | _ => from_option Fin NaN (read_decimal s)
       end.

End JS.

(** ** Thrown values *)

(** What a [throw] carries: an [Error] object (a [TypeError] is one too)
    or any other value, kept by its text. *)
Inductive Exn : Type :=
  | ErrorObj (name message : string)
  | Thrown (text : string).

Definition new_Error (message : string) : Exn := ErrorObj "Error" message.

(** [error instanceof Error] *)
Definition instanceofError (error : Exn) : bool :=
  match error with ErrorObj _ _ => true | Thrown _ => false end.

(** [error.message] of an [Error] object *)
Definition message (error : Exn) : string :=
  match error with ErrorObj _ m => m | Thrown _ => "" end.

(** The text of [error] inside a template literal. *)
Definition toString (error : Exn) : string :=
  match error with
  | ErrorObj n m => if String.eqb m "" then n else n +:+ ": " +:+ m
  | Thrown t => t
  end.

(** ** Tensors and the kernels of tfjs the services call *)

Definition Buffer : Type := list Byte.byte.

Module tf.

Record Tensor : Type := { shape : list nat; values : list JS.num }.

(** The engine: the next handle to give out and the tensors not yet
    disposed. *)
Record Engine : Type := { nextId : nat; live : gmap nat Tensor }.

Inductive Kernel : Type :=
  | DecodeImage | ResizeBilinear | Sub | Div | ExpandDims | Execute.

(** A decoded picture: [height * width * 3] channel bytes, row by row. *)
Record Image : Type := { height : nat; width : nat; pixels : list Byte.byte }.

Definition channel (b : Byte.byte) : JS.num :=
  JS.Fin (inject_Z (Z.of_N (Byte.to_N b))).

(** The tensor [tf.node.decodeImage(buffer, 3)] makes of a picture. *)
Definition of_image (img : Image) : Tensor :=
  {| shape := [height img; width img; 3%nat]; values := channel <$> pixels img |}.

(** Element [(y, x, ch)] of a rank-3 tensor with rows of [w] pixels of [c]
    channels. *)
Definition at3 (t : Tensor) (w c : nat) (y x ch : Z) : JS.num :=
  JS.ToNumber (JS.get (values t) ((y * Z.of_nat w + x) * Z.of_nat c + ch)).

(** One output element of the bilinear kernel (corners not aligned, pixel
    centres not shifted: the defaults of [tf.image.resizeBilinear]). *)
Definition bilinear (t : Tensor) (oldHeight oldWidth numChannels : nat)
    (rowRatio colRatio : Q) (r c d : nat) : JS.num :=
  let sourceFracRow := (rowRatio * inject_Z (Z.of_nat r))%Q in
  let sourceRowFloor := Z.max 0 (Qfloor sourceFracRow) in
  let rowFrac := (sourceFracRow - inject_Z sourceRowFloor)%Q in
  let sourceRowCeil := Z.min (Z.of_nat oldHeight - 1) (Qceiling sourceFracRow) in
  let sourceFracCol := (colRatio * inject_Z (Z.of_nat c))%Q in
  let sourceColFloor := Z.max 0 (Qfloor sourceFracCol) in
  let colFrac := (sourceFracCol - inject_Z sourceColFloor)%Q in
  let sourceColCeil := Z.min (Z.of_nat oldWidth - 1) (Qceiling sourceFracCol) in
  let px y x := at3 t oldWidth numChannels y x (Z.of_nat d) in
  let topLeft := px sourceRowFloor sourceColFloor in
  let bottomLeft := px sourceRowCeil sourceColFloor in
  let topRight := px sourceRowFloor sourceColCeil in
  let bottomRight := px sourceRowCeil sourceColCeil in
  let top := JS.add topLeft (JS.mul (JS.sub topRight topLeft) (JS.Fin colFrac)) in
  let bottom := JS.add bottomLeft (JS.mul (JS.sub bottomRight bottomLeft) (JS.Fin colFrac)) in
  JS.add top (JS.mul (JS.sub bottom top) (JS.Fin rowFrac)).

(** [tf.image.resizeBilinear(images, [newHeight, newWidth])] on a rank-3
    tensor (the rank-4 batch form is not used by the services). *)
Definition resizeBilinear (size : nat * nat) (images : Tensor) : Exn + Tensor :=
  let '(newHeight, newWidth) := size in
  match shape images with
  | [oldHeight; oldWidth; numChannels] =>
      let rowRatio := (inject_Z (Z.of_nat oldHeight) / inject_Z (Z.of_nat newHeight))%Q in
      let colRatio := (inject_Z (Z.of_nat oldWidth) / inject_Z (Z.of_nat newWidth))%Q in
      inr {| shape := [newHeight; newWidth; numChannels];
             values :=
               r ← seq 0 newHeight; c ← seq 0 newWidth; d ← seq 0 numChannels;
               [bilinear images oldHeight oldWidth numChannels rowRatio colRatio r c d] |}
  | _ => inl (new_Error "Error in resizeBilinear: new shape must 3D or 4D")
  end.

(** [tf.sub(a, b)] and [tf.div(a, b)] with a scalar [b] *)
Definition sub (b : JS.num) (a : Tensor) : Exn + Tensor :=
  inr {| shape := shape a; values := (fun x => JS.sub x b) <$> values a |}.

Definition div (b : JS.num) (a : Tensor) : Exn + Tensor :=
  inr {| shape := shape a; values := (fun x => JS.div x b) <$> values a |}.

(** [tf.expandDims(x, 0)] *)
Definition expandDims0 (x : Tensor) : Exn + Tensor :=
  inr {| shape := 1%nat :: shape x; values := values x |}.

End tf.

(** ** The records of the services *)

Module sharp.
(** What [sharp(buffer).metadata()] resolves to; every field may be
    missing. *)
Record Metadata : Type :=
  { width : option nat; height : option nat; format : option string;
    channels : option nat }.
End sharp.

Record ImageMetadata : Type :=
  { width : nat; height : nat; format : string; size : nat; channels : nat }.

(** [ClassProbability]; [probability] is read from the typed array and is
    [undefined] ([None]) when the array is too short. *)
Record ClassProbability : Type :=
  { class : string; probability : option JS.num; percentage : string }.

(** [PredictionResult]; [predictedClass] is read from the class list and
    is [undefined] when the index is outside of it. *)
Record PredictionResult : Type :=
  { predictedClass : option string;
    confidence : JS.num;
    confidencePercentage : string;
    allPredictions : list ClassProbability }.

(** The loaded graph model: running it yields the output tensor or
    throws. *)
Record GraphModel : Type := { execute : tf.Tensor -> Exn + tf.Tensor }.

(** The [ModelService] object: its fields.  [classes] holds a reference to
    an array object of the heap. *)
Record ModelService : Type :=
  { model : option GraphModel; modelPath : string; classes : nat }.

(** The multipart upload [req.file] *)
Record File : Type :=
  { buffer : Buffer; originalname : string; filesize : nat; mimetype : string }.

Record Request : Type := { file : option File }.

(** The JSON bodies the controller sends.  A timestamp is the clock
    reading it is printed from. *)
Record ResultPayload : Type :=
  { r_predictedClass : option string;
    r_confidence : JS.num;
    r_confidencePercentage : string;
    r_allPredictions : list ClassProbability }.

Record OriginalImage : Type :=
  { o_filename : string; o_size : nat; o_mimetype : string; o_dimensions : string }.

Record Processing : Type :=
  { timeMs : Z; modelInputSize : string; normalization : string }.

Inductive Body : Type :=
  | ErrorBody (error message : string) (timestamp : option Z)
  | ClassifyBody (success : bool) (result : ResultPayload)
      (originalImage : OriginalImage) (processing : Processing) (timestamp : Z).

Record Response : Type := { status : nat; body : Body }.

(** The libraries and files outside of the repository: what sharp reads
    from a buffer, the picture behind a PNG buffer, the kernels that fail
    in the backend, the model files on disk. *)
Record Externals : Type :=
  { sharp_metadata : Buffer -> Exn + sharp.Metadata;
    sharp_resize_png : nat -> nat -> Buffer -> Exn + Buffer;
    decodePng : Buffer -> Exn + tf.Image;
    kernel_fault : tf.Kernel -> option Exn;
    loadGraphModel : string -> Exn + GraphModel }.

(** Entries of the call log kept next to the state: which service method
    was entered, and each run of the model. *)
Inductive Call : Type :=
  | CallValidateImage | CallPreprocessImage | CallPredict | CallExecute.

(** ** The state of the process and the monad of the handlers *)

Record World : Type :=
  { engine : tf.Engine;
    heap : gmap nat (list string);
    modelService : ModelService;
    res : option Response;
    clock : list Z;
    calls : list Call }.

Definition with_engine (e : tf.Engine) (w : World) : World :=
  {| engine := e; heap := heap w; modelService := modelService w;
     res := res w; clock := clock w; calls := calls w |}.
Definition with_heap (h : gmap nat (list string)) (w : World) : World :=
  {| engine := engine w; heap := h; modelService := modelService w;
     res := res w; clock := clock w; calls := calls w |}.
Definition with_modelService (s : ModelService) (w : World) : World :=
  {| engine := engine w; heap := heap w; modelService := s;
     res := res w; clock := clock w; calls := calls w |}.
Definition with_res (r : option Response) (w : World) : World :=
  {| engine := engine w; heap := heap w; modelService := modelService w;
     res := r; clock := clock w; calls := calls w |}.
Definition with_clock (c : list Z) (w : World) : World :=
  {| engine := engine w; heap := heap w; modelService := modelService w;
     res := res w; clock := c; calls := calls w |}.
Definition with_calls (c : list Call) (w : World) : World :=
  {| engine := engine w; heap := heap w; modelService := modelService w;
     res := res w; clock := clock w; calls := c |}.

Inductive Outcome (A : Type) : Type :=
  | Return (a : A)
  | Throw (error : Exn).
Arguments Return {A} a.
Arguments Throw {A} error.

(** An (awaited) computation: from a state to its outcome and the state it
    leaves. *)
Definition M (A : Type) : Type := World -> Outcome A * World.

#[global] Instance M_ret : MRet M := fun A a w => (Return a, w).
#[global] Instance M_bind : MBind M := fun A B f m w =>
  match m w with
  | (Return a, w') => f a w'
  | (Throw error, w') => (Throw error, w')
  end.

Definition throw {A} (error : Exn) : M A := fun w => (Throw error, w).

Definition modify (f : World -> World) : M unit := fun w => (Return tt, f w).

(** [try { body } catch (error) { handler }] *)
Definition try_catch {A} (body : M A) (handler : Exn -> M A) : M A := fun w =>
  match body w with
  | (Return a, w') => (Return a, w')
  | (Throw error, w') => handler error w'
  end.

(** The result of a call into a library. *)
Definition lift {A} (r : Exn + A) : M A :=
  match r with inl error => throw error | inr a => mret a end.

Definition log (c : Call) : M unit :=
  modify (fun w => with_calls (calls w ++ [c]) w).

(** [Date.now()]: the next reading of the clock. *)
Definition Date_now : M Z := fun w =>
  match clock w with
  | [] => (Return 0, w)
  | t :: ts => (Return t, with_clock ts w)
  end.

(** *** Tensors in the engine *)

Definition alloc (t : tf.Tensor) : M nat := fun w =>
  let e := engine w in
  let id := tf.nextId e in
  (Return id, with_engine {| tf.nextId := S id; tf.live := <[id := t]> (tf.live e) |} w).

Definition read (h : nat) : M tf.Tensor := fun w =>
  match tf.live (engine w) !! h with
  | Some t => (Return t, w)
  | None => (Throw (new_Error "Tensor is disposed."), w)
  end.

(** [await t.data()] *)
Definition data (h : nat) : M (list JS.num) :=
  t ← read h; mret (tf.values t).

(** [t.dispose()]; disposing twice is harmless. *)
Definition dispose (h : nat) : M unit :=
  modify (fun w =>
    let e := engine w in
    with_engine {| tf.nextId := tf.nextId e; tf.live := delete h (tf.live e) |} w).

(** A kernel run on a live tensor: it may fail in the backend, throws on
    a disposed input, and leaves its result as a new live tensor. *)
Definition run_kernel (ext : Externals) (k : tf.Kernel)
    (f : tf.Tensor -> Exn + tf.Tensor) (h : nat) : M nat :=
  match kernel_fault ext k with
  | Some error => throw error
  | None => t ← read h; t' ← lift (f t); alloc t'
  end.

(** *** The response object *)

(** [res.status(code).json(body)]; Express throws when a response went
    out already. *)
Definition res_status_json (code : nat) (b : Body) : M unit := fun w =>
  match res w with
  | Some _ => (Throw (new_Error "Cannot set headers after they are sent to the client"), w)
  | None => (Return tt, with_res (Some {| status := code; body := b |}) w)
  end.

(** [res.json(body)] *)
Definition res_json (b : Body) : M unit := res_status_json 200 b.

(** ** ImageProcessor (src/services/ImageProcessor.ts) *)

Definition TARGET_WIDTH : nat := 32.
Definition TARGET_HEIGHT : nat := 32.

(** [tf.node.decodeImage(buffer, 3)] *)
Definition decodeImage (ext : Externals) (contents : Buffer) : M nat :=
  match kernel_fault ext tf.DecodeImage with
  | Some error => throw error
  | None => img ← lift (decodePng ext contents); alloc (tf.of_image img)
  end.

Definition preprocessImage (ext : Externals) (imageBuffer : Buffer) : M nat :=
  log CallPreprocessImage;;
  try_catch
    (processedBuffer ← lift (sharp_resize_png ext TARGET_WIDTH TARGET_HEIGHT imageBuffer);
     imageTensor ← decodeImage ext processedBuffer;
     resizedTensor ← run_kernel ext tf.ResizeBilinear
                       (tf.resizeBilinear (TARGET_WIDTH, TARGET_HEIGHT)) imageTensor;
     difference ← run_kernel ext tf.Sub (tf.sub (JS.Fin (255 # 2))) resizedTensor;
     normalizedTensor ← run_kernel ext tf.Div (tf.div (JS.Fin (255 # 2))) difference;
     batchedTensor ← run_kernel ext tf.ExpandDims tf.expandDims0 normalizedTensor;
     dispose imageTensor;;
     dispose resizedTensor;;
     dispose normalizedTensor;;
     mret batchedTensor)
    (fun error => throw (new_Error ("Image preprocessing failed: " +:+ toString error))).

(** [!n] for a number that may be missing *)
Definition falsy (n : option nat) : bool :=
  match n with Some (S _) => false | _ => true end.

(** [!s] for a string that may be missing *)
Definition falsy_string (s : option string) : bool :=
  match s with Some (String _ _) => false | _ => true end.

Definition supportedFormats : list string :=
  ["jpeg"; "jpg"; "png"; "webp"; "gif"; "bmp"].

Definition validateImage (ext : Externals) (imageBuffer : Buffer) : M ImageMetadata :=
  log CallValidateImage;;
  try_catch
    (metadata ← lift (sharp_metadata ext imageBuffer);
     if falsy (sharp.width metadata) || falsy (sharp.height metadata) then
       throw (new_Error "Unable to determine image dimensions")
     else if falsy_string (sharp.format metadata)
             || negb (bool_decide (default "" (sharp.format metadata) ∈ supportedFormats)) then
       throw (new_Error ("Unsupported image format: "
                         +:+ default "undefined" (sharp.format metadata)
                         +:+ ". Supported: " +:+ JS.join ", " supportedFormats))
     else
       mret {| width := default O (sharp.width metadata);
               height := default O (sharp.height metadata);
               format := default "" (sharp.format metadata);
               size := length imageBuffer;
               channels := if falsy (sharp.channels metadata) then 3%nat
                           else default O (sharp.channels metadata) |})
    (fun error => throw (new_Error ("Image validation failed: " +:+ toString error))).

(** ** ModelService (src/services/ModelService.ts) *)

(** The array literal of the [classes] field. *)
Definition CLASSES : list string :=
  ["plane"; "car"; "bird"; "cat"; "deer"; "dog"; "frog"; "horse"; "ship"; "truck"].

(** A new array object holding [xs]; the reference to it. *)
Definition new_array (xs : list string) : M nat := fun w =>
  let a := fresh (dom (heap w)) in
  (Return a, with_heap (<[a := xs]> (heap w)) w).

(** The elements of the array object at [a]. *)
Definition array_elements (a : nat) : M (list string) := fun w =>
  (Return (default [] (heap w !! a)), w).

(** [new ModelService(modelPath)] *)
Definition new_ModelService (path : string) : M unit :=
  a ← new_array CLASSES;
  modify (with_modelService {| model := None; modelPath := path; classes := a |}).

Definition this : M ModelService := fun w => (Return (modelService w), w).

Definition loadModel (ext : Externals) : M unit :=
  try_catch
    (self ← this;
     m ← lift (loadGraphModel ext ("file://" +:+ modelPath self +:+ "/model.json"));
     modify (with_modelService {| model := Some m; modelPath := modelPath self;
                                  classes := classes self |}))
    (fun error => throw (new_Error ("Failed to load model: " +:+ toString error))).

(** [xs.sort(compareFn)]: [x] moves behind [y] only when
    [compareFn(x, y) > 0], so the sort is stable, as the language requires.
    (For a comparator that is no ordering the language leaves the order
    open; this is one of the orders allowed.) *)
Fixpoint sort_insert {A} (compareFn : A -> A -> JS.num) (x : A) (xs : list A) : list A :=
  match xs with
  | [] => [x]
  | y :: ys =>
      if JS.gtb (compareFn x y) (JS.Fin 0) then y :: sort_insert compareFn x ys
      else x :: xs
  end.

Definition Array_sort {A} (compareFn : A -> A -> JS.num) (xs : list A) : list A :=
  foldr (sort_insert compareFn) [] xs.

(** [(a, b) => b.probability - a.probability] *)
Definition byProbability (a b : ClassProbability) : JS.num :=
  JS.sub (JS.ToNumber (probability b)) (JS.ToNumber (probability a)).

(** [this.classes.map((className, index) => ({ ... }))] *)
Definition classResults_of (classNames : list string) (probabilities : list JS.num)
    : list ClassProbability :=
  imap (fun index className =>
          {| class := className;
             probability := probabilities !! index;
             percentage :=
               JS.toFixed (JS.mul (JS.ToNumber (probabilities !! index)) (JS.Fin 100)) 2 |})
       classNames.

Definition predict (ext : Externals) (preprocessedImage : nat) : M PredictionResult :=
  log CallPredict;;
  self ← this;
  match model self with
  | None => throw (new_Error "Model not loaded. Call loadModel() first.")
  | Some m =>
      try_catch
        (log CallExecute;;
         prediction ← run_kernel ext tf.Execute (execute m) preprocessedImage;
         probabilities ← data prediction;
         classNames ← array_elements (classes self);
         let maxProbabilityIndex := JS.indexOf probabilities (JS.Math_max probabilities) in
         let predictedClass := JS.get classNames maxProbabilityIndex in
         let confidence := JS.get probabilities maxProbabilityIndex in
         let classResults := classResults_of classNames probabilities in
         let classResults := Array_sort byProbability classResults in
         dispose prediction;;
         match confidence with
         | None =>
             throw (ErrorObj "TypeError"
                      "Cannot read properties of undefined (reading 'toFixed')")
         | Some confidence =>
             mret {| predictedClass := predictedClass;
                     confidence := JS.Number (JS.toFixed confidence 4);
                     confidencePercentage := JS.toFixed (JS.mul confidence (JS.Fin 100)) 2;
                     allPredictions := classResults |}
         end)
        (fun error => throw (new_Error ("Prediction failed: " +:+ toString error)))
  end.

Definition isModelLoaded : M bool :=
  self ← this; mret (bool_decide (is_Some (model self))).

(** [[...this.classes]] *)
Definition getClasses : M nat :=
  self ← this; xs ← array_elements (classes self); new_array xs.

(** ** ClassificationController (src/controllers/ClassificationController.ts) *)

Definition dquote : string := String (ascii_of_nat 34) EmptyString.

(** [`${imageMetadata.width}x${imageMetadata.height}`] *)
Definition dimensions (m : ImageMetadata) : string :=
  pretty (width m) +:+ "x" +:+ pretty (height m).

Definition classifyImage (ext : Externals) (req : Request) : M unit :=
  try_catch
    (match file req with
     | None =>
         res_status_json 400
           (ErrorBody "No image file provided"
              ("Please upload an image file using the " +:+ dquote +:+ "image"
               +:+ dquote +:+ " field")
              None)
     | Some upload =>
         loaded ← isModelLoaded;
         if negb loaded then
           res_status_json 503
             (ErrorBody "Model not available"
                "The classification model is not loaded yet. Please try again later."
                None)
         else
           startTime ← Date_now;
           imageMetadata ← validateImage ext (buffer upload);
           preprocessedImage ← preprocessImage ext (buffer upload);
           prediction ← predict ext preprocessedImage;
           dispose preprocessedImage;;
           endTime ← Date_now;
           let processingTime := endTime - startTime in
           timestamp ← Date_now;
           res_json
             (ClassifyBody true
                {| r_predictedClass := predictedClass prediction;
                   r_confidence := confidence prediction;
                   r_confidencePercentage := confidencePercentage prediction;
                   r_allPredictions := take 5 (allPredictions prediction) |}
                {| o_filename := originalname upload;
                   o_size := filesize upload;
                   o_mimetype := mimetype upload;
                   o_dimensions := dimensions imageMetadata |}
                {| timeMs := processingTime;
                   modelInputSize := "32x32x3";
                   normalization := "Range [-1, 1]" |}
                timestamp)
     end)
    (fun error =>
       let generic :=
         timestamp ← Date_now;
         res_status_json 500
           (ErrorBody "Classification failed"
              "An error occurred during image classification" (Some timestamp)) in
       if instanceofError error then
         if JS.includes (message error) "Image validation failed"
            || JS.includes (message error) "Image preprocessing failed" then
           timestamp ← Date_now;
           res_status_json 400 (ErrorBody "Invalid image" (message error) (Some timestamp))
         else if JS.includes (message error) "Model not loaded" then
           timestamp ← Date_now;
           res_status_json 503
             (ErrorBody "Service unavailable" "Classification model is not ready"
                (Some timestamp))
         else generic
       else generic).

(** ** The process (src/server.ts) *)

(** Nothing allocated, nothing sent; [ticks] are the clock readings to
    come. *)
Definition empty_world (ticks : list Z) : World :=
  {| engine := {| tf.nextId := 0; tf.live := ∅ |};
     heap := ∅;
     modelService := {| model := None; modelPath := ""; classes := 0%nat |};
     res := None;
     clock := ticks;
     calls := [] |}.

(** The services as the module creates them, before [startServer]. *)
Definition boot (ticks : list Z) : World :=
  snd (new_ModelService "./model_js" (empty_world ticks)).

(** [startServer]: the model is loaded before the server listens. *)
Definition startServer (ext : Externals) : M unit := loadModel ext.

(** The [classes] field refers to an array holding the ten names. *)
Definition classes_intact (w : World) : Prop :=
  heap w !! classes (modelService w) = Some CLASSES.

(** Handles are given out in increasing order: no live tensor has a handle
    the engine has yet to give out. *)
Definition engine_ok (w : World) : Prop :=
  forall h, is_Some (tf.live (engine w) !! h) -> (h < tf.nextId (engine w))%nat.

(** ** Notions the properties are stated with *)

(** A computation that maintains the property [P] of the state, whatever
    its outcome. *)
Definition maintains {A} (P : World -> Prop) (m : M A) : Prop :=
  forall w, P w -> P (snd (m w)).

(** A property of the state that what is sent, the clock and the call log
    have no part in. *)
Definition service_state (P : World -> Prop) : Prop :=
  forall w r c l, P w -> P (with_res r (with_clock c (with_calls l w))).

(** Both dimensions of the picture were read, and are not zero. *)
Definition dimensions_known (r : Exn + sharp.Metadata) : bool :=
  match r with
  | inr md =>
      match sharp.width md, sharp.height md with
      | Some (S _), Some (S _) => true
      | _, _ => false
      end
  | inl _ => false
  end.

(** A format was detected and it is one of the six supported ones. *)
Definition format_supported (r : Exn + sharp.Metadata) : bool :=
  match r with
  | inr md =>
      match sharp.format md with
      | Some f => bool_decide (f ∈ ["jpeg"; "jpg"; "png"; "webp"; "gif"; "bmp"])
      | None => false
      end
  | inl _ => false
  end.

(** A decoded picture has a row count, a row length, and three bytes per
    pixel. *)
Definition well_formed (img : tf.Image) : Prop :=
  (0 < tf.height img)%nat /\ (0 < tf.width img)%nat
  /\ length (tf.pixels img) = (tf.height img * tf.width img * 3)%nat.

(** The decoder only returns such pictures. *)
Definition decoder_ok (ext : Externals) : Prop :=
  forall contents img, decodePng ext contents = inr img -> well_formed img.

(** A finite number between [lo] and [hi]. *)
Definition in_range (lo hi : Q) (x : JS.num) : Prop :=
  exists q, x = JS.Fin q /\ (lo <= q <= hi)%Q.

(** The tensors [preprocessImage] makes on its way, from the resized one
    on. *)
Definition difference_of (resized : tf.Tensor) : tf.Tensor :=
  {| tf.shape := tf.shape resized;
     tf.values := (fun x => JS.sub x (JS.Fin (255 # 2))) <$> tf.values resized |}.

Definition normalized_of (resized : tf.Tensor) : tf.Tensor :=
  {| tf.shape := tf.shape resized;
     tf.values :=
       (fun x => JS.div x (JS.Fin (255 # 2))) <$> tf.values (difference_of resized) |}.

Definition batched_of (resized : tf.Tensor) : tf.Tensor :=
  {| tf.shape := 1%nat :: tf.shape resized;
     tf.values := tf.values (normalized_of resized) |}.

(** The errors the controller answers with 400 "Invalid image". *)
Definition InvalidImage (error : Exn) : Prop :=
  instanceofError error = true
  /\ JS.includes (message error) "Image validation failed" = true.

(** A caller mutating the array object it holds a reference to (an
    assignment to an element, [push], [splice], ...). *)
Definition mutate_array (a : nat) (f : list string -> list string) : M unit :=
  modify (fun w => with_heap (alter f a (heap w)) w).

(** The loaded model answers with the scores [v] on the tensor behind the
    handle [h]. *)
Definition answers (ext : Externals) (w : World) (h : nat) (v : list JS.num) : Prop :=
  exists m t out,
    model (modelService w) = Some m
    /\ kernel_fault ext tf.Execute = None
    /\ tf.live (engine w) !! h = Some t
    /\ execute m t = inr out
    /\ tf.values out = v.

(** [v[i]] is the maximum of [v], and no earlier element reaches it. *)
Definition first_max (v : list JS.num) (i : nat) : Prop :=
  exists x, v !! i = Some x
    /\ (forall j y, v !! j = Some y -> JS.geb x y = true)
    /\ (forall j y, (j < i)%nat -> v !! j = Some y -> JS.gtb x y = true).

(** [v[i]] is greater than every other element. *)
Definition unique_max (v : list JS.num) (i : nat) : Prop :=
  exists x, v !! i = Some x
    /\ (forall j y, j <> i -> v !! j = Some y -> JS.gtb x y = true).

(** The maximum of [v] is reached at [i] and again at [j], and not before
    [i]. *)
Definition tied_max (v : list JS.num) (i j : nat) : Prop :=
  (i < j)%nat
  /\ exists x y, v !! i = Some x /\ v !! j = Some y /\ JS.eqb x y = true
    /\ (forall k z, v !! k = Some z -> JS.geb x z = true)
    /\ (forall k z, (k < i)%nat -> v !! k = Some z -> JS.gtb x z = true).

(** [a] is listed before [b] in a descending list: [a.probability >=
    b.probability]. *)
Definition descending (a b : ClassProbability) : Prop :=
  JS.geb (JS.ToNumber (probability a)) (JS.ToNumber (probability b)) = true.

(** The entries whose probability is (strictly equal to) [p]. *)
Definition with_probability (p : JS.num) (c : ClassProbability) : bool :=
  JS.eqb (JS.ToNumber (probability c)) p.

(** ** Sample inputs *)

Module Sample.

(** A 32x32 picture cycling through three channel values. *)
Definition picture : tf.Image :=
  {| tf.height := 32; tf.width := 32;
     tf.pixels := mjoin (replicate 1024 ["000"%byte; "255"%byte; "128"%byte]) |}.

(** A 2x3 picture, to watch the interpolation. *)
Definition small : tf.Image :=
  {| tf.height := 2; tf.width := 3;
     tf.pixels :=
       ["000"; "010"; "020"; "100"; "110"; "120"; "200"; "210"; "220";
        "255"; "000"; "128"; "064"; "032"; "016"; "008"; "004"; "002"]%byte |}.

Definition jpeg500x400 : sharp.Metadata :=
  {| sharp.width := Some 500%nat; sharp.height := Some 400%nat;
     sharp.format := Some "jpeg"; sharp.channels := Some 3%nat |}.

Definition tiff : sharp.Metadata :=
  {| sharp.width := Some 10%nat; sharp.height := Some 10%nat;
     sharp.format := Some "tiff"; sharp.channels := Some 3%nat |}.

(** A model answering with the scores [v] whatever the input. *)
Definition constant_model (v : list JS.num) : GraphModel :=
  {| execute := fun _ => inr {| tf.shape := [1%nat; length v]; tf.values := v |} |}.

(** A model whose run throws. *)
Definition broken_model : GraphModel :=
  {| execute := fun _ => inl (new_Error "Error in matMul: inner shapes must match") |}.

(** Libraries that read every buffer as the picture [img] described by
    [md], and find the model [m] on disk. *)
Definition libraries (md : sharp.Metadata) (img : tf.Image) (m : GraphModel) : Externals :=
  {| sharp_metadata := fun _ => inr md;
     sharp_resize_png := fun _ _ b => inr b;
     decodePng := fun _ => inr img;
     kernel_fault := fun _ => None;
     loadGraphModel := fun _ => inr m |}.

(** The same, with a backend that fails in the kernel [k]. *)
Definition failing_in (k : tf.Kernel) (ext : Externals) : Externals :=
  {| sharp_metadata := sharp_metadata ext;
     sharp_resize_png := sharp_resize_png ext;
     decodePng := decodePng ext;
     kernel_fault := fun k' =>
       match k, k' with
       | tf.DecodeImage, tf.DecodeImage | tf.ResizeBilinear, tf.ResizeBilinear
       | tf.Sub, tf.Sub | tf.Div, tf.Div | tf.ExpandDims, tf.ExpandDims
       | tf.Execute, tf.Execute => Some (new_Error "Failed to allocate memory")
       | _, _ => kernel_fault ext k'
       end;
     loadGraphModel := loadGraphModel ext |}.

Definition upload : File :=
  {| buffer := ["137"%byte; "080"%byte; "078"%byte; "071"%byte];
     originalname := "cat.jpg"; filesize := 4; mimetype := "image/jpeg" |}.

Definition scores : list JS.num :=
  JS.Fin <$> [1 # 100; 2 # 100; 3 # 100; 70 # 100; 4 # 100; 10 # 100; 5 # 100;
              2 # 100; 2 # 100; 1 # 100]%Q.

(** Scores with the maximum at [car] and at [dog]. *)
Definition tied : list JS.num :=
  JS.Fin <$> [1 # 10; 3 # 10; 0; 0; 0; 3 # 10; 1 # 10; 1 # 10; 1 # 10; 0]%Q.

(** The state once the server listens, with the model [m] loaded. *)
Definition serving (m : GraphModel) (ticks : list Z) : World :=
  snd (startServer (libraries jpeg500x400 picture m) (boot ticks)).

(** The state after the upload was preprocessed; the tensor made has the
    handle 4. *)
Definition preprocessed (m : GraphModel) (ticks : list Z) : World :=
  snd (preprocessImage (libraries jpeg500x400 picture m) (buffer upload) (serving m ticks)).

(** The clock readings of one request. *)
Definition ticks : list Z := [100; 105; 130; 131].

Definition entry (name : string) (p : Q) (pct : string) : ClassProbability :=
  {| class := name; probability := Some (JS.Fin p); percentage := pct |}.

(** The answer expected for the upload when the model gives [scores]. *)
Definition expected_result : ResultPayload :=
  {| r_predictedClass := Some "cat";
     r_confidence := JS.Fin (7000 # 10000);
     r_confidencePercentage := "70.00";
     r_allPredictions :=
       [entry "cat" (70 # 100) "70.00"; entry "dog" (10 # 100) "10.00";
        entry "frog" (5 # 100) "5.00"; entry "deer" (4 # 100) "4.00";
        entry "bird" (3 # 100) "3.00"] |}.

Definition expected_response : Response :=
  {| status := 200;
     body :=
       ClassifyBody true expected_result
         {| o_filename := "cat.jpg"; o_size := 4; o_mimetype := "image/jpeg";
            o_dimensions := "500x400" |}
         {| timeMs := 5; modelInputSize := "32x32x3";
            normalization := "Range [-1, 1]" |}
         130 |}.

End Sample.

(** ** ImageProcessor.createDebugImage (src/services/ImageProcessor.ts) *)

Module tfx.

(** [tf.squeeze(x)]: the dimensions of size 1 are dropped. *)
Definition squeeze (x : tf.Tensor) : Exn + tf.Tensor :=
  inr {| tf.shape := List.filter (fun d => negb (Nat.eqb d 1)) (tf.shape x);
         tf.values := tf.values x |}.

(** [tf.mul(a, b)] and [tf.add(a, b)] with a scalar [b] *)
Definition mul (b : JS.num) (a : tf.Tensor) : Exn + tf.Tensor :=
  inr {| tf.shape := tf.shape a; tf.values := (fun x => JS.mul x b) <$> tf.values a |}.

Definition add (b : JS.num) (a : tf.Tensor) : Exn + tf.Tensor :=
  inr {| tf.shape := tf.shape a; tf.values := (fun x => JS.add x b) <$> tf.values a |}.

(** One value of [tf.clipByValue]: [v > max ? max : (v < min ? min : v)];
    NaN passes. *)
Definition clip (lo hi v : JS.num) : JS.num :=
  if JS.gtb v hi then hi else if JS.ltb v lo then lo else v.

(** [tf.clipByValue(x, min, max)]; tfjs asserts [min <= max] first (the
    text of the failed assertion also shows the two bounds). *)
Definition clipByValue (lo hi : JS.num) (x : tf.Tensor) : Exn + tf.Tensor :=
  if JS.gtb lo hi then
    inl (new_Error "Error in clip: min must be less than or equal to max.")
  else inr {| tf.shape := tf.shape x; tf.values := clip lo hi <$> tf.values x |}.

(** The integer part of [q], towards zero. *)
Definition truncate (q : Q) : Z :=
  match JS.sgn q with Lt => Qceiling q | _ => Qfloor q end.

Inductive Kernel : Type := Squeeze | Mul | Add | ClipByValue | Cast | EncodeJpeg.

(** What createDebugImage needs beyond the services' libraries: the JPEG
    encoder, what the backend's cast makes of a value that is no number of
    the int32 range, and the kernels that fail in the backend. *)
Record Backend : Type :=
  { encodeJpeg : tf.Tensor -> Exn + Buffer;
    cast_other : JS.num -> JS.num;
    fault : Kernel -> option Exn }.

(** One value of a cast to int32: the fraction of a number of the int32
    range is dropped; what the cast makes of the other values is the
    backend's affair. *)
Definition toInt32 (backend : Backend) (v : JS.num) : JS.num :=
  match v with
  | JS.Fin q =>
      if (- 2 ^ 31 <=? truncate q)%Z && (truncate q <? 2 ^ 31)%Z then
        JS.Fin (inject_Z (truncate q))
      else cast_other backend v
  | _ => cast_other backend v
  end.

(** [tf.cast(x, 'int32')] *)
Definition cast_int32 (backend : Backend) (x : tf.Tensor) : Exn + tf.Tensor :=
  inr {| tf.shape := tf.shape x; tf.values := toInt32 backend <$> tf.values x |}.

End tfx.

(** A kernel of createDebugImage run on a live tensor. *)
Definition run_debug_kernel (backend : tfx.Backend) (k : tfx.Kernel)
    (f : tf.Tensor -> Exn + tf.Tensor) (h : nat) : M nat :=
  match tfx.fault backend k with
  | Some error => throw error
  | None => t ← read h; t' ← lift (f t); alloc t'
  end.

(** [await tf.node.encodeJpeg(t, 'rgb', 90)] and [Buffer.from] of it *)
Definition encodeJpeg (backend : tfx.Backend) (h : nat) : M Buffer :=
  match tfx.fault backend tfx.EncodeJpeg with
  | Some error => throw error
  | None => t ← read h; lift (tfx.encodeJpeg backend t)
  end.

Definition createDebugImage (backend : tfx.Backend) (preprocessedTensor : nat) : M Buffer :=
  try_catch
    (squeezed ← run_debug_kernel backend tfx.Squeeze tfx.squeeze preprocessedTensor;
     product ← run_debug_kernel backend tfx.Mul (tfx.mul (JS.Fin (255 # 2))) squeezed;
     denormalized ← run_debug_kernel backend tfx.Add (tfx.add (JS.Fin (255 # 2))) product;
     clamped ← run_debug_kernel backend tfx.ClipByValue
                 (tfx.clipByValue (JS.Fin 0) (JS.Fin 255)) denormalized;
     uint8Tensor ← run_debug_kernel backend tfx.Cast (tfx.cast_int32 backend) clamped;
     debugBuffer ← encodeJpeg backend uint8Tensor;
     dispose squeezed;;
     dispose denormalized;;
     dispose clamped;;
     dispose uint8Tensor;;
     mret debugBuffer)
    (fun error => throw (new_Error ("Debug image creation failed: " +:+ toString error))).

(** ** The upload middleware and the error middleware (src/server.ts) *)

(** [limits.fileSize] *)
Definition fileSize_limit : nat := 5 * 1024 * 1024.

(** [fileFilter]: what it hands to its callback, an error or whether to
    keep the file. *)
Definition fileFilter (upload : File) : Exn + bool :=
  if String.prefix "image/" (mimetype upload) then inr true
  else inl (new_Error "Only image files are allowed!").

(** [upload.single('image')] on the part of the form named [image], if
    there is one: the filter is asked first, a file it does not keep is
    left out, and a file the parser finds over the limit ends the upload
    with a [MulterError].  [over_limit size limit] is the parser's test;
    where exactly it draws the line differs between its versions. *)
Definition upload_single (over_limit : nat -> nat -> bool) (part : option File)
    : Exn + Request :=
  match part with
  | None => inr {| file := None |}
  | Some upload =>
      match fileFilter upload with
      | inl error => inl error
      | inr false => inr {| file := None |}
      | inr true =>
          if over_limit (filesize upload) fileSize_limit then
            inl (ErrorObj "MulterError" "File too large")
          else inr {| file := Some upload |}
      end
  end.

(** [error instanceof multer.MulterError] *)
Definition instanceofMulterError (error : Exn) : bool :=
  match error with
  | ErrorObj name _ => String.eqb name "MulterError"
  | Thrown _ => false
  end.

(** The error handling middleware *)
Definition errorMiddleware (error : Exn) : M unit :=
  if instanceofMulterError error then
    res_status_json 400 (ErrorBody "File upload error" (message error) None)
  else
    res_status_json 500
      (ErrorBody "Internal server error"
         (if String.eqb (message error) "" then "Something went wrong" else message error)
         None).

(** [POST /classify]: the upload middleware, then the controller; what the
    upload middleware passes on as an error goes to the error middleware. *)
Definition post_classify (ext : Externals) (over_limit : nat -> nat -> bool)
    (part : option File) : M unit :=
  match upload_single over_limit part with
  | inl error => errorMiddleware error
  | inr req => classifyImage ext req
  end.

(** How [startServer] ends: the server listens, or the process exits. *)
Inductive Started : Type :=
  | Listening
  | Exited (code : Z).

(** [startServer] with its [catch]: [app.listen] after the model is
    loaded, [process.exit(1)] when loading throws. *)
Definition startServer_outcome (ext : Externals) (w : World) : Started * World :=
  match startServer ext w with
  | (Return _, w') => (Listening, w')
  | (Throw _, w') => (Exited 1, w')
  end.

(** ** ClassificationController.getModelInfo *)

(** The objects the other routes answer with. *)
#[local] Unset Elimination Schemes.
Inductive Json : Type :=
  | JBool (b : bool)
  | JNumber (n : JS.num)
  | JString (s : string)
  | JArray (xs : list Json)
  | JObject (fields : list (string * Json)).
#[local] Set Elimination Schemes.

Record Reply : Type := { code : nat; json : Json }.

(** [obj[name]] *)
Definition field (name : string) (obj : Json) : option Json :=
  match obj with
  | JObject fields => snd <$> List.find (fun kv => String.eqb (fst kv) name) fields
  | _ => None
  end.

(** A handler that answers with such an object: the state of the process
    and the response object of its request. *)
Definition Route (A : Type) : Type :=
  World * option Reply -> Outcome A * (World * option Reply).

#[global] Instance Route_ret : MRet Route := fun A a s => (Return a, s).
#[global] Instance Route_bind : MBind Route := fun A B f m s =>
  match m s with
  | (Return a, s') => f a s'
  | (Throw error, s') => (Throw error, s')
  end.

(** A call into the services. *)
Definition call {A} (m : M A) : Route A := fun s =>
  let '(o, w') := m (fst s) in (o, (w', snd s)).

Definition route_try_catch {A} (body : Route A) (handler : Exn -> Route A) : Route A :=
  fun s =>
    match body s with
    | (Return a, s') => (Return a, s')
    | (Throw error, s') => handler error s'
    end.

(** [res.status(code).json(obj)] *)
Definition reply_status_json (c : nat) (obj : Json) : Route unit := fun s =>
  match snd s with
  | Some _ =>
      (Throw (new_Error "Cannot set headers after they are sent to the client"), s)
  | None => (Return tt, (fst s, Some {| code := c; json := obj |}))
  end.

Definition number (n : nat) : Json := JNumber (JS.Fin (inject_Z (Z.of_nat n))).

Definition getModelInfo : Route unit :=
  route_try_catch
    (modelLoaded ← call isModelLoaded;
     copy ← call getClasses;
     names ← call (array_elements copy);
     reply_status_json 200
       (JObject
          [("modelLoaded", JBool modelLoaded);
           ("classes", JArray (JString <$> names));
           ("modelInfo",
            JObject
              [("type", JString "CIFAR-10 Image Classifier");
               ("inputShape", JArray [number 32; number 32; number 3]);
               ("outputClasses", number 10);
               ("normalization", JString "Range [-1, 1]");
               ("supportedFormats",
                JArray (JString <$> ["jpeg"; "jpg"; "png"; "webp"; "gif"; "bmp"]))])]))
    (fun error =>
       reply_status_json 500
         (JObject
            [("error", JString "Failed to get model information");
             ("message",
              JString (if instanceofError error then message error
                       else "Unknown error"))])).

(** ** More notions the properties are stated with *)

(** A string of decimal digits and the number it writes. *)
Fixpoint digits_value (s : string) (acc : Z) : option Z :=
  match s with
  | EmptyString => Some acc
  | String c s' =>
      match JS.digit_of c with
      | Some d => digits_value s' (acc * 10 + d)
      | None => None
      end
  end.

(** The model of the service is loaded. *)
Definition model_loaded (w : World) : Prop := is_Some (model (modelService w)).

(** The text of [error] may make the controller answer other than 500. *)
Definition marked (text : string) : bool :=
  JS.includes text "Image validation failed"
  || JS.includes text "Image preprocessing failed"
  || JS.includes text "Model not loaded".

(** The tensors [createDebugImage] makes on its way from the tensor [t]
    it is given. *)
Definition squeezed_of (t : tf.Tensor) : tf.Tensor :=
  {| tf.shape := List.filter (fun d => negb (Nat.eqb d 1)) (tf.shape t);
     tf.values := tf.values t |}.

Definition product_of (t : tf.Tensor) : tf.Tensor :=
  {| tf.shape := tf.shape (squeezed_of t);
     tf.values := (fun x => JS.mul x (JS.Fin (255 # 2))) <$> tf.values (squeezed_of t) |}.

Definition denormalized_of (t : tf.Tensor) : tf.Tensor :=
  {| tf.shape := tf.shape (product_of t);
     tf.values := (fun x => JS.add x (JS.Fin (255 # 2))) <$> tf.values (product_of t) |}.

Definition clamped_of (t : tf.Tensor) : tf.Tensor :=
  {| tf.shape := tf.shape (denormalized_of t);
     tf.values := tfx.clip (JS.Fin 0) (JS.Fin 255) <$> tf.values (denormalized_of t) |}.

Definition uint8_of (backend : tfx.Backend) (t : tf.Tensor) : tf.Tensor :=
  {| tf.shape := tf.shape (clamped_of t);
     tf.values := tfx.toInt32 backend <$> tf.values (clamped_of t) |}.

(** No kernel of createDebugImage fails in the backend. *)
Definition backend_ok (backend : tfx.Backend) : Prop :=
  forall k, tfx.fault backend k = None.

(** The integer part of a channel value. *)
Definition floor_of (x : JS.num) : JS.num :=
  match x with
  | JS.Fin q => JS.Fin (inject_Z (Qfloor q))
  | _ => x
  end.

(** What the [catch] block of classifyImage answers to [error] at the time
    [timestamp]. *)
Definition failure_response (error : Exn) (timestamp : Z) : Response :=
  let generic :=
    {| status := 500;
       body := ErrorBody "Classification failed"
                 "An error occurred during image classification" (Some timestamp) |} in
  if instanceofError error then
    if JS.includes (message error) "Image validation failed"
       || JS.includes (message error) "Image preprocessing failed" then
      {| status := 400;
         body := ErrorBody "Invalid image" (message error) (Some timestamp) |}
    else if JS.includes (message error) "Model not loaded" then
      {| status := 503;
         body := ErrorBody "Service unavailable" "Classification model is not ready"
                   (Some timestamp) |}
    else generic
  else generic.

(** The parts of the state that are neither the engine nor the call
    log. *)
Definition service_part (w : World)
    : gmap nat (list string) * ModelService * option Response * list Z :=
  (heap w, modelService w, res w, clock w).

(** [s] is made of [len] digits that write [val]. *)
Definition writes (s : string) (len : nat) (val : Z) : Prop :=
  String.length s = len
  /\ forall acc, digits_value s acc = Some (acc * 10 ^ Z.of_nat len + val).

(** More sample inputs. *)
Module Case.

(** An encoder that answers with the number of values it was given. *)
Definition backend : tfx.Backend :=
  {| tfx.encodeJpeg := fun t =>
       inr (replicate (length (tf.values t) `div` 1024)%nat "255"%byte);
     tfx.cast_other := fun _ => JS.Fin 0;
     tfx.fault := fun _ => None |}.

Definition text_upload : File :=
  {| buffer := ["104"%byte; "105"%byte];
     originalname := "notes.txt"; filesize := 2; mimetype := "text/plain" |}.

(** A parser that lets through what is not longer than the limit. *)
Definition longer (size limit : nat) : bool := Nat.ltb limit size.

Definition failing_libraries : Externals :=
  {| sharp_metadata := fun _ => inl (new_Error "Input buffer contains unsupported image format");
     sharp_resize_png := fun _ _ _ => inl (new_Error "Input buffer contains unsupported image format");
     decodePng := fun _ => inl (new_Error "Expected image (BMP, JPEG, PNG, or GIF)");
     kernel_fault := fun _ => None;
     loadGraphModel := fun _ => inl (new_Error "ENOENT: no such file or directory") |}.

End Case.

(** * Properties *)

(** ** Printing and reading numbers, searching strings *)

Example toFixed_round_up : JS.toFixed (JS.Fin (85416 # 100000)) 4 = "0.8542".
Proof. vm_compute. reflexivity. Qed.

Example toFixed_percentage :
  JS.toFixed (JS.mul (JS.Fin (1 # 8)) (JS.Fin 100)) 2 = "12.50".
Proof. vm_compute. reflexivity. Qed.

Example toFixed_negative : JS.toFixed (JS.Fin (- 1 # 1000)) 2 = "-0.00".
Proof. vm_compute. reflexivity. Qed.

Example toFixed_integer : JS.toFixed (JS.Fin (5 # 2)) 0 = "3".
Proof. vm_compute. reflexivity. Qed.

Example Number_toFixed :
  JS.Number (JS.toFixed (JS.Fin (85416 # 100000)) 4) = JS.Fin (8542 # 10000).
Proof. vm_compute. reflexivity. Qed.

Example Number_NaN : JS.Number "NaN" = JS.NaN.
Proof. vm_compute. reflexivity. Qed.

Example includes_nested :
  JS.includes "Prediction failed: Error: Model not loaded" "Model not loaded" = true.
Proof. vm_compute. reflexivity. Qed.

(** ** Stepping through a handler *)

Ltac munfold :=
  cbv beta delta [mbind M_bind mret M_ret try_catch throw modify log this lift];
  cbn beta iota.

Lemma bind_unfold {A B} (m : M A) (f : A -> M B) (w : World) :
  (m ≫= f) w =
  match m w with
  | (Return a, w') => f a w'
  | (Throw error, w') => (Throw error, w')
  end.
Proof. reflexivity. Qed.

Lemma try_catch_unfold {A} (body : M A) (handler : Exn -> M A) (w : World) :
  try_catch body handler w =
  match body w with
  | (Return a, w') => (Return a, w')
  | (Throw error, w') => handler error w'
  end.
Proof. reflexivity. Qed.

Lemma append_cons (c : ascii) (s t : string) : String c s +:+ t = String c (s +:+ t).
Proof. reflexivity. Qed.

Lemma append_nil (t : string) : "" +:+ t = t.
Proof. reflexivity. Qed.

Lemma prefix_nil (t : string) : String.prefix "" t = true.
Proof. destruct t; reflexivity. Qed.

Lemma prefix_append (s t : string) : String.prefix s (s +:+ t) = true.
Proof.
  induction s as [|c s IH].
  - apply prefix_nil.
  - rewrite append_cons. simpl. destruct (ascii_dec c c); [exact IH | congruence].
Qed.

Lemma includes_unfold (s t : string) :
  JS.includes s t =
  String.prefix t s || match s with "" => false | String _ s' => JS.includes s' t end.
Proof. destruct s; reflexivity. Qed.

Lemma includes_prefix (s t : string) : JS.includes (t +:+ s) t = true.
Proof. rewrite includes_unfold, prefix_append. reflexivity. Qed.

Lemma includes_append (a s t : string) :
  JS.includes s t = true -> JS.includes (a +:+ s) t = true.
Proof.
  intros H. induction a as [|c a IH]; [exact H|].
  rewrite append_cons. simpl. rewrite IH. apply orb_true_r.
Qed.

Lemma includes_middle (a t b : string) : JS.includes (a +:+ t +:+ b) t = true.
Proof. apply includes_append, includes_prefix. Qed.

(** ** The controller: no file *)

(** C6: a request without a file is answered 400 at once: neither
    validateImage, preprocessImage nor predict is entered (the call log and
    the engine are as before), whatever the state of the model. *)
Theorem classifyImage_no_file (ext : Externals) (req : Request) (w : World) :
  file req = None ->
  res w = None ->
  exists b w',
    classifyImage ext req w = (Return tt, w')
    /\ res w' = Some {| status := 400; body := b |}
    /\ calls w' = calls w
    /\ engine w' = engine w
    /\ heap w' = heap w.
Proof.
  intros Hfile Hres. unfold classifyImage.
  rewrite try_catch_unfold, Hfile. unfold res_status_json. rewrite Hres.
  eexists _, _. repeat split.
Qed.

Lemma classifyImage_no_file_witness :
  model (modelService (boot [])) = None
  /\ exists b w',
      classifyImage (Sample.libraries Sample.jpeg500x400 Sample.picture Sample.broken_model)
        {| file := None |} (boot []) = (Return tt, w')
      /\ res w' = Some {| status := 400; body := b |}
      /\ calls w' = calls (boot [])
      /\ engine w' = engine (boot [])
      /\ heap w' = heap (boot []).
Proof.
  split; [reflexivity|].
  apply classifyImage_no_file; reflexivity.
Defined.

(** ** The model is not loaded *)

(** predict without a model: the error thrown, and the call log as the
    only change. *)
Lemma predict_not_loaded (ext : Externals) (h : nat) (w : World) :
  model (modelService w) = None ->
  predict ext h w =
    (Throw (new_Error "Model not loaded. Call loadModel() first."),
     with_calls (calls w ++ [CallPredict]) w).
Proof.
  intros Hmodel. unfold predict. munfold. simpl. rewrite Hmodel. reflexivity.
Qed.

(** C7: with no model loaded, predict throws the "Model not loaded" error
    without running anything (its only entry in the call log is the call of
    predict itself), and a request that carries a file is answered 503. *)
Theorem predict_model_not_loaded (ext : Externals) (w : World) :
  model (modelService w) = None ->
  (forall h,
     predict ext h w =
       (Throw (new_Error "Model not loaded. Call loadModel() first."),
        with_calls (calls w ++ [CallPredict]) w))
  /\ (forall req upload,
        file req = Some upload ->
        res w = None ->
        exists b w',
          classifyImage ext req w = (Return tt, w')
          /\ res w' = Some {| status := 503; body := b |}
          /\ calls w' = calls w
          /\ engine w' = engine w).
Proof.
  intros Hmodel. split.
  - intros h. by apply predict_not_loaded.
  - intros req upload Hfile Hres. unfold classifyImage.
    rewrite Hfile. unfold isModelLoaded. munfold. rewrite Hmodel. simpl.
    unfold res_status_json. rewrite Hres. eexists _, _. repeat split.
Qed.

Lemma predict_model_not_loaded_witness :
  (forall h,
     predict (Sample.libraries Sample.jpeg500x400 Sample.picture Sample.broken_model) h (boot []) =
       (Throw (new_Error "Model not loaded. Call loadModel() first."),
        with_calls (calls (boot []) ++ [CallPredict]) (boot [])))
  /\ (forall req upload,
        file req = Some upload ->
        res (boot []) = None ->
        exists b w',
          classifyImage (Sample.libraries Sample.jpeg500x400 Sample.picture Sample.broken_model)
            req (boot []) = (Return tt, w')
          /\ res w' = Some {| status := 503; body := b |}
          /\ calls w' = calls (boot [])
          /\ engine w' = engine (boot [])).
Proof. apply predict_model_not_loaded. reflexivity. Defined.

(** The model is run only when one is loaded. *)
Lemma predict_runs_loaded_model (ext : Externals) (h : nat) (w : World) :
  CallExecute ∈ calls (snd (predict ext h w)) ->
  CallExecute ∈ calls w \/ is_Some (model (modelService w)).
Proof.
  destruct (model (modelService w)) as [m|] eqn:Hmodel; [right; eauto|].
  rewrite (predict_not_loaded ext h w Hmodel). simpl.
  rewrite elem_of_app, list_elem_of_singleton. intros [?|?]; [by left | discriminate].
Qed.

(** ** validateImage *)

(** C8: validateImage throws exactly when the dimensions cannot be read or
    the format is not a supported one; what it throws is an "Image
    validation failed" error, which names the format when the format is the
    reason; on success the metadata read is returned; in both cases nothing
    but the call log changes. *)
Theorem validateImage_spec (ext : Externals) (imageBuffer : Buffer) (w : World) :
  let read := sharp_metadata ext imageBuffer in
  let run := validateImage ext imageBuffer w in
  ((exists error, fst run = Throw error)
     <-> dimensions_known read = false \/ format_supported read = false)
  /\ (forall error, fst run = Throw error -> InvalidImage error)
  /\ (forall md f,
        read = inr md -> dimensions_known read = true ->
        sharp.format md = Some f -> format_supported read = false ->
        exists error, fst run = Throw error /\ JS.includes (message error) f = true)
  /\ (forall m,
        fst run = Return m ->
        exists md,
          read = inr md
          /\ sharp.width md = Some (width m)
          /\ sharp.height md = Some (height m)
          /\ sharp.format md = Some (format m)
          /\ size m = length imageBuffer
          /\ channels m = match sharp.channels md with Some (S c) => S c | _ => 3%nat end)
  /\ snd run = with_calls (calls w ++ [CallValidateImage]) w.
Proof.
  cbv zeta. unfold validateImage. munfold.
  destruct (sharp_metadata ext imageBuffer) as [e|[[[|wd]|] [[|ht]|] [f|] ch]] eqn:Hread;
    simpl.
  all: try (split; [split; [intros _; by left | intros _; by eexists]|];
            split; [intros error [= <-]; split; reflexivity|];
            split; [intros ? ? ?; discriminate|];
            split; [intros m; discriminate | reflexivity]).
  - (* both dimensions read, a format detected *)
    unfold falsy_string. destruct f as [|c f].
    + simpl. split; [split; [intros _; by right | intros _; by eexists]|].
      split; [intros error [= <-]; split; reflexivity|].
      split; [intros md f [= <-] _ [= <-] _; eexists; split; [reflexivity|];
              destruct (_ +:+ _); reflexivity|].
      split; [intros m; discriminate | reflexivity].
    + cbn [default negb orb].
      destruct (bool_decide (String c f ∈ supportedFormats)) eqn:Hsup; simpl.
      * change (bool_decide (String c f ∈ supportedFormats)) with
          (format_supported (inr {| sharp.width := Some (S wd); sharp.height := Some (S ht);
                                    sharp.format := Some (String c f); sharp.channels := ch |}))
          in Hsup.
        split; [split; [intros [? [=]] | intros [[=]|H]; simpl in *; congruence]|].
        split; [intros error [=]|].
        split; [intros md g [= <-] _ [= <-]; simpl in *; congruence|].
        split; [|reflexivity].
        intros m [= <-]. eexists. split; [reflexivity|]. simpl.
        repeat split. destruct ch as [[|?]|]; reflexivity.
      * split; [split; [intros _; right; exact Hsup | intros _; by eexists]|].
        split; [intros error [= <-]; split; reflexivity|].
        split; [|split; [intros m; discriminate | reflexivity]].
        intros md g [= <-] _ [= <-] _. eexists. split; [reflexivity|].
        cbn [message new_Error].
        apply (includes_append "Image validation failed: Error: Unsupported image format: ").
        apply includes_prefix.
  - (* no format detected *)
    split; [split; [intros _; by right | intros _; by eexists]|].
    split; [intros error [= <-]; split; reflexivity|].
    split; [intros md f [= <-] _; discriminate|].
    split; [intros m; discriminate | reflexivity].
Qed.

Lemma validateImage_spec_witness :
  let ext := Sample.libraries Sample.tiff Sample.picture Sample.broken_model in
  let read := sharp_metadata ext (buffer Sample.upload) in
  let run := validateImage ext (buffer Sample.upload) (boot []) in
  ((exists error, fst run = Throw error)
     <-> dimensions_known read = false \/ format_supported read = false)
  /\ (forall error, fst run = Throw error -> InvalidImage error)
  /\ (forall md f,
        read = inr md -> dimensions_known read = true ->
        sharp.format md = Some f -> format_supported read = false ->
        exists error, fst run = Throw error /\ JS.includes (message error) f = true)
  /\ (forall m,
        fst run = Return m ->
        exists md,
          read = inr md
          /\ sharp.width md = Some (width m)
          /\ sharp.height md = Some (height m)
          /\ sharp.format md = Some (format m)
          /\ size m = length (buffer Sample.upload)
          /\ channels m = match sharp.channels md with Some (S c) => S c | _ => 3%nat end)
  /\ snd run = with_calls (calls (boot []) ++ [CallValidateImage]) (boot []).
Proof.
  exact (validateImage_spec
           (Sample.libraries Sample.tiff Sample.picture Sample.broken_model)
           (buffer Sample.upload) (boot [])).
Defined.

Example validateImage_tiff :
  fst (validateImage (Sample.libraries Sample.tiff Sample.picture Sample.broken_model)
         (buffer Sample.upload) (boot []))
  = Throw (new_Error "Image validation failed: Error: Unsupported image format: tiff. Supported: jpeg, jpg, png, webp, gif, bmp").
Proof. vm_compute. reflexivity. Qed.

(** ** The order of JavaScript numbers *)

Section NumOrder.

Ltac order :=
  unfold JS.geb, JS.gtb, JS.ltb, JS.eqb, JS.max2 in *;
  repeat match goal with
         | x : JS.num |- _ => destruct x
         end;
  simpl in *;
  repeat match goal with
         | H : context [(?a ?= ?b)%Q] |- _ => destruct (Qcompare_spec a b)
         | |- context [(?a ?= ?b)%Q] => destruct (Qcompare_spec a b)
         end;
  try reflexivity; try discriminate; try congruence; try lra.

Lemma geb_refl x : x <> JS.NaN -> JS.geb x x = true.
Proof. intros. order. Qed.

Lemma geb_not_NaN x y : JS.geb x y = true -> x <> JS.NaN /\ y <> JS.NaN.
Proof. intros; split; order. Qed.

Lemma gtb_geb x y : JS.gtb x y = true -> JS.geb x y = true.
Proof. intros. order. Qed.

Lemma geb_trans x y z : JS.geb x y = true -> JS.geb y z = true -> JS.geb x z = true.
Proof. intros. order. Qed.

Lemma geb_antisym x y : JS.geb x y = true -> JS.geb y x = true -> JS.eqb x y = true.
Proof. intros. order. Qed.

Lemma geb_total x y : x <> JS.NaN -> y <> JS.NaN -> JS.gtb y x = false -> JS.geb x y = true.
Proof. intros. order. Qed.

Lemma eqb_sym x y : JS.eqb x y = JS.eqb y x.
Proof. order. Qed.

Lemma eqb_geb x y : JS.eqb x y = true -> JS.geb x y = true.
Proof. intros. order. Qed.

Lemma gtb_eqb x y z : JS.gtb x y = true -> JS.eqb x z = true -> JS.eqb y z = false.
Proof. intros. order. Qed.

Lemma eqb_not_gtb x y : JS.eqb x y = true -> JS.gtb y x = false.
Proof. intros. order. Qed.

Lemma geb_not_gtb x y : JS.geb x y = true -> JS.gtb y x = false.
Proof. intros. order. Qed.

Lemma eqb_NaN_r x : JS.eqb x JS.NaN = false.
Proof. order. Qed.

Lemma eqb_eqb_not_gtb x y p :
  JS.eqb x p = true -> JS.eqb y p = true -> JS.gtb y x = false.
Proof. intros. order. Qed.

(** The comparator [b - a] is positive exactly when [b > a]. *)
Lemma sub_positive a b : JS.gtb (JS.sub b a) (JS.Fin 0) = JS.gtb b a.
Proof. unfold JS.sub. order. Qed.

Lemma max2_NaN_l y : JS.max2 JS.NaN y = JS.NaN.
Proof. reflexivity. Qed.

Lemma max2_not_NaN x y : JS.max2 x y <> JS.NaN -> x <> JS.NaN /\ y <> JS.NaN.
Proof. intros; split; order. Qed.

Lemma max2_cases x y :
  x <> JS.NaN -> y <> JS.NaN ->
  (JS.max2 x y = x /\ JS.geb x y = true) \/ (JS.max2 x y = y /\ JS.gtb y x = true).
Proof. intros. order; auto. Qed.

End NumOrder.

(** ** Math.max and indexOf *)

Lemma foldl_max2_NaN xs : foldl JS.max2 JS.NaN xs = JS.NaN.
Proof. induction xs as [|x xs IH]; [reflexivity | exact IH]. Qed.

(** What [Math.max] returns, from an accumulator [acc] on: a bound of
    everything seen, and one of the values seen. *)
Lemma foldl_max2_spec xs : forall acc,
  foldl JS.max2 acc xs <> JS.NaN ->
  acc <> JS.NaN
  /\ Forall (fun x => JS.geb (foldl JS.max2 acc xs) x = true) xs
  /\ JS.geb (foldl JS.max2 acc xs) acc = true
  /\ (foldl JS.max2 acc xs = acc \/ foldl JS.max2 acc xs ∈ xs).
Proof.
  induction xs as [|x xs IH]; intros acc Hm; simpl in *.
  - repeat split; [exact Hm | constructor | by apply geb_refl | by left].
  - destruct (IH _ Hm) as (Hacc & Hall & Hge & Hin).
    apply max2_not_NaN in Hacc as [Ha Hx].
    destruct (max2_cases acc x Ha Hx) as [[E Hge']|[E Hgt]].
    + rewrite E in *. repeat split; try done.
      * constructor; [|exact Hall]. eapply geb_trans; eassumption.
      * destruct Hin as [->|Hin]; [by left | right; by constructor].
    + rewrite E in *. repeat split; try done.
      * constructor; [exact Hge | exact Hall].
      * eapply geb_trans; [exact Hge|]. by apply gtb_geb.
      * right. destruct Hin as [->|Hin]; [constructor | by constructor].
Qed.

Lemma Math_max_NaN_free v x :
  v !! 0%nat = Some x ->
  (forall j y, v !! j = Some y -> y <> JS.NaN) ->
  JS.Math_max v <> JS.NaN.
Proof.
  unfold JS.Math_max. intros _ Hfree.
  assert (JS.NegInf <> JS.NaN) as Hacc by discriminate.
  revert Hacc Hfree. generalize JS.NegInf.
  induction v as [|y v IH]; intros acc Hacc Hfree; simpl; [exact Hacc|].
  apply IH.
  - assert (y <> JS.NaN) as Hy by (apply (Hfree 0%nat); reflexivity).
    destruct (max2_cases acc y Hacc Hy) as [[-> _]|[-> _]]; assumption.
  - intros j z Hz. apply (Hfree (S j)). exact Hz.
Qed.

(** A maximum of [v] is strictly equal to [Math.max(...v)]. *)
Lemma Math_max_eqb v i x :
  v !! i = Some x ->
  (forall j y, v !! j = Some y -> JS.geb x y = true) ->
  JS.eqb x (JS.Math_max v) = true.
Proof.
  intros Hi Hmax.
  assert (JS.Math_max v <> JS.NaN) as Hm.
  { destruct v as [|x0 v]; [discriminate|].
    eapply Math_max_NaN_free; [reflexivity|].
    intros j y Hy. apply Hmax in Hy. by apply geb_not_NaN in Hy as [_ ?]. }
  destruct (foldl_max2_spec v _ Hm) as (_ & Hall & _ & Hin).
  apply geb_antisym.
  - destruct Hin as [E|Hin].
    + unfold JS.Math_max. rewrite E.
      pose proof (Hmax i x Hi) as Hx. apply geb_not_NaN in Hx as [Hx _].
      destruct x; try done.
    + apply list_elem_of_lookup in Hin as [j Hj]. by apply (Hmax j).
  - rewrite Forall_forall in Hall. apply Hall.
    apply list_elem_of_lookup. eauto.
Qed.

Lemma indexOf_from_first v : forall m i x k,
  v !! i = Some x ->
  JS.eqb x m = true ->
  (forall j y, (j < i)%nat -> v !! j = Some y -> JS.eqb y m = false) ->
  JS.indexOf_from v m k = k + Z.of_nat i.
Proof.
  induction v as [|y v IH]; intros m i x k Hi Hx Hbefore; [discriminate|].
  destruct i as [|i]; simpl in *.
  - injection Hi as ->. rewrite Hx. lia.
  - rewrite (Hbefore 0%nat y) by (lia || reflexivity).
    rewrite (IH m i x (k + 1)); [lia | exact Hi | exact Hx |].
    intros j z Hj Hz. apply (Hbefore (S j)); [lia | exact Hz].
Qed.

(** The index the code reads the prediction at, when [v] has a maximum
    whose first place is [i]. *)
Lemma indexOf_first_max v i :
  first_max v i -> JS.indexOf v (JS.Math_max v) = Z.of_nat i.
Proof.
  intros (x & Hi & Hmax & Hbefore).
  pose proof (Math_max_eqb v i x Hi Hmax) as Heq.
  unfold JS.indexOf. rewrite (indexOf_from_first v _ i x 0 Hi Heq); [lia|].
  intros j y Hj Hy. eapply gtb_eqb; [|exact Heq]. by eapply Hbefore.
Qed.

(** A vector that has a maximum has a first place where it is reached. *)
Lemma first_max_exists v i x :
  v !! i = Some x ->
  (forall j y, v !! j = Some y -> JS.geb x y = true) ->
  exists i0, first_max v i0.
Proof.
  revert i x.
  induction v as [|a v IH] using rev_ind; intros i x Hi Hmax; [discriminate|].
  destruct (decide (i < length v)%nat) as [Hlt|Hge].
  - (* the maximum is reached before the last element *)
    rewrite lookup_app_l in Hi by exact Hlt.
    destruct (IH i x Hi) as (i0 & x0 & Hi0 & Hmax0 & Hbefore0).
    { intros j y Hj. apply (Hmax j). rewrite lookup_app_l; [exact Hj|].
      by eapply lookup_lt_Some. }
    exists i0, x0. split; [|split].
    + rewrite lookup_app_l; [exact Hi0 | by eapply lookup_lt_Some].
    + intros j y Hj.
      assert (JS.geb x0 x = true) as Hx0 by (by eapply Hmax0).
      eapply geb_trans; [exact Hx0 | by eapply Hmax].
    + intros j y Hlt' Hj. apply (Hbefore0 j y Hlt').
      rewrite lookup_app_l in Hj; [exact Hj|].
      apply lookup_lt_Some in Hi0. lia.
  - (* the maximum is the last element: look for an equal one before *)
    assert (i = length v) as ->.
    { apply lookup_lt_Some in Hi. rewrite length_app in Hi. simpl in Hi. lia. }
    rewrite list_lookup_middle in Hi by reflexivity. injection Hi as ->.
    destruct (decide (Exists (fun y => JS.geb y x = true) v)) as [Hex|Hno].
    + apply Exists_exists in Hex as (y & Hj & Hy).
      apply list_elem_of_lookup in Hj as [j Hj].
      destruct (IH j y Hj) as (i0 & x0 & Hi0 & Hmax0 & Hbefore0).
      { intros k z Hk. eapply geb_trans; [exact Hy|].
        apply (Hmax k). rewrite lookup_app_l; [exact Hk | by eapply lookup_lt_Some]. }
      exists i0, x0. split; [|split].
      * rewrite lookup_app_l; [exact Hi0 | by eapply lookup_lt_Some].
      * intros k z Hk.
        assert (JS.geb x0 y = true) as Hx0 by (by eapply Hmax0).
        eapply geb_trans; [exact Hx0|]. eapply geb_trans; [exact Hy | by eapply Hmax].
      * intros k z Hlt' Hk. apply (Hbefore0 k z Hlt').
        rewrite lookup_app_l in Hk; [exact Hk|].
        apply lookup_lt_Some in Hi0. lia.
    + exists (length v), x. split; [|split].
      * by apply list_lookup_middle.
      * exact Hmax.
      * intros k z Hlt' Hk. rewrite lookup_app_l in Hk by exact Hlt'.
        assert (JS.geb x z = true) as Hxz.
        { apply (Hmax k). rewrite lookup_app_l; [exact Hk | exact Hlt']. }
        destruct (JS.gtb x z) eqn:Hgt; [reflexivity|].
        exfalso. apply Hno. apply Exists_exists. exists z.
        split; [apply list_elem_of_lookup; eauto|].
        apply geb_total; [by apply geb_not_NaN in Hxz as [_ ?]
                         | by apply geb_not_NaN in Hxz as [? _] | exact Hgt].
Qed.

(** ** Array.prototype.sort *)

Section Sort.

Context {A : Type} (compareFn : A -> A -> JS.num).

Abbreviation behind x y := (JS.gtb (compareFn x y) (JS.Fin 0)).

Lemma sort_insert_perm x xs : sort_insert compareFn x xs ≡ₚ x :: xs.
Proof.
  induction xs as [|y ys IH]; simpl; [reflexivity|].
  destruct (behind x y); [|reflexivity].
  rewrite IH. apply perm_swap.
Qed.

Lemma Array_sort_perm xs : Array_sort compareFn xs ≡ₚ xs.
Proof.
  induction xs as [|x xs IH]; simpl; [reflexivity|].
  rewrite sort_insert_perm. by constructor.
Qed.

Lemma Array_sort_length xs : length (Array_sort compareFn xs) = length xs.
Proof. apply Permutation_length, Array_sort_perm. Qed.

(** An element passes only elements it is to be behind of: those it ties
    with stay behind it. *)
Lemma sort_insert_filter (f : A -> bool) x xs :
  (forall y, y ∈ xs -> f x = true -> f y = true -> behind x y = false) ->
  List.filter f (sort_insert compareFn x xs) = List.filter f (x :: xs).
Proof.
  induction xs as [|y ys IH]; intros Hties; [reflexivity|].
  simpl sort_insert. destruct (behind x y) eqn:Hxy; [|reflexivity].
  simpl. rewrite IH by (intros z Hz; apply Hties; by constructor). simpl.
  destruct (f x) eqn:Hx, (f y) eqn:Hy; try reflexivity.
  rewrite Hties in Hxy; [discriminate | constructor | reflexivity | exact Hy].
Qed.

Lemma Array_sort_stable (f : A -> bool) xs :
  (forall x y, f x = true -> f y = true -> behind x y = false) ->
  List.filter f (Array_sort compareFn xs) = List.filter f xs.
Proof.
  intros Hties. induction xs as [|x xs IH]; [reflexivity|].
  simpl Array_sort. rewrite sort_insert_filter by (intros; by apply Hties).
  simpl. by rewrite IH.
Qed.

Lemma sort_insert_HdRel (R : A -> A -> Prop) a x xs :
  R a x -> HdRel R a xs -> HdRel R a (sort_insert compareFn x xs).
Proof.
  intros Hax Hhd. destruct xs as [|y ys]; simpl; [by constructor|].
  destruct (behind x y); constructor; [by inversion Hhd | exact Hax].
Qed.

Lemma sort_insert_sorted (R : A -> A -> Prop) x xs :
  (forall y, y ∈ xs -> if behind x y then R y x else R x y) ->
  Sorted R xs -> Sorted R (sort_insert compareFn x xs).
Proof.
  induction xs as [|y ys IH]; intros Hord Hsorted; simpl.
  - by repeat constructor.
  - pose proof (Hord y ltac:(constructor)) as Hxy.
    destruct (behind x y).
    + inversion Hsorted; subst. constructor.
      * apply IH; [|assumption]. intros z Hz. apply Hord. by constructor.
      * by apply sort_insert_HdRel.
    + constructor; [exact Hsorted | by constructor].
Qed.

Lemma Array_sort_sorted (R : A -> A -> Prop) xs :
  (forall x y, x ∈ xs -> y ∈ xs -> if behind x y then R y x else R x y) ->
  Sorted R (Array_sort compareFn xs).
Proof.
  induction xs as [|x xs IH]; intros Hord; simpl; [constructor|].
  apply sort_insert_sorted.
  - intros y Hy. rewrite Array_sort_perm in Hy. apply Hord; by constructor.
  - apply IH. intros y z Hy Hz. apply Hord; by constructor.
Qed.

(** The element that is behind nothing and that everything before it is
    behind of comes first. *)
Lemma Array_sort_head xs : forall i x,
  xs !! i = Some x ->
  (forall j y, xs !! j = Some y -> behind x y = false) ->
  (forall j y, (j < i)%nat -> xs !! j = Some y -> behind y x = true) ->
  head (Array_sort compareFn xs) = Some x.
Proof.
  induction xs as [|a xs IH]; intros i x Hi Hnot Hbefore; [discriminate|].
  simpl Array_sort. destruct i as [|i].
  - injection Hi as ->. destruct (Array_sort compareFn xs) as [|y ys] eqn:E; [reflexivity|].
    simpl. assert (y ∈ xs) as Hy.
    { rewrite <- (Array_sort_perm xs), E. constructor. }
    apply list_elem_of_lookup in Hy as [j Hj].
    rewrite (Hnot (S j) y Hj). reflexivity.
  - assert (head (Array_sort compareFn xs) = Some x) as Hhead.
    { apply (IH i); [exact Hi | |].
      - intros j y Hj. by apply (Hnot (S j)).
      - intros j y Hlt Hj. apply (Hbefore (S j)); [lia | exact Hj]. }
    destruct (Array_sort compareFn xs) as [|y ys]; [discriminate|].
    injection Hhead as ->. simpl.
    rewrite (Hbefore 0%nat a) by (lia || reflexivity). reflexivity.
Qed.

End Sort.

(** ** predict: what it computes *)

#[local] Instance descending_transitive : Transitive descending.
Proof. intros a b c. unfold descending. apply geb_trans. Qed.

Lemma classResults_lookup classNames v i name :
  classNames !! i = Some name ->
  classResults_of classNames v !! i =
    Some {| class := name;
            probability := v !! i;
            percentage := JS.toFixed (JS.mul (JS.ToNumber (v !! i)) (JS.Fin 100)) 2 |}.
Proof. intros H. unfold classResults_of. rewrite list_lookup_imap, H. reflexivity. Qed.

Lemma classResults_inv classNames v c :
  c ∈ classResults_of classNames v ->
  exists i, classNames !! i = Some (class c) /\ probability c = v !! i.
Proof.
  intros Hc. apply list_elem_of_lookup in Hc as [i Hi].
  unfold classResults_of in Hi. rewrite list_lookup_imap in Hi.
  destruct (classNames !! i) as [name|] eqn:E; [|discriminate].
  injection Hi as <-. by exists i.
Qed.

Lemma classResults_length classNames v :
  length (classResults_of classNames v) = length classNames.
Proof. apply length_imap. Qed.

(** What predict returns when the loaded model answers with [v]. *)
Lemma predict_answers (ext : Externals) (w : World) (h : nat) (v : list JS.num) :
  answers ext w h v ->
  classes_intact w ->
  let index := JS.indexOf v (JS.Math_max v) in
  exists w',
    predict ext h w =
      (match JS.get v index with
       | Some confidence =>
           Return {| predictedClass := JS.get CLASSES index;
                     confidence := JS.Number (JS.toFixed confidence 4);
                     confidencePercentage := JS.toFixed (JS.mul confidence (JS.Fin 100)) 2;
                     allPredictions :=
                       Array_sort byProbability (classResults_of CLASSES v) |}
       | None =>
           Throw (new_Error "Prediction failed: TypeError: Cannot read properties of undefined (reading 'toFixed')")
       end, w').
Proof.
  intros (m & t & out & Hmodel & Hfault & Hlive & Hrun & Hv) Hclasses. cbv zeta.
  unfold predict, run_kernel, data, read, alloc, dispose, array_elements. munfold.
  simpl. rewrite Hmodel, Hfault. munfold. simpl. rewrite Hlive, Hrun. simpl.
  rewrite lookup_insert_eq. simpl. rewrite Hv.
  unfold classes_intact in Hclasses. rewrite Hclasses. simpl.
  destruct (JS.get v (JS.indexOf v (JS.Math_max v))); eexists; reflexivity.
Qed.

(** ** predict: the predicted class *)

Lemma get_of_nat {A} (xs : list A) (i : nat) : JS.get xs (Z.of_nat i) = xs !! i.
Proof.
  unfold JS.get. destruct (Z.ltb_spec (Z.of_nat i) 0); [lia|].
  by rewrite Nat2Z.id.
Qed.

Lemma unique_max_first v i : (1 < length v)%nat -> unique_max v i -> first_max v i.
Proof.
  intros Hlen (x & Hi & Hgt). exists x. split; [exact Hi|].
  assert (x <> JS.NaN) as Hx.
  { set (j := if decide (i = 0%nat) then 1%nat else 0%nat).
    assert (j <> i /\ (j < length v)%nat) as [Hne Hj] by (subst j; case_decide; lia).
    destruct (lookup_lt_is_Some_2 v j Hj) as [y Hy].
    pose proof (Hgt j y Hne Hy) as H.
    apply gtb_geb, geb_not_NaN in H. tauto. }
  split.
  - intros j y Hj. destruct (decide (j = i)) as [->|Hne].
    + rewrite Hi in Hj. injection Hj as <-. by apply geb_refl.
    + apply gtb_geb. by eapply Hgt.
  - intros j y Hlt Hj. apply (Hgt j y); [lia | exact Hj].
Qed.

Lemma tied_max_first v i j : tied_max v i j -> first_max v i.
Proof. intros (_ & x & y & Hi & _ & _ & Hmax & Hbefore). by exists x. Qed.

(** With the first maximum of the scores at [i], predict returns a result
    for the class [i], with the score [v[i]] as its confidence. *)
Lemma predict_first_max (ext : Externals) (w : World) (h : nat) (v : list JS.num) (i : nat) :
  answers ext w h v ->
  classes_intact w ->
  first_max v i ->
  exists r w' x,
    predict ext h w = (Return r, w')
    /\ v !! i = Some x
    /\ predictedClass r = CLASSES !! i
    /\ confidence r = JS.Number (JS.toFixed x 4)
    /\ allPredictions r = Array_sort byProbability (classResults_of CLASSES v).
Proof.
  intros Hans Hclasses Hmax.
  destruct (predict_answers ext w h v Hans Hclasses) as [w' Hrun].
  rewrite (indexOf_first_max v i Hmax), !get_of_nat in Hrun.
  destruct Hmax as (x & Hi & _). rewrite Hi in Hrun.
  eexists _, w', x. split; [exact Hrun|]. repeat split. exact Hi.
Qed.

(** C3: on ten scores, the predicted class is the class at the index of the
    maximum: at [i] when the score at [i] is greater than every other one,
    and at the first of the two indices when the maximum is reached at
    [i] and again at [j]. *)
Theorem predict_argmax (ext : Externals) (w : World) (h : nat) (v : list JS.num) :
  answers ext w h v ->
  classes_intact w ->
  length v = 10%nat ->
  (forall i, unique_max v i ->
     exists r w' name,
       predict ext h w = (Return r, w')
       /\ CLASSES !! i = Some name /\ predictedClass r = Some name)
  /\ (forall i j, tied_max v i j ->
        exists r w' name,
          predict ext h w = (Return r, w')
          /\ CLASSES !! i = Some name /\ predictedClass r = Some name).
Proof.
  intros Hans Hclasses Hlen.
  assert (forall i, first_max v i ->
            exists r w' name,
              predict ext h w = (Return r, w')
              /\ CLASSES !! i = Some name /\ predictedClass r = Some name) as Hfirst.
  { intros i Hmax.
    destruct (predict_first_max ext w h v i Hans Hclasses Hmax)
      as (r & w' & x & Hrun & Hi & Hclass & _).
    destruct (lookup_lt_is_Some_2 CLASSES i) as [name Hname].
    { apply lookup_lt_Some in Hi. simpl. lia. }
    exists r, w', name. by rewrite Hclass. }
  split.
  - intros i Hmax. apply Hfirst, unique_max_first; [lia | exact Hmax].
  - intros i j Hmax. eapply Hfirst, tied_max_first, Hmax.
Qed.

(** The model that answers with the scores [v] does so in the state left by
    preprocessing the sample upload. *)
Lemma sample_answers (v : list JS.num) (ticks : list Z) :
  answers (Sample.libraries Sample.jpeg500x400 Sample.picture (Sample.constant_model v))
    (Sample.preprocessed (Sample.constant_model v) ticks) 4 v.
Proof.
  assert (is_Some (tf.live (engine (Sample.preprocessed (Sample.constant_model v) ticks))
                     !! 4%nat)) as [t Hlive].
  { vm_compute. eexists. reflexivity. }
  exists (Sample.constant_model v), t, {| tf.shape := [1%nat; length v]; tf.values := v |}.
  split; [vm_compute; reflexivity|].
  split; [reflexivity|].
  split; [exact Hlive|].
  split; reflexivity.
Defined.

Ltac each_index H :=
  repeat match type of H with
         | (_ :: _) !! ?k = Some _ =>
             destruct k as [|k]; simpl in H; [injection H as <-; reflexivity|]
         end;
  try discriminate H.

Lemma sample_tied_max : tied_max Sample.tied 1 5.
Proof.
  split; [lia|]. exists (JS.Fin (3 # 10)), (JS.Fin (3 # 10)).
  split; [reflexivity|]. split; [reflexivity|]. split; [reflexivity|]. split.
  - intros k z Hk. unfold Sample.tied in Hk. simpl in Hk. each_index Hk.
  - intros k z Hlt Hk. destruct k as [|[|k]]; [injection Hk as <-; reflexivity | lia | lia].
Defined.

Lemma sample_classes_intact (m : GraphModel) (ticks : list Z) :
  classes_intact (Sample.preprocessed m ticks).
Proof. vm_compute; reflexivity. Defined.

Lemma predict_argmax_witness :
  exists r w' name,
    predict (Sample.libraries Sample.jpeg500x400 Sample.picture
               (Sample.constant_model Sample.tied)) 4
      (Sample.preprocessed (Sample.constant_model Sample.tied) []) = (Return r, w')
    /\ CLASSES !! 1%nat = Some name /\ predictedClass r = Some name.
Proof.
  apply (proj2 (predict_argmax _ _ 4%nat Sample.tied (sample_answers Sample.tied [])
                  (sample_classes_intact _ _) eq_refl) 1%nat 5%nat).
  exact sample_tied_max.
Defined.

(** ** predict: the head of the sorted list *)

(** The entry of the class at the first maximum heads the sorted list. *)
Lemma sorted_head_first_max (v : list JS.num) (i : nat) (name : string) :
  (length CLASSES <= length v)%nat ->
  first_max v i ->
  CLASSES !! i = Some name ->
  exists top,
    head (Array_sort byProbability (classResults_of CLASSES v)) = Some top
    /\ class top = name /\ probability top = v !! i.
Proof.
  intros Hlen (x & Hi & Hmax & Hbefore) Hname.
  exists {| class := name;
            probability := v !! i;
            percentage := JS.toFixed (JS.mul (JS.ToNumber (v !! i)) (JS.Fin 100)) 2 |}.
  split; [|split; reflexivity].
  apply (Array_sort_head byProbability _ i).
  - apply classResults_lookup, Hname.
  - intros j c Hc.
    assert (c ∈ classResults_of CLASSES v) as Hin by (apply list_elem_of_lookup; eauto).
    apply classResults_inv in Hin as (k & Hk & Hp).
    unfold byProbability. rewrite sub_positive, Hp. simpl. rewrite Hi. simpl.
    destruct (lookup_lt_is_Some_2 v k) as [y Hy].
    { apply lookup_lt_Some in Hk. lia. }
    rewrite Hy. simpl. apply geb_not_gtb. by eapply Hmax.
  - intros j c Hlt Hc.
    unfold classResults_of in Hc. rewrite list_lookup_imap in Hc.
    destruct (CLASSES !! j) as [nm|] eqn:Hj; [|discriminate]. injection Hc as <-.
    unfold byProbability. rewrite sub_positive. simpl. rewrite Hi. simpl.
    destruct (lookup_lt_is_Some_2 v j) as [y Hy].
    { apply lookup_lt_Some in Hi. lia. }
    rewrite Hy. simpl. by eapply Hbefore.
Qed.

(** ** predict: the sorted list *)

Lemma indexOf_from_none v m : forall k,
  Forall (fun y => JS.eqb y m = false) v -> JS.indexOf_from v m k = -1.
Proof.
  induction v as [|y v IH]; intros k Hall; [reflexivity|].
  inversion Hall; subst. simpl. rewrite H1. by apply IH.
Qed.

(** When the index read is inside the array, no score is NaN. *)
Lemma found_NaN_free v c :
  JS.get v (JS.indexOf v (JS.Math_max v)) = Some c ->
  Forall (fun x => x <> JS.NaN) v.
Proof.
  intros Hget.
  assert (JS.Math_max v <> JS.NaN) as Hm.
  { intros E. rewrite E in Hget. unfold JS.indexOf in Hget.
    rewrite indexOf_from_none in Hget; [discriminate|].
    apply Forall_forall. intros y _. apply eqb_NaN_r. }
  destruct (foldl_max2_spec v _ Hm) as (_ & Hall & _).
  eapply Forall_impl; [exact Hall|]. intros x Hx. simpl in Hx.
  by apply geb_not_NaN in Hx as [_ ?].
Qed.

Lemma classResults_sorted v :
  (length CLASSES <= length v)%nat ->
  Forall (fun x => x <> JS.NaN) v ->
  StronglySorted descending (Array_sort byProbability (classResults_of CLASSES v)).
Proof.
  intros Hlen Hfree. apply Sorted_StronglySorted; [apply descending_transitive|].
  apply Array_sort_sorted. intros a b Ha Hb.
  assert (forall c, c ∈ classResults_of CLASSES v ->
            JS.ToNumber (probability c) <> JS.NaN) as Hnum.
  { intros c Hc. apply classResults_inv in Hc as (k & Hk & ->).
    destruct (lookup_lt_is_Some_2 v k) as [y Hy].
    { apply lookup_lt_Some in Hk. lia. }
    rewrite Hy. simpl. rewrite Forall_forall in Hfree.
    apply Hfree, list_elem_of_lookup. eauto. }
  unfold byProbability, descending. rewrite sub_positive.
  destruct (JS.gtb _ _) eqn:Hgt.
  - by apply gtb_geb.
  - apply geb_total; [by apply Hnum | by apply Hnum | exact Hgt].
Qed.

Lemma classResults_stable v p :
  List.filter (with_probability p) (Array_sort byProbability (classResults_of CLASSES v))
  = List.filter (with_probability p) (classResults_of CLASSES v).
Proof.
  apply Array_sort_stable. intros a b Ha Hb.
  unfold byProbability. rewrite sub_positive.
  eapply eqb_eqb_not_gtb; eassumption.
Qed.

Ltac wsimpl_in H :=
  cbn [res engine heap modelService clock calls fst snd
       with_res with_engine with_heap with_modelService with_clock with_calls] in H.

(** Case analysis on every call and test of a run [H]. *)
Ltac mcases H :=
  repeat (match type of H with
          | context [match ?x with _ => _ end] =>
              lazymatch x with
              | context [match _ with _ => _ end] => fail
              | _ => destruct x eqn:?
              end
          end;
          cbv beta iota zeta in H; wsimpl_in H;
          try discriminate H).

(** The sample upload is answered as expected. *)
Lemma sample_request :
  classifyImage (Sample.libraries Sample.jpeg500x400 Sample.picture
                   (Sample.constant_model Sample.scores))
    {| file := Some Sample.upload |}
    (Sample.serving (Sample.constant_model Sample.scores) Sample.ticks)
  = (Return tt,
     snd (classifyImage (Sample.libraries Sample.jpeg500x400 Sample.picture
                           (Sample.constant_model Sample.scores))
            {| file := Some Sample.upload |}
            (Sample.serving (Sample.constant_model Sample.scores) Sample.ticks)))
  /\ res (snd (classifyImage (Sample.libraries Sample.jpeg500x400 Sample.picture
                                (Sample.constant_model Sample.scores))
                 {| file := Some Sample.upload |}
                 (Sample.serving (Sample.constant_model Sample.scores) Sample.ticks)))
     = Some Sample.expected_response.
Proof.
  split; [|vm_compute; reflexivity].
  assert (fst (classifyImage (Sample.libraries Sample.jpeg500x400 Sample.picture
                                (Sample.constant_model Sample.scores))
                 {| file := Some Sample.upload |}
                 (Sample.serving (Sample.constant_model Sample.scores) Sample.ticks))
          = Return tt) as Hfst by (vm_compute; reflexivity).
  destruct (classifyImage _ _ _) as [o w2]. cbn [fst snd] in *. by rewrite Hfst.
Defined.

Lemma sample_scores_max : first_max Sample.scores 3.
Proof.
  exists (JS.Fin (70 # 100)). split; [reflexivity|]. split.
  - intros k z Hk. unfold Sample.scores in Hk. simpl in Hk. each_index Hk.
  - intros k z Hlt Hk. unfold Sample.scores in Hk. simpl in Hk.
    destruct k as [|[|[|k]]]; simpl in Hk; [injection Hk as <-; reflexivity..|lia].
Defined.

(** ** Runs that return *)

Lemma bind_Return {A B} (m : M A) (f : A -> M B) (w : World) (b : B) (w' : World) :
  (m ≫= f) w = (Return b, w') ->
  exists a w1, m w = (Return a, w1) /\ f a w1 = (Return b, w').
Proof.
  rewrite bind_unfold. destruct (m w) as [[a|e] w1]; [eauto | discriminate].
Qed.

Lemma try_catch_rethrow_Return {A} (body : M A) (wrap : Exn -> Exn) (w : World)
    (a : A) (w' : World) :
  try_catch body (fun error => throw (wrap error)) w = (Return a, w') ->
  body w = (Return a, w').
Proof.
  rewrite try_catch_unfold. destruct (body w) as [[a0|e] w1]; [done | discriminate].
Qed.

Lemma lift_Return {A} (r : Exn + A) (w : World) (a : A) (w' : World) :
  lift r w = (Return a, w') -> r = inr a /\ w' = w.
Proof. destruct r; simpl; [discriminate|]. by intros [= -> ->]. Qed.

Lemma run_kernel_Return (ext : Externals) (k : tf.Kernel)
    (f : tf.Tensor -> Exn + tf.Tensor) (h : nat) (w : World) (h' : nat) (w' : World) :
  run_kernel ext k f h w = (Return h', w') ->
  exists t t',
    kernel_fault ext k = None
    /\ tf.live (engine w) !! h = Some t
    /\ f t = inr t'
    /\ h' = tf.nextId (engine w)
    /\ w' = with_engine {| tf.nextId := S (tf.nextId (engine w));
                           tf.live := <[tf.nextId (engine w) := t']> (tf.live (engine w)) |} w.
Proof.
  unfold run_kernel. destruct (kernel_fault ext k); [discriminate|].
  intros H. apply bind_Return in H as (t & w1 & Hread & H).
  apply bind_Return in H as (t' & w2 & Hf & H).
  unfold read in Hread. destruct (tf.live (engine w) !! h) eqn:Hlive; [|discriminate].
  injection Hread as -> ->. apply lift_Return in Hf as [Hf ->].
  unfold alloc in H. injection H as <- <-. by exists t, t'.
Qed.

Lemma decodeImage_Return (ext : Externals) (contents : Buffer) (w : World)
    (h : nat) (w' : World) :
  decodeImage ext contents w = (Return h, w') ->
  exists img,
    kernel_fault ext tf.DecodeImage = None
    /\ decodePng ext contents = inr img
    /\ h = tf.nextId (engine w)
    /\ w' = with_engine {| tf.nextId := S (tf.nextId (engine w));
                           tf.live := <[tf.nextId (engine w) := tf.of_image img]>
                                        (tf.live (engine w)) |} w.
Proof.
  unfold decodeImage. destruct (kernel_fault ext tf.DecodeImage); [discriminate|].
  intros H. apply bind_Return in H as (img & w1 & Hdec & H).
  apply lift_Return in Hdec as [Hdec ->].
  unfold alloc in H. injection H as <- <-. by exists img.
Qed.

(** What a run of preprocessImage that returns has done: five tensors were
    made, with the handles [n] to [n + 4]; those at [n], [n + 1] and
    [n + 3] were disposed of. *)
Lemma preprocessImage_Return (ext : Externals) (imageBuffer : Buffer) (w : World)
    (h : nat) (w' : World) :
  preprocessImage ext imageBuffer w = (Return h, w') ->
  exists png img resized,
    sharp_resize_png ext TARGET_WIDTH TARGET_HEIGHT imageBuffer = inr png
    /\ decodePng ext png = inr img
    /\ tf.resizeBilinear (TARGET_WIDTH, TARGET_HEIGHT) (tf.of_image img) = inr resized
    /\ h = (tf.nextId (engine w) + 4)%nat
    /\ w' =
       let n := tf.nextId (engine w) in
       with_engine
         {| tf.nextId := (n + 5)%nat;
            tf.live :=
              delete (n + 3)%nat
                (delete (n + 1)%nat
                   (delete n
                      (<[(n + 4)%nat := batched_of resized]>
                         (<[(n + 3)%nat := normalized_of resized]>
                            (<[(n + 2)%nat := difference_of resized]>
                               (<[(n + 1)%nat := resized]>
                                  (<[n := tf.of_image img]> (tf.live (engine w))))))))) |}
         (with_calls (calls w ++ [CallPreprocessImage]) w).
Proof.
  unfold preprocessImage. intros H.
  apply bind_Return in H as ([] & w0 & Hlog & H).
  unfold log, modify in Hlog. injection Hlog as <-.
  apply try_catch_rethrow_Return in H.
  apply bind_Return in H as (png & w1 & Hpng & H). apply lift_Return in Hpng as [Hpng ->].
  apply bind_Return in H as (h0 & w1 & Hdec & H).
  apply decodeImage_Return in Hdec as (img & _ & Himg & -> & ->).
  apply bind_Return in H as (h1 & w2 & Hres & H).
  apply run_kernel_Return in Hres as (t0 & resized & _ & Hl0 & Hresized & -> & ->).
  apply bind_Return in H as (h2 & w3 & Hsub & H).
  apply run_kernel_Return in Hsub as (t1 & t2 & _ & Hl1 & Ht2 & -> & ->).
  apply bind_Return in H as (h3 & w4 & Hdiv & H).
  apply run_kernel_Return in Hdiv as (t2' & t3 & _ & Hl2 & Ht3 & -> & ->).
  apply bind_Return in H as (h4 & w5 & Hexp & H).
  apply run_kernel_Return in Hexp as (t3' & t4 & _ & Hl3 & Ht4 & -> & ->).
  cbn [engine with_engine with_calls tf.nextId tf.live] in *.
  rewrite lookup_insert_eq in Hl0, Hl1, Hl2, Hl3.
  injection Hl0 as <-. injection Hl1 as <-. injection Hl2 as <-. injection Hl3 as <-.
  injection Ht2 as <-. injection Ht3 as <-. injection Ht4 as <-.
  revert H. unfold dispose. munfold. intros [= <- <-].
  exists png, img, resized. repeat split; try assumption; try lia.
  cbn [engine with_engine with_calls tf.nextId tf.live].
  replace (tf.nextId (engine w) + 5)%nat with (S (S (S (S (S (tf.nextId (engine w))))))) by lia.
  replace (tf.nextId (engine w) + 4)%nat with (S (S (S (S (tf.nextId (engine w)))))) by lia.
  replace (tf.nextId (engine w) + 3)%nat with (S (S (S (tf.nextId (engine w))))) by lia.
  replace (tf.nextId (engine w) + 2)%nat with (S (S (tf.nextId (engine w)))) by lia.
  replace (tf.nextId (engine w) + 1)%nat with (S (tf.nextId (engine w))) by lia.
  reflexivity.
Qed.

(** ** The values of the resized and of the normalized tensor *)

Lemma channel_in_range (b : byte) : in_range 0 255 (tf.channel b).
Proof.
  eexists. split; [reflexivity|].
  pose proof (Byte.to_N_bounded b) as Hb.
  split.
  - change 0%Q with (inject_Z 0). rewrite <- Zle_Qle. lia.
  - change 255%Q with (inject_Z 255). rewrite <- Zle_Qle. lia.
Qed.

Lemma at3_in_range (img : tf.Image) (y x ch : Z) :
  well_formed img ->
  0 <= y < Z.of_nat (tf.height img) ->
  0 <= x < Z.of_nat (tf.width img) ->
  0 <= ch < 3 ->
  in_range 0 255 (tf.at3 (tf.of_image img) (tf.width img) 3 y x ch).
Proof.
  intros (Hh & Hw & Hlen) Hy Hx Hch. unfold tf.at3, JS.get.
  set (i := (y * Z.of_nat (tf.width img) + x) * Z.of_nat 3 + ch).
  assert (0 <= i < Z.of_nat (length (tf.pixels img))) as Hi.
  { rewrite Hlen. subst i. nia. }
  destruct (Z.ltb_spec i 0); [lia|]. cbn [tf.of_image tf.values].
  rewrite list_lookup_fmap.
  destruct (lookup_lt_is_Some_2 (tf.pixels img) (Z.to_nat i)) as [b ->]; [lia|].
  apply channel_in_range.
Qed.

(** A value between two values in range is in range. *)
Lemma interpolate_in_range (lo hi : Q) (a b : JS.num) (f : Q) :
  in_range lo hi a -> in_range lo hi b -> (0 <= f <= 1)%Q ->
  in_range lo hi (JS.add a (JS.mul (JS.sub b a) (JS.Fin f))).
Proof.
  intros (p & -> & Hp) (q & -> & Hq) Hf. eexists. split; [reflexivity|].
  split; nra.
Qed.

(** The source coordinate of the output index [r] lies inside the source. *)
Lemma source_coordinate (old new r : nat) :
  (0 < old)%nat -> (r < new)%nat ->
  (0 <= inject_Z (Z.of_nat old) / inject_Z (Z.of_nat new) * inject_Z (Z.of_nat r)
   < inject_Z (Z.of_nat old))%Q.
Proof.
  intros Hold Hr.
  assert (0 < inject_Z (Z.of_nat old))%Q as Ha.
  { change 0%Q with (inject_Z 0). rewrite <- Zlt_Qlt. lia. }
  assert (0 < inject_Z (Z.of_nat new))%Q as Hb.
  { change 0%Q with (inject_Z 0). rewrite <- Zlt_Qlt. lia. }
  assert (0 <= inject_Z (Z.of_nat r))%Q as Hk.
  { change 0%Q with (inject_Z 0). rewrite <- Zle_Qle. lia. }
  assert (inject_Z (Z.of_nat r) < inject_Z (Z.of_nat new))%Q as Hkb.
  { rewrite <- Zlt_Qlt. lia. }
  set (a := inject_Z (Z.of_nat old)) in *. set (b := inject_Z (Z.of_nat new)) in *.
  set (k := inject_Z (Z.of_nat r)) in *.
  assert (a / b * k == a * k / b)%Q as -> by (field; lra).
  split.
  - apply Qle_shift_div_l; [exact Hb|]. nra.
  - apply Qlt_shift_div_r; [exact Hb|]. nra.
Qed.

Lemma floor_index (s : Q) (old : nat) :
  (0 <= s < inject_Z (Z.of_nat old))%Q ->
  0 <= Z.max 0 (Qfloor s) < Z.of_nat old
  /\ 0 <= Z.min (Z.of_nat old - 1) (Qceiling s) < Z.of_nat old
  /\ (0 <= s - inject_Z (Z.max 0 (Qfloor s)) <= 1)%Q.
Proof.
  intros [Hs0 Hs1].
  assert (0 <= Qfloor s) as Hf0.
  { rewrite <- (Qfloor_Z 0). by apply Qfloor_resp_le. }
  assert (Qfloor s < Z.of_nat old) as Hf1.
  { rewrite Zlt_Qlt. eapply Qle_lt_trans; [apply Qfloor_le | exact Hs1]. }
  assert (0 <= Qceiling s) as Hc0.
  { rewrite <- (Qceiling_Z 0). by apply Qceiling_resp_le. }
  rewrite Z.max_r by exact Hf0.
  split; [lia|]. split; [lia|].
  pose proof (Qfloor_le s). pose proof (Qlt_floor s) as Hlt.
  rewrite inject_Z_plus in Hlt. change (inject_Z 1) with 1%Q in Hlt.
  split; lra.
Qed.

Lemma bilinear_in_range (img : tf.Image) (newHeight newWidth r c d : nat) :
  well_formed img ->
  (r < newHeight)%nat -> (c < newWidth)%nat -> (d < 3)%nat ->
  in_range 0 255
    (tf.bilinear (tf.of_image img) (tf.height img) (tf.width img) 3
       (inject_Z (Z.of_nat (tf.height img)) / inject_Z (Z.of_nat newHeight))
       (inject_Z (Z.of_nat (tf.width img)) / inject_Z (Z.of_nat newWidth))
       r c d).
Proof.
  intros Hwf Hr Hc Hd. pose proof Hwf as (Hh & Hw & _).
  unfold tf.bilinear. cbv zeta.
  destruct (floor_index _ _ (source_coordinate _ _ r Hh Hr)) as (Hrf & Hrc & Hrfrac).
  destruct (floor_index _ _ (source_coordinate _ _ c Hw Hc)) as (Hcf & Hcc & Hcfrac).
  repeat apply interpolate_in_range; try assumption;
    apply at3_in_range; try assumption; lia.
Qed.

Lemma resizeBilinear_in_range (img : tf.Image) (newHeight newWidth : nat) :
  well_formed img ->
  exists resized,
    tf.resizeBilinear (newHeight, newWidth) (tf.of_image img) = inr resized
    /\ tf.shape resized = [newHeight; newWidth; 3%nat]
    /\ Forall (in_range 0 255) (tf.values resized).
Proof.
  intros Hwf. eexists. split; [reflexivity|]. split; [reflexivity|].
  cbn [tf.values]. apply Forall_forall. intros x Hx.
  apply list_elem_of_bind in Hx as (r & Hx & Hr).
  apply list_elem_of_bind in Hx as (c & Hx & Hc).
  apply list_elem_of_bind in Hx as (d & Hx & Hd).
  apply list_elem_of_singleton in Hx as ->.
  apply elem_of_seq in Hr, Hc, Hd.
  apply bilinear_in_range; [exact Hwf | lia..].
Qed.

(** Three rows of two pixels out of two rows of three. *)
Example resizeBilinear_small :
  match tf.resizeBilinear (3, 2)%nat (tf.of_image Sample.small) with
  | inr t =>
      (tf.shape t,
       (fun x => match x with JS.Fin q => Some (Qred q) | _ => None end) <$> tf.values t)
  | inl _ => ([], [])
  end
  = ([3; 2; 3]%nat,
     Some <$> [0; 10; 20; 150; 160; 170;
               170; 10 # 3; 92; 74; 196 # 3; 188 # 3;
               255; 0; 128; 36; 18; 9]%Q).
Proof. vm_compute. reflexivity. Qed.

(** The two kernels of the normalization, on a channel value. *)
Lemma normalize_channel (v : Q) :
  exists q,
    JS.div (JS.sub (JS.Fin v) (JS.Fin (255 # 2))) (JS.Fin (255 # 2)) = JS.Fin q
    /\ (q == v / (255 # 2) - 1)%Q.
Proof.
  eexists. split; [reflexivity|]. unfold Qminus. field.
Qed.

Lemma length_bind_const {A B} (f : A -> list B) (k : nat) (l : list A) :
  (forall x, length (f x) = k) -> length (l ≫= f) = (length l * k)%nat.
Proof.
  intros Hf. induction l as [|x l IH]; [reflexivity|].
  cbn [mbind list_bind]. rewrite length_app, Hf. simpl. by rewrite <- IH.
Qed.

Lemma resizeBilinear_length (size : nat * nat) (images resized : tf.Tensor) :
  tf.resizeBilinear size images = inr resized ->
  length (tf.values resized) = foldr Nat.mul 1%nat (tf.shape resized).
Proof.
  destruct size as [newHeight newWidth]. unfold tf.resizeBilinear.
  destruct (tf.shape images) as [|oldHeight [|oldWidth [|numChannels [|? ?]]]];
    try discriminate.
  intros [= <-]. cbn [tf.values tf.shape foldr].
  rewrite (length_bind_const _ (newWidth * (numChannels * 1))), length_seq; [reflexivity|].
  intros r. rewrite (length_bind_const _ (numChannels * 1)), length_seq; [reflexivity|].
  intros c. rewrite (length_bind_const _ 1), length_seq; [reflexivity|].
  reflexivity.
Qed.

(** ** preprocessImage: the tensor returned *)

Lemma run_kernel_live (ext : Externals) (k : tf.Kernel)
    (f : tf.Tensor -> Exn + tf.Tensor) (h : nat) (w : World) (t t' : tf.Tensor) :
  kernel_fault ext k = None ->
  tf.live (engine w) !! h = Some t ->
  f t = inr t' ->
  run_kernel ext k f h w
  = (Return (tf.nextId (engine w)),
     with_engine {| tf.nextId := S (tf.nextId (engine w));
                    tf.live := <[tf.nextId (engine w) := t']> (tf.live (engine w)) |} w).
Proof.
  intros Hk Hlive Hf. unfold run_kernel. rewrite Hk.
  rewrite bind_unfold. unfold read. rewrite Hlive.
  rewrite bind_unfold, Hf. reflexivity.
Qed.

(** preprocessImage returns whenever sharp and the decoder do and no kernel
    fails. *)
Lemma preprocessImage_returns (ext : Externals) (imageBuffer : Buffer) (w : World)
    (png : Buffer) (img : tf.Image) :
  (forall k, kernel_fault ext k = None) ->
  sharp_resize_png ext TARGET_WIDTH TARGET_HEIGHT imageBuffer = inr png ->
  decodePng ext png = inr img ->
  exists h w', preprocessImage ext imageBuffer w = (Return h, w').
Proof.
  intros Hok Hpng Himg. unfold preprocessImage.
  rewrite bind_unfold. unfold log, modify.
  rewrite try_catch_unfold, bind_unfold, Hpng. cbn [lift mret M_ret].
  rewrite bind_unfold. unfold decodeImage. rewrite (Hok tf.DecodeImage).
  rewrite bind_unfold, Himg. cbn [lift mret M_ret]. unfold alloc at 1.
  rewrite bind_unfold.
  erewrite (run_kernel_live ext tf.ResizeBilinear _ _ _ (tf.of_image img));
    [|apply Hok | cbn [engine with_engine tf.live tf.nextId]; apply lookup_insert_eq
     |reflexivity].
  rewrite bind_unfold. cbn [engine with_engine with_calls tf.live tf.nextId].
  erewrite (run_kernel_live ext tf.Sub);
    [|apply Hok | cbn [engine with_engine tf.live tf.nextId]; apply lookup_insert_eq
     |reflexivity].
  rewrite bind_unfold. cbn [engine with_engine with_calls tf.live tf.nextId].
  erewrite (run_kernel_live ext tf.Div);
    [|apply Hok | cbn [engine with_engine tf.live tf.nextId]; apply lookup_insert_eq
     |reflexivity].
  rewrite bind_unfold. cbn [engine with_engine with_calls tf.live tf.nextId].
  erewrite (run_kernel_live ext tf.ExpandDims);
    [|apply Hok | cbn [engine with_engine tf.live tf.nextId]; apply lookup_insert_eq
     |reflexivity].
  eexists _, _. reflexivity.
Qed.

(** *** A picture that has the target size already *)

Lemma same_size_coordinate (n r : nat) :
  (r < n)%nat ->
  let s := (inject_Z (Z.of_nat n) / inject_Z (Z.of_nat n) * inject_Z (Z.of_nat r))%Q in
  Z.max 0 (Qfloor s) = Z.of_nat r
  /\ Z.min (Z.of_nat n - 1) (Qceiling s) = Z.of_nat r.
Proof.
  intros Hr s.
  assert (s == inject_Z (Z.of_nat r))%Q as Hs.
  { subst s. field. intros H0. change 0%Q with (inject_Z 0) in H0.
    rewrite inject_Z_injective in H0. lia. }
  rewrite (Qfloor_comp _ _ Hs), (Qceiling_comp _ _ Hs), Qfloor_Z, Qceiling_Z.
  split; [apply Z.max_r | apply Z.min_r]; lia.
Qed.

(** Resizing to the size the picture has gives back its channel values. *)
Lemma bilinear_same_size (img : tf.Image) (r c d : nat) (b : byte) :
  (r < tf.height img)%nat -> (c < tf.width img)%nat ->
  tf.pixels img !! ((r * tf.width img + c) * 3 + d)%nat = Some b ->
  exists v,
    tf.bilinear (tf.of_image img) (tf.height img) (tf.width img) 3
      (inject_Z (Z.of_nat (tf.height img)) / inject_Z (Z.of_nat (tf.height img)))
      (inject_Z (Z.of_nat (tf.width img)) / inject_Z (Z.of_nat (tf.width img)))
      r c d
    = JS.Fin v
    /\ (v == inject_Z (Z.of_N (Byte.to_N b)))%Q.
Proof.
  intros Hr Hc Hb. unfold tf.bilinear. cbv zeta.
  destruct (same_size_coordinate _ _ Hr) as [-> ->].
  destruct (same_size_coordinate _ _ Hc) as [-> ->].
  assert (tf.at3 (tf.of_image img) (tf.width img) 3 (Z.of_nat r) (Z.of_nat c) (Z.of_nat d)
          = JS.Fin (inject_Z (Z.of_N (Byte.to_N b)))) as ->.
  { unfold tf.at3.
    replace ((Z.of_nat r * Z.of_nat (tf.width img) + Z.of_nat c) * Z.of_nat 3 + Z.of_nat d)
      with (Z.of_nat ((r * tf.width img + c) * 3 + d)) by lia.
    rewrite get_of_nat. cbn [tf.of_image tf.values].
    rewrite list_lookup_fmap, Hb. reflexivity. }
  eexists. split; [reflexivity|]. ring.
Qed.

Lemma Forall2_bind_seq {A B} (P : A -> B -> Prop) (k n : nat) :
  forall (f : nat -> list A) (l : list B),
    length l = (n * k)%nat ->
    (forall i, (i < n)%nat -> Forall2 P (f i) (take k (drop (i * k) l))) ->
    Forall2 P (seq 0 n ≫= f) l.
Proof.
  induction n as [|n IH]; intros f l Hlen Hf.
  - apply nil_length_inv in Hlen as ->. constructor.
  - rewrite <- (take_drop k l). cbn [seq]. rewrite bind_cons. apply Forall2_app.
    + apply (Hf 0%nat). lia.
    + rewrite <- fmap_S_seq, list_fmap_bind. apply IH.
      * rewrite length_drop. lia.
      * intros i Hi. rewrite drop_drop. apply (Hf (S i)). lia.
Qed.

Lemma take_1_drop {A} (l : list A) (i : nat) (x : A) :
  l !! i = Some x -> take 1 (drop i l) = [x].
Proof.
  revert i. induction l as [|y l IH]; intros [|i] Hi; try discriminate.
  - by injection Hi as ->.
  - by apply IH.
Qed.

Lemma resizeBilinear_same_size (img : tf.Image) (resized : tf.Tensor) :
  well_formed img ->
  tf.resizeBilinear (tf.height img, tf.width img) (tf.of_image img) = inr resized ->
  Forall2 (fun x b => exists v, x = JS.Fin v /\ (v == inject_Z (Z.of_N (Byte.to_N b)))%Q)
    (tf.values resized) (tf.pixels img).
Proof.
  intros (Hh & Hw & Hlen) Hresized.
  apply (f_equal (fun o => match o with inr t => tf.values t | inl _ => [] end))
    in Hresized.
  cbv beta iota delta [tf.resizeBilinear tf.of_image tf.shape tf.values] in Hresized.
  fold (tf.values resized) in Hresized. rewrite <- Hresized. clear Hresized.
  fold (tf.of_image img).
  set (H := tf.height img) in *. set (W := tf.width img) in *.
  apply (Forall2_bind_seq _ (W * 3)); [lia|]. intros r Hr.
  assert (r * (W * 3) + W * 3 <= length (tf.pixels img))%nat as Hrow by nia.
  apply (Forall2_bind_seq _ 3).
  { rewrite length_take, length_drop. lia. }
  intros c Hc.
  apply (Forall2_bind_seq _ 1).
  { rewrite length_take, length_drop, length_take, length_drop. nia. }
  intros d Hd.
  destruct (lookup_lt_is_Some_2 (tf.pixels img) ((r * W + c) * 3 + d)) as [b Hb]; [nia|].
  rewrite (take_1_drop _ _ b).
  - constructor; [|constructor]. by apply bilinear_same_size.
  - rewrite Nat.mul_1_r, lookup_take_lt, lookup_drop, lookup_take_lt, lookup_drop by nia.
    rewrite <- Hb. f_equal. lia.
Qed.

(** C5: preprocessImage returns whenever sharp and the decoder do and no
    kernel fails.  When it returns, the tensor behind the handle has the
    shape [1, 32, 32, 3] and 3072 values: with [resized] the bilinear resize
    to 32 by 32 of the picture the decoder reads from what sharp made of the
    upload, each value is the channel value [v] of [resized] at the same
    place, between 0 and 255, taken to [(v - 127.5) / 127.5], which is
    [v / 127.5 - 1] and lies between -1 and 1; and when the decoded picture
    is 32 by 32 already, the channel values of [resized] are those of the
    picture. *)
Theorem preprocessImage_normalized (ext : Externals) (imageBuffer : Buffer) (w : World) :
  decoder_ok ext ->
  (forall png img,
     (forall k, kernel_fault ext k = None) ->
     sharp_resize_png ext TARGET_WIDTH TARGET_HEIGHT imageBuffer = inr png ->
     decodePng ext png = inr img ->
     exists h w', preprocessImage ext imageBuffer w = (Return h, w'))
  /\ forall h w',
       preprocessImage ext imageBuffer w = (Return h, w') ->
       exists png img resized t,
         sharp_resize_png ext TARGET_WIDTH TARGET_HEIGHT imageBuffer = inr png
         /\ decodePng ext png = inr img
         /\ tf.resizeBilinear (TARGET_WIDTH, TARGET_HEIGHT) (tf.of_image img) = inr resized
         /\ (tf.height img = TARGET_WIDTH -> tf.width img = TARGET_HEIGHT ->
             Forall2
               (fun x b =>
                  exists v, x = JS.Fin v /\ (v == inject_Z (Z.of_N (Byte.to_N b)))%Q)
               (tf.values resized) (tf.pixels img))
         /\ tf.live (engine w') !! h = Some t
         /\ tf.shape t = [1; 32; 32; 3]%nat
         /\ length (tf.values t) = 3072%nat
         /\ Forall2
              (fun out x =>
                 exists v q,
                   x = JS.Fin v /\ (0 <= v <= 255)%Q
                   /\ out = JS.Fin q
                   /\ (q == (v - (255 # 2)) / (255 # 2))%Q
                   /\ (q == v / (255 # 2) - 1)%Q
                   /\ (-1 <= q <= 1)%Q)
              (tf.values t) (tf.values resized).
Proof.
  intros Hdec. split.
  { intros png img Hok Hpng Himg. by apply (preprocessImage_returns ext _ w png img). }
  intros h w' Hrun.
  apply preprocessImage_Return in Hrun as (png & img & resized & Hpng & Himg & Hres & -> & ->).
  pose proof (Hdec _ _ Himg) as Hwf.
  destruct (resizeBilinear_in_range img TARGET_WIDTH TARGET_HEIGHT Hwf)
    as (resized' & Hres' & Hshape & Hrange).
  rewrite Hres in Hres'. injection Hres' as <-.
  exists png, img, resized, (batched_of resized).
  split; [exact Hpng|]. split; [exact Himg|]. split; [exact Hres|].
  split.
  { intros Hh Hw. apply resizeBilinear_same_size; [exact Hwf|].
    by rewrite Hh, Hw. }
  split.
  { cbn [engine with_engine tf.live].
    rewrite !lookup_delete_ne by lia. apply lookup_insert_eq. }
  split; [cbn [batched_of tf.shape]; by rewrite Hshape|].
  split.
  { cbn [batched_of normalized_of difference_of tf.values].
    rewrite !length_fmap, (resizeBilinear_length _ _ _ Hres), Hshape. reflexivity. }
  cbn [batched_of normalized_of difference_of tf.values].
  apply Forall2_fmap_l, Forall2_fmap_l, Forall_Forall2_diag.
  eapply Forall_impl; [exact Hrange|].
  intros x (v & -> & Hv). exists v, ((v + - (255 # 2)) / (255 # 2))%Q.
  assert ((v + - (255 # 2)) / (255 # 2) == v * (2 # 255) - 1)%Q as Hq by field.
  split; [reflexivity|]. split; [exact Hv|]. split; [reflexivity|].
  split; [reflexivity|]. split; [rewrite Hq; field|].
  rewrite Hq. split; lra.
Qed.

Lemma sample_decoder_ok (md : sharp.Metadata) (m : GraphModel) :
  decoder_ok (Sample.libraries md Sample.picture m).
Proof.
  intros contents img [= <-]. split; [|split]; [cbn; lia..|].
  vm_compute. reflexivity.
Defined.

(** The sample upload is preprocessed into the tensor with the handle 4. *)
Lemma sample_preprocessed (m : GraphModel) (ticks : list Z) :
  preprocessImage (Sample.libraries Sample.jpeg500x400 Sample.picture m)
    (buffer Sample.upload) (Sample.serving m ticks)
  = (Return 4%nat, Sample.preprocessed m ticks).
Proof.
  unfold Sample.preprocessed.
  assert (fst (preprocessImage (Sample.libraries Sample.jpeg500x400 Sample.picture m)
                 (buffer Sample.upload) (Sample.serving m ticks)) = Return 4%nat)
    as Hfst by (vm_compute; reflexivity).
  destruct (preprocessImage _ _ _) as [o w']. cbn [fst snd] in *. by rewrite Hfst.
Defined.

Lemma preprocessImage_normalized_witness :
  let ext := Sample.libraries Sample.jpeg500x400 Sample.picture Sample.broken_model in
  (exists h w',
     preprocessImage ext (buffer Sample.upload) (Sample.serving Sample.broken_model [])
     = (Return h, w'))
  /\ exists resized t,
       tf.resizeBilinear (TARGET_WIDTH, TARGET_HEIGHT) (tf.of_image Sample.picture)
       = inr resized
       /\ Forall2
            (fun x b =>
               exists v, x = JS.Fin v /\ (v == inject_Z (Z.of_N (Byte.to_N b)))%Q)
            (tf.values resized) (tf.pixels Sample.picture)
       /\ tf.live (engine (Sample.preprocessed Sample.broken_model [])) !! 4%nat = Some t
       /\ tf.shape t = [1; 32; 32; 3]%nat
       /\ length (tf.values t) = 3072%nat
       /\ Forall2
            (fun out x =>
               exists v q,
                 x = JS.Fin v /\ (0 <= v <= 255)%Q
                 /\ out = JS.Fin q
                 /\ (q == (v - (255 # 2)) / (255 # 2))%Q
                 /\ (q == v / (255 # 2) - 1)%Q
                 /\ (-1 <= q <= 1)%Q)
            (tf.values t) (tf.values resized).
Proof.
  cbv zeta.
  destruct (preprocessImage_normalized
              (Sample.libraries Sample.jpeg500x400 Sample.picture Sample.broken_model)
              (buffer Sample.upload) (Sample.serving Sample.broken_model [])
              (sample_decoder_ok Sample.jpeg500x400 Sample.broken_model))
    as [Hreturns Hnormalized].
  split.
  - apply (Hreturns (buffer Sample.upload) Sample.picture).
    + intros k. reflexivity.
    + reflexivity.
    + reflexivity.
  - destruct (Hnormalized 4%nat _ (sample_preprocessed Sample.broken_model []))
      as (png & img & resized & t & _ & Himg & Hres & Hsame & Hlive & Hshape & Hlen & Hall).
    cbn [decodePng Sample.libraries] in Himg. injection Himg as <-.
    exists resized, t.
    split; [exact Hres|]. split; [apply Hsame; reflexivity|].
    split; [exact Hlive|]. split; [exact Hshape|]. split; [exact Hlen | exact Hall].
Defined.

(** ** getClasses *)

Lemma boot_classes_intact (ticks : list Z) : classes_intact (boot ticks).
Proof. vm_compute. reflexivity. Defined.

(** C9: getClasses returns a reference to a new array that holds the ten
    class names; whatever the caller does to that array, the array of the
    service still holds the ten names, and so does the array a later call
    returns. *)
Theorem getClasses_copy (w : World) :
  classes_intact w ->
  exists a w',
    getClasses w = (Return a, w')
    /\ heap w' !! a
       = Some ["plane"; "car"; "bird"; "cat"; "deer"; "dog"; "frog"; "horse";
               "ship"; "truck"]
    /\ a <> classes (modelService w')
    /\ forall f,
         let w'' := snd (mutate_array a f w') in
         heap w'' !! classes (modelService w'') = Some CLASSES
         /\ exists a2 w3,
              getClasses w'' = (Return a2, w3) /\ heap w3 !! a2 = Some CLASSES.
Proof.
  intros Hclasses. unfold classes_intact in Hclasses.
  assert (fresh (dom (heap w)) <> classes (modelService w)) as Hfresh.
  { intros E. apply (is_fresh (dom (heap w))). rewrite E.
    apply elem_of_dom. by rewrite Hclasses. }
  unfold getClasses, array_elements, new_array. munfold.
  rewrite Hclasses. cbn [default from_option id].
  eexists _, _. split; [reflexivity|].
  cbn [heap with_heap modelService].
  split; [apply lookup_insert_eq|]. split; [exact Hfresh|].
  intros f. unfold mutate_array, modify. cbn [snd heap with_heap modelService].
  assert (alter f (fresh (dom (heap w))) (<[fresh (dom (heap w)) := CLASSES]> (heap w))
            !! classes (modelService w) = Some CLASSES) as Hkept.
  { rewrite lookup_alter_ne by exact Hfresh.
    rewrite lookup_insert_ne by exact Hfresh. exact Hclasses. }
  split; [exact Hkept|].
  cbv beta iota zeta. cbn [heap with_heap modelService]. rewrite Hkept.
  cbn [default from_option id].
  eexists _, _. split; [reflexivity|].
  cbn [heap with_heap]. apply lookup_insert_eq.
Qed.

Lemma getClasses_copy_witness :
  exists a w',
    getClasses (boot []) = (Return a, w')
    /\ heap w' !! a
       = Some ["plane"; "car"; "bird"; "cat"; "deer"; "dog"; "frog"; "horse";
               "ship"; "truck"]
    /\ a <> classes (modelService w')
    /\ forall f,
         let w'' := snd (mutate_array a f w') in
         heap w'' !! classes (modelService w'') = Some CLASSES
         /\ exists a2 w3,
              getClasses w'' = (Return a2, w3) /\ heap w3 !! a2 = Some CLASSES.
Proof. exact (getClasses_copy (boot []) (boot_classes_intact [])). Defined.

(** A caller that empties the array it got leaves the next caller with the
    ten names. *)
Example getClasses_after_mutation :
  let '(_, w1) := getClasses (boot []) in
  let '(_, w2) := mutate_array 1 (fun _ => ["spoofed"]) w1 in
  let '(a, w3) := getClasses w2 in
  (heap w2 !! 1%nat, heap w3 !! 0%nat, a, heap w3 !! 2%nat)
  = (Some ["spoofed"], Some CLASSES, Return 2%nat, Some CLASSES).
Proof. vm_compute. reflexivity. Qed.

(** ** preprocessImage: the tensors left in the engine *)

(** After a run that returns, two tensors are live that were not before:
    the one returned and the result of [tf.sub], which nothing refers to
    any more. *)
Lemma preprocessImage_survivors (ext : Externals) (imageBuffer : Buffer) (w : World)
    (h : nat) (w' : World) :
  engine_ok w ->
  preprocessImage ext imageBuffer w = (Return h, w') ->
  exists resized,
    h = (tf.nextId (engine w) + 4)%nat
    /\ tf.live (engine w')
       = <[(tf.nextId (engine w) + 4)%nat := batched_of resized]>
           (<[(tf.nextId (engine w) + 2)%nat := difference_of resized]>
              (tf.live (engine w))).
Proof.
  intros Hok Hrun.
  apply preprocessImage_Return in Hrun as (png & img & resized & _ & _ & _ & -> & ->).
  exists resized. split; [reflexivity|].
  cbn [engine with_engine tf.live]. apply map_eq. intros i.
  assert (forall k, (tf.nextId (engine w) <= k)%nat -> tf.live (engine w) !! k = None)
    as Hfresh.
  { intros k Hk. destruct (tf.live (engine w) !! k) eqn:E; [|reflexivity].
    assert (k < tf.nextId (engine w))%nat by (apply Hok; eauto). lia. }
  repeat (rewrite lookup_delete || rewrite lookup_insert || case_decide);
    subst; try reflexivity; try lia; symmetry; apply Hfresh; lia.
Qed.

(** C2, on the sample upload.  From an engine without tensors,
    preprocessImage returns the handle 4 and leaves the tensor 2, the
    result of [tf.sub], live next to it; when the backend fails in
    [tf.div], the first three tensors stay live. *)
Theorem preprocessImage_leaks :
  let ext := Sample.libraries Sample.jpeg500x400 Sample.picture Sample.broken_model in
  let w := Sample.serving Sample.broken_model [] in
  let run := preprocessImage ext (buffer Sample.upload) w in
  let failed := preprocessImage (Sample.failing_in tf.Div ext) (buffer Sample.upload) w in
  tf.live (engine w) = ∅
  /\ fst run = Return 4%nat
  /\ dom (tf.live (engine (snd run))) = {[2%nat; 4%nat]}
  /\ fst failed
     = Throw (new_Error "Image preprocessing failed: Error: Failed to allocate memory")
  /\ dom (tf.live (engine (snd failed))) = {[0%nat; 1%nat; 2%nat]}.
Proof. vm_compute. repeat split. Qed.

(** ** classifyImage: the preprocessed tensor *)

(** predict leaves every tensor it was not given by the engine itself as it
    found it. *)
Lemma predict_keeps_tensors (ext : Externals) (preprocessedImage : nat) (w : World)
    (h : nat) :
  (h < tf.nextId (engine w))%nat ->
  tf.live (engine (snd (predict ext preprocessedImage w))) !! h
  = tf.live (engine w) !! h.
Proof.
  intros Hh. unfold predict, run_kernel, data, read, alloc, dispose, array_elements.
  munfold. cbn [modelService with_calls engine].
  destruct (model (modelService w)) as [m|]; [|reflexivity].
  destruct (kernel_fault ext tf.Execute); [reflexivity|].
  cbn [engine with_calls].
  destruct (tf.live (engine w) !! preprocessedImage) as [t|]; [|reflexivity].
  cbn [lift]. destruct (execute m t) as [e|out]; [reflexivity|].
  munfold. cbn [engine with_engine with_calls tf.live tf.nextId].
  rewrite lookup_insert_eq. cbn [heap with_engine with_calls].
  destruct (JS.get (tf.values out) _);
    cbn [snd engine with_engine tf.live];
    rewrite lookup_delete_ne, lookup_insert_ne by lia; reflexivity.
Qed.

Lemma Date_now_engine (w : World) : engine (snd (Date_now w)) = engine w.
Proof. unfold Date_now. by destruct (clock w). Qed.

Lemma res_status_json_engine (code : nat) (b : Body) (w : World) :
  engine (snd (res_status_json code b w)) = engine w.
Proof. unfold res_status_json. by destruct (res w). Qed.

Lemma timestamped_engine (code : nat) (b : Z -> Body) (w : World) :
  engine (snd ((timestamp ← Date_now; res_status_json code (b timestamp)) w)) = engine w.
Proof.
  rewrite bind_unfold. pose proof (Date_now_engine w) as H.
  destruct (Date_now w) as [[t|e] w0]; cbn [snd] in *; [|exact H].
  by rewrite res_status_json_engine.
Qed.

(** When predict throws, the handler answers and returns with the engine as
    predict left it: the preprocessed tensor is not disposed of. *)
Lemma classifyImage_predict_throws (ext : Externals) (req : Request) (upload : File)
    (w w0 w1 w2 w3 : World) (t0 : Z) (md : ImageMetadata) (h : nat) (error : Exn) :
  file req = Some upload ->
  is_Some (model (modelService w)) ->
  Date_now w = (Return t0, w0) ->
  validateImage ext (buffer upload) w0 = (Return md, w1) ->
  preprocessImage ext (buffer upload) w1 = (Return h, w2) ->
  predict ext h w2 = (Throw error, w3) ->
  engine (snd (classifyImage ext req w)) = engine w3
  /\ tf.live (engine w3) !! h = tf.live (engine w2) !! h
  /\ is_Some (tf.live (engine w2) !! h).
Proof.
  intros Hfile [m Hmodel] Hnow Hvalid Hpre Hpredict.
  split; [|split].
  - unfold classifyImage. rewrite try_catch_unfold, Hfile.
    unfold isModelLoaded. rewrite !bind_unfold. cbn [this mret M_ret].
    rewrite Hmodel. cbn [negb is_Some bool_decide].
    assert (bool_decide (is_Some (Some m)) = true) as -> by (apply bool_decide_eq_true; eauto).
    cbn [negb]. rewrite bind_unfold, Hnow, bind_unfold, Hvalid, bind_unfold, Hpre.
    rewrite bind_unfold, Hpredict.
    destruct (instanceofError error);
      repeat match goal with
             | |- context [if ?c then _ else _] => destruct c
             end;
      apply timestamped_engine.
  - pose proof (predict_keeps_tensors ext h w2 h) as Hkeep.
    rewrite Hpredict in Hkeep. apply Hkeep.
    apply preprocessImage_Return in Hpre as (? & ? & ? & _ & _ & _ & -> & ->).
    cbn [engine with_engine tf.nextId]. lia.
  - apply preprocessImage_Return in Hpre as (? & ? & ? & _ & _ & _ & -> & ->).
    cbn [engine with_engine tf.live].
    rewrite !lookup_delete_ne by lia. rewrite lookup_insert_eq. eauto.
Qed.

(** When predict returns, the preprocessed tensor is disposed of before the
    answer is put together, whether sending it works or not. *)
Lemma classifyImage_predict_returns (ext : Externals) (req : Request) (upload : File)
    (w w0 w1 w2 w3 : World) (t0 : Z) (md : ImageMetadata) (h : nat)
    (prediction : PredictionResult) :
  file req = Some upload ->
  is_Some (model (modelService w)) ->
  Date_now w = (Return t0, w0) ->
  validateImage ext (buffer upload) w0 = (Return md, w1) ->
  preprocessImage ext (buffer upload) w1 = (Return h, w2) ->
  predict ext h w2 = (Return prediction, w3) ->
  tf.live (engine (snd (classifyImage ext req w))) !! h = None.
Proof.
  intros Hfile [m Hmodel] Hnow Hvalid Hpre Hpredict.
  unfold classifyImage. rewrite try_catch_unfold, Hfile.
  unfold isModelLoaded. rewrite !bind_unfold. cbn [this mret M_ret].
  rewrite Hmodel.
  assert (bool_decide (is_Some (Some m)) = true) as -> by (apply bool_decide_eq_true; eauto).
  cbn [negb]. rewrite bind_unfold, Hnow, bind_unfold, Hvalid, bind_unfold, Hpre.
  rewrite bind_unfold, Hpredict.
  set (w4 := snd (dispose h w3)).
  assert (tf.live (engine w4) !! h = None) as Hgone.
  { subst w4. unfold dispose, modify. cbn [snd engine with_engine tf.live].
    apply lookup_delete_eq. }
  rewrite bind_unfold. change (dispose h w3) with (Return tt, w4).
  cbv beta iota.
  rewrite bind_unfold. pose proof (Date_now_engine w4) as H5.
  destruct (Date_now w4) as [[t5|e5] w5]; cbn [snd] in H5.
  2: { destruct (instanceofError e5);
         repeat match goal with
                | |- context [if ?c then _ else _] => destruct c
                end;
         rewrite timestamped_engine, H5; exact Hgone. }
  rewrite bind_unfold. pose proof (Date_now_engine w5) as H6.
  destruct (Date_now w5) as [[t6|e6] w6]; cbn [snd] in H6.
  2: { destruct (instanceofError e6);
         repeat match goal with
                | |- context [if ?c then _ else _] => destruct c
                end;
         rewrite timestamped_engine, H6, H5; exact Hgone. }
  unfold res_json.
  pose proof (res_status_json_engine 200
                (ClassifyBody true
                   {| r_predictedClass := predictedClass prediction;
                      r_confidence := confidence prediction;
                      r_confidencePercentage := confidencePercentage prediction;
                      r_allPredictions := take 5 (allPredictions prediction) |}
                   {| o_filename := originalname upload; o_size := filesize upload;
                      o_mimetype := mimetype upload; o_dimensions := dimensions md |}
                   {| timeMs := t5 - t0; modelInputSize := "32x32x3";
                      normalization := "Range [-1, 1]" |} t6) w6) as H7.
  destruct (res_status_json 200 _ w6) as [[[]|e7] w7]; cbn [snd] in H7.
  - cbn [snd]. rewrite H7, H6, H5. exact Hgone.
  - destruct (instanceofError e7);
      repeat match goal with
             | |- context [if ?c then _ else _] => destruct c
             end;
      rewrite timestamped_engine, H7, H6, H5; exact Hgone.
Qed.

(** C1, on the sample upload with a model whose run throws: the request is
    answered 500 after validateImage, preprocessImage and predict were
    called, and the tensor preprocessImage returned, with the handle 4 and
    the shape [1, 32, 32, 3], is still live in the engine, which had no
    tensor before. *)
Theorem classifyImage_leaks_on_predict_failure :
  let ext := Sample.libraries Sample.jpeg500x400 Sample.picture Sample.broken_model in
  let w := Sample.serving Sample.broken_model Sample.ticks in
  let run := classifyImage ext {| file := Some Sample.upload |} w in
  tf.live (engine w) = ∅
  /\ fst run = Return tt
  /\ res (snd run)
     = Some {| status := 500;
               body := ErrorBody "Classification failed"
                         "An error occurred during image classification" (Some 105) |}
  /\ calls (snd run) = [CallValidateImage; CallPreprocessImage; CallPredict; CallExecute]
  /\ tf.shape <$> tf.live (engine (snd run)) !! 4%nat = Some [1; 32; 32; 3]%nat.
Proof. vm_compute. repeat split. Qed.

(** The same happens when the model answers with a score that is NaN:
    [indexOf] finds no maximum, the confidence read is [undefined], and
    predict throws after the sort. *)
Example classifyImage_NaN_scores :
  let m := Sample.constant_model (JS.NaN :: Sample.scores) in
  let ext := Sample.libraries Sample.jpeg500x400 Sample.picture m in
  let run := classifyImage ext {| file := Some Sample.upload |}
               (Sample.serving m Sample.ticks) in
  fst (predict ext 4 (Sample.preprocessed m []))
  = Throw (new_Error "Prediction failed: TypeError: Cannot read properties of undefined (reading 'toFixed')")
  /\ status <$> res (snd run) = Some 500%nat
  /\ dom (tf.live (engine (snd run))) = {[2%nat; 4%nat]}.
Proof. vm_compute. repeat split. Qed.

(** When the answer cannot be sent, the tensor was disposed of before. *)
Example classifyImage_response_sent :
  let m := Sample.constant_model Sample.scores in
  let ext := Sample.libraries Sample.jpeg500x400 Sample.picture m in
  let w := with_res (Some Sample.expected_response) (Sample.serving m Sample.ticks) in
  let run := classifyImage ext {| file := Some Sample.upload |} w in
  fst run = Throw (new_Error "Cannot set headers after they are sent to the client")
  /\ dom (tf.live (engine (snd run))) = {[2%nat]}.
Proof. vm_compute. repeat split. Qed.

(** ** What every service call maintains *)

Section Maintained.

Context (P : World -> Prop).

Lemma maintains_mret {A} (a : A) : maintains P (mret a).
Proof. intros w Hw. exact Hw. Qed.

Lemma maintains_throw {A} (error : Exn) : maintains P (@throw A error).
Proof. intros w Hw. exact Hw. Qed.

Lemma maintains_lift {A} (r : Exn + A) : maintains P (lift r).
Proof. destruct r; [apply maintains_throw | apply maintains_mret]. Qed.

Lemma maintains_this : maintains P this.
Proof. intros w Hw. exact Hw. Qed.

Lemma maintains_bind {A B} (m : M A) (f : A -> M B) :
  maintains P m -> (forall a, maintains P (f a)) -> maintains P (m ≫= f).
Proof.
  intros Hm Hf w Hw. rewrite bind_unfold. specialize (Hm w Hw).
  destruct (m w) as [[a|e] w1]; cbn [snd] in *; [by apply Hf | exact Hm].
Qed.

Lemma maintains_try_catch {A} (body : M A) (handler : Exn -> M A) :
  maintains P body -> (forall error, maintains P (handler error)) ->
  maintains P (try_catch body handler).
Proof.
  intros Hm Hh w Hw. rewrite try_catch_unfold. specialize (Hm w Hw).
  destruct (body w) as [[a|e] w1]; cbn [snd] in *; [exact Hm | by apply Hh].
Qed.

Lemma maintains_modify (f : World -> World) :
  (forall w, P w -> P (f w)) -> maintains P (modify f).
Proof. intros Hf w Hw. by apply Hf. Qed.

End Maintained.

Create HintDb maintained.

#[local] Hint Resolve maintains_mret maintains_throw maintains_lift maintains_this :
  maintained.

(** One step through the structure of a handler. *)
Ltac maintained_step :=
  first
    [ apply maintains_bind
    | apply maintains_try_catch
    | match goal with
      | |- maintains _ (match ?x with _ => _ end) => destruct x
      | |- maintains _ (let _ := _ in _) => cbv zeta
      | |- forall _, _ => intro
      end
    | solve [eauto with maintained] ].

Ltac maintained := repeat maintained_step.

Section ServiceState.

Context (P : World -> Prop) (HP : service_state P).

Lemma with_calls_state (w : World) (l : list Call) : P w -> P (with_calls l w).
Proof.
  intros Hw. pose proof (HP w (res w) (clock w) l Hw) as H. by destruct w.
Qed.

Lemma with_clock_state (w : World) (c : list Z) : P w -> P (with_clock c w).
Proof.
  intros Hw. pose proof (HP w (res w) c (calls w) Hw) as H. by destruct w.
Qed.

Lemma with_res_state (w : World) (r : option Response) : P w -> P (with_res r w).
Proof.
  intros Hw. pose proof (HP w r (clock w) (calls w) Hw) as H. by destruct w.
Qed.

Lemma maintains_log (c : Call) : maintains P (log c).
Proof. apply maintains_modify. intros w. apply with_calls_state. Qed.

Lemma maintains_Date_now : maintains P Date_now.
Proof.
  intros w Hw. unfold Date_now. destruct (clock w); [exact Hw|].
  by apply with_clock_state.
Qed.

Lemma maintains_res_status_json (code : nat) (b : Body) :
  maintains P (res_status_json code b).
Proof.
  intros w Hw. unfold res_status_json. destruct (res w); [exact Hw|].
  by apply with_res_state.
Qed.

End ServiceState.

(** *** The class list *)

Lemma classes_intact_state : service_state classes_intact.
Proof. intros w r c l Hw. exact Hw. Qed.

Lemma classes_intact_engine (e : tf.Engine) (w : World) :
  classes_intact w -> classes_intact (with_engine e w).
Proof. intros Hw. exact Hw. Qed.

Lemma classes_intact_alloc (t : tf.Tensor) : maintains classes_intact (alloc t).
Proof. intros w Hw. exact Hw. Qed.

Lemma classes_intact_read (h : nat) : maintains classes_intact (read h).
Proof. intros w Hw. unfold read. by destruct (_ !! h). Qed.

Lemma classes_intact_dispose (h : nat) : maintains classes_intact (dispose h).
Proof. intros w Hw. exact Hw. Qed.

Lemma classes_intact_array_elements (a : nat) :
  maintains classes_intact (array_elements a).
Proof. intros w Hw. exact Hw. Qed.

(** *** The handles of the engine *)

Lemma engine_ok_state : service_state engine_ok.
Proof. intros w r c l Hw. exact Hw. Qed.

Lemma engine_ok_alloc (t : tf.Tensor) : maintains engine_ok (alloc t).
Proof.
  intros w Hw h. unfold alloc. cbn [snd engine with_engine tf.live tf.nextId].
  rewrite lookup_insert. case_decide; [lia|].
  intros Hh. apply Hw in Hh. lia.
Qed.

Lemma engine_ok_read (h : nat) : maintains engine_ok (read h).
Proof. intros w Hw. unfold read. by destruct (_ !! h). Qed.

Lemma engine_ok_dispose (h : nat) : maintains engine_ok (dispose h).
Proof.
  intros w Hw h'. unfold dispose, modify.
  cbn [snd engine with_engine tf.live tf.nextId].
  rewrite lookup_delete. case_decide; [by intros [? ?]|]. apply Hw.
Qed.

Lemma engine_ok_array_elements (a : nat) : maintains engine_ok (array_elements a).
Proof. intros w Hw. exact Hw. Qed.

#[local] Hint Resolve
  classes_intact_alloc classes_intact_read classes_intact_dispose
  classes_intact_array_elements
  engine_ok_alloc engine_ok_read engine_ok_dispose engine_ok_array_elements :
  maintained.

#[local] Hint Extern 1 (maintains classes_intact (log _)) =>
  apply (maintains_log _ classes_intact_state) : maintained.
#[local] Hint Extern 1 (maintains classes_intact Date_now) =>
  apply (maintains_Date_now _ classes_intact_state) : maintained.
#[local] Hint Extern 1 (maintains classes_intact (res_status_json _ _)) =>
  apply (maintains_res_status_json _ classes_intact_state) : maintained.
#[local] Hint Extern 1 (maintains classes_intact (res_json _)) =>
  apply (maintains_res_status_json _ classes_intact_state) : maintained.
#[local] Hint Extern 1 (maintains engine_ok (log _)) =>
  apply (maintains_log _ engine_ok_state) : maintained.
#[local] Hint Extern 1 (maintains engine_ok Date_now) =>
  apply (maintains_Date_now _ engine_ok_state) : maintained.
#[local] Hint Extern 1 (maintains engine_ok (res_status_json _ _)) =>
  apply (maintains_res_status_json _ engine_ok_state) : maintained.
#[local] Hint Extern 1 (maintains engine_ok (res_json _)) =>
  apply (maintains_res_status_json _ engine_ok_state) : maintained.

Section Services.

Context (P : World -> Prop).
Context (P_log : forall c, maintains P (log c)).
Context (P_now : maintains P Date_now).
Context (P_send : forall code b, maintains P (res_status_json code b)).
Context (P_alloc : forall t, maintains P (alloc t)).
Context (P_read : forall h, maintains P (read h)).
Context (P_dispose : forall h, maintains P (dispose h)).
Context (P_elements : forall a, maintains P (array_elements a)).

#[local] Hint Resolve P_log P_now P_send P_alloc P_read P_dispose P_elements : maintained.

Lemma maintains_run_kernel (ext : Externals) (k : tf.Kernel)
    (f : tf.Tensor -> Exn + tf.Tensor) (h : nat) :
  maintains P (run_kernel ext k f h).
Proof. unfold run_kernel. maintained. Qed.

Lemma maintains_decodeImage (ext : Externals) (contents : Buffer) :
  maintains P (decodeImage ext contents).
Proof. unfold decodeImage. maintained. Qed.

#[local] Hint Resolve maintains_run_kernel maintains_decodeImage : maintained.

Lemma maintains_validateImage (ext : Externals) (imageBuffer : Buffer) :
  maintains P (validateImage ext imageBuffer).
Proof. unfold validateImage. maintained. Qed.

Lemma maintains_preprocessImage (ext : Externals) (imageBuffer : Buffer) :
  maintains P (preprocessImage ext imageBuffer).
Proof. unfold preprocessImage. maintained. Qed.

Lemma maintains_predict (ext : Externals) (preprocessedImage : nat) :
  maintains P (predict ext preprocessedImage).
Proof. unfold predict, data. maintained. Qed.

Lemma maintains_isModelLoaded : maintains P isModelLoaded.
Proof. unfold isModelLoaded. maintained. Qed.

#[local] Hint Resolve maintains_validateImage maintains_preprocessImage
  maintains_predict maintains_isModelLoaded : maintained.

Lemma maintains_classifyImage (ext : Externals) (req : Request) :
  maintains P (classifyImage ext req).
Proof. unfold classifyImage, res_json. maintained. Qed.

End Services.

(** Handling a request leaves the class list of the service as it is. *)
Lemma classifyImage_classes_intact (ext : Externals) (req : Request) :
  maintains classes_intact (classifyImage ext req).
Proof. apply maintains_classifyImage; eauto with maintained. Qed.

(** Handling a request keeps the handles of the live tensors below the
    next one. *)
Lemma classifyImage_engine_ok (ext : Externals) (req : Request) :
  maintains engine_ok (classifyImage ext req).
Proof. apply maintains_classifyImage; eauto with maintained. Qed.

Lemma loadModel_classes_intact (ext : Externals) :
  maintains classes_intact (loadModel ext).
Proof.
  intros w Hw. unfold loadModel. munfold.
  destruct (loadGraphModel ext _); exact Hw.
Qed.

Lemma new_array_classes_intact (xs : list string) :
  maintains classes_intact (new_array xs).
Proof.
  intros w Hw. unfold classes_intact in *. unfold new_array.
  cbn [snd heap with_heap modelService].
  rewrite lookup_insert_ne; [exact Hw|].
  intros E. apply (is_fresh (dom (heap w))). rewrite E.
  apply elem_of_dom. by rewrite Hw.
Qed.

Lemma getClasses_classes_intact : maintains classes_intact getClasses.
Proof.
  unfold getClasses. maintained. apply new_array_classes_intact.
Qed.

(** From the start of the process on, through the loading of the model and
    any number of requests, the class list holds the ten names and the
    handles of the engine are in order. *)
Lemma serving_invariant (ext : Externals) (ticks : list Z) (reqs : list Request) :
  let w := foldl (fun w req => snd (classifyImage ext req (with_res None w)))
             (snd (startServer ext (boot ticks))) reqs in
  classes_intact w /\ engine_ok w.
Proof.
  cbv zeta. induction reqs as [|req reqs IH] using rev_ind.
  - split.
    + apply loadModel_classes_intact, boot_classes_intact.
    + unfold startServer, loadModel. munfold.
      destruct (loadGraphModel ext _); intros h [t Ht]; discriminate.
  - rewrite foldl_app. cbn [foldl]. destruct IH as [Hc He]. split.
    + apply classifyImage_classes_intact. exact Hc.
    + apply classifyImage_engine_ok. exact He.
Qed.

(** * More properties of the services *)

(** ** What the services leave alone *)


Lemma unchanged_log {B} (part : World -> B) (b : B) (c : Call) :
  (forall w l, part (with_calls l w) = part w) ->
  maintains (fun w => part w = b) (log c).
Proof. intros Hpart w Hw. unfold log, modify. cbn [snd]. by rewrite Hpart. Qed.

Lemma unchanged_alloc {B} (part : World -> B) (b : B) (t : tf.Tensor) :
  (forall w e, part (with_engine e w) = part w) ->
  maintains (fun w => part w = b) (alloc t).
Proof. intros Hpart w Hw. unfold alloc. cbn [snd]. by rewrite Hpart. Qed.

Lemma unchanged_read {B} (part : World -> B) (b : B) (h : nat) :
  maintains (fun w => part w = b) (read h).
Proof. intros w Hw. unfold read. by destruct (_ !! h). Qed.

Lemma unchanged_dispose {B} (part : World -> B) (b : B) (h : nat) :
  (forall w e, part (with_engine e w) = part w) ->
  maintains (fun w => part w = b) (dispose h).
Proof. intros Hpart w Hw. unfold dispose, modify. cbn [snd]. by rewrite Hpart. Qed.

Lemma unchanged_array_elements {B} (part : World -> B) (b : B) (a : nat) :
  maintains (fun w => part w = b) (array_elements a).
Proof. intros w Hw. exact Hw. Qed.

(** validateImage changes nothing but the call log. *)
Lemma validateImage_frame (ext : Externals) (imageBuffer : Buffer) (w : World) :
  engine (snd (validateImage ext imageBuffer w)) = engine w
  /\ service_part (snd (validateImage ext imageBuffer w)) = service_part w.
Proof.
  split.
  - apply (maintains_validateImage (fun w' => engine w' = engine w));
      [intros c; by apply unchanged_log | reflexivity].
  - apply (maintains_validateImage (fun w' => service_part w' = service_part w));
      [intros c; by apply unchanged_log | reflexivity].
Qed.

(** preprocessImage changes nothing but the engine and the call log. *)
Lemma preprocessImage_frame (ext : Externals) (imageBuffer : Buffer) (w : World) :
  service_part (snd (preprocessImage ext imageBuffer w)) = service_part w.
Proof.
  apply (maintains_preprocessImage (fun w' => service_part w' = service_part w));
    [intros c; by apply unchanged_log | intros t; by apply unchanged_alloc
    | intros h; apply unchanged_read | intros h; by apply unchanged_dispose
    | reflexivity].
Qed.

(** predict changes nothing but the engine and the call log. *)
Lemma predict_frame (ext : Externals) (preprocessedImage : nat) (w : World) :
  service_part (snd (predict ext preprocessedImage w)) = service_part w.
Proof.
  apply (maintains_predict (fun w' => service_part w' = service_part w));
    [intros c; by apply unchanged_log | intros t; by apply unchanged_alloc
    | intros h; apply unchanged_read | intros h; by apply unchanged_dispose
    | intros a; apply unchanged_array_elements | reflexivity].
Qed.

Lemma Date_now_frame (w : World) :
  engine (snd (Date_now w)) = engine w
  /\ heap (snd (Date_now w)) = heap w
  /\ modelService (snd (Date_now w)) = modelService w
  /\ res (snd (Date_now w)) = res w
  /\ calls (snd (Date_now w)) = calls w.
Proof. unfold Date_now. by destruct (clock w). Qed.

(** *** The model stays loaded *)

Lemma model_loaded_state : service_state model_loaded.
Proof. intros w r c l Hw. exact Hw. Qed.

Lemma classifyImage_model_loaded (ext : Externals) (req : Request) :
  maintains model_loaded (classifyImage ext req).
Proof.
  apply maintains_classifyImage.
  - intros c. apply (maintains_log _ model_loaded_state).
  - apply (maintains_Date_now _ model_loaded_state).
  - intros c b. apply (maintains_res_status_json _ model_loaded_state).
  - intros t w Hw. exact Hw.
  - intros h w Hw. unfold read. by destruct (_ !! h).
  - intros h w Hw. exact Hw.
  - intros a w Hw. exact Hw.
Qed.

(** ** startServer *)


(** What startServer leaves when the server listens. *)
Lemma startServer_listening (ext : Externals) (w w' : World) :
  startServer_outcome ext w = (Listening, w') ->
  model_loaded w'
  /\ classes (modelService w') = classes (modelService w)
  /\ heap w' = heap w /\ engine w' = engine w.
Proof.
  unfold startServer_outcome, startServer, loadModel. munfold.
  destruct (loadGraphModel ext _) as [e|m]; cbn; [discriminate|].
  intros [= <-]. cbn. repeat split. unfold model_loaded. cbn. eauto.
Qed.

(** X2: once the server listens, whatever requests it handles, the model
    stays loaded, the class list holds the ten names, and the handles of the
    live tensors stay below the next handle. *)
Theorem listening_invariant (ext : Externals) (ticks : list Z) (w0 : World)
    (reqs : list Request) :
  startServer_outcome ext (boot ticks) = (Listening, w0) ->
  let w := foldl (fun w req => snd (classifyImage ext req (with_res None w))) w0 reqs in
  model_loaded w /\ classes_intact w /\ engine_ok w.
Proof.
  intros Hstart. cbv zeta.
  destruct (startServer_listening ext _ _ Hstart) as (Hm & Hclasses & Hheap & Hengine).
  induction reqs as [|req reqs IH] using rev_ind.
  - cbn [foldl]. split; [|split].
    + exact Hm.
    + unfold classes_intact. rewrite Hclasses, Hheap. apply boot_classes_intact.
    + intros h. rewrite Hengine. intros [t Ht]. discriminate.
  - rewrite foldl_app. cbn [foldl]. destruct IH as (Hl & Hc & He).
    split; [|split].
    + by apply classifyImage_model_loaded.
    + by apply classifyImage_classes_intact.
    + by apply classifyImage_engine_ok.
Qed.

Lemma sample_listening (m : GraphModel) (ticks : list Z) :
  startServer_outcome (Sample.libraries Sample.jpeg500x400 Sample.picture m) (boot ticks)
  = (Listening, Sample.serving m ticks).
Proof. reflexivity. Defined.

Lemma listening_invariant_witness :
  let ext := Sample.libraries Sample.jpeg500x400 Sample.picture
               (Sample.constant_model Sample.scores) in
  let w := foldl (fun w req => snd (classifyImage ext req (with_res None w)))
             (Sample.serving (Sample.constant_model Sample.scores) Sample.ticks)
             [{| file := Some Sample.upload |}; {| file := None |}] in
  model_loaded w /\ classes_intact w /\ engine_ok w.
Proof.
  exact (listening_invariant _ Sample.ticks _
           [{| file := Some Sample.upload |}; {| file := None |}]
           (sample_listening (Sample.constant_model Sample.scores) Sample.ticks)).
Defined.

(** ** predict: the engine, and scores that are missing or not numbers *)

(** What predict returns or throws when the loaded model answers with
    [v], whatever the class list holds. *)
Lemma predict_outcome (ext : Externals) (w : World) (h : nat) (v : list JS.num) :
  answers ext w h v ->
  let names := default [] (heap w !! classes (modelService w)) in
  let index := JS.indexOf v (JS.Math_max v) in
  fst (predict ext h w) =
    match JS.get v index with
    | Some confidence =>
        Return {| predictedClass := JS.get names index;
                  confidence := JS.Number (JS.toFixed confidence 4);
                  confidencePercentage := JS.toFixed (JS.mul confidence (JS.Fin 100)) 2;
                  allPredictions := Array_sort byProbability (classResults_of names v) |}
    | None =>
        Throw (new_Error "Prediction failed: TypeError: Cannot read properties of undefined (reading 'toFixed')")
    end.
Proof.
  intros (m & t & out & Hmodel & Hfault & Hlive & Hrun & Hv). cbv zeta.
  unfold predict, run_kernel, data, read, alloc, dispose, array_elements. munfold.
  simpl. rewrite Hmodel, Hfault. munfold. simpl. rewrite Hlive, Hrun. simpl.
  rewrite lookup_insert_eq. simpl. rewrite Hv.
  destruct (JS.get v (JS.indexOf v (JS.Math_max v))); reflexivity.
Qed.

(** Whatever its outcome, predict leaves the same tensors live. *)
Lemma predict_engine (ext : Externals) (preprocessedImage : nat) (w : World) :
  engine_ok w ->
  tf.live (engine (snd (predict ext preprocessedImage w))) = tf.live (engine w).
Proof.
  intros Hok.
  assert (tf.live (engine w) !! tf.nextId (engine w) = None) as Hfresh.
  { destruct (tf.live (engine w) !! tf.nextId (engine w)) eqn:E; [|reflexivity].
    assert (tf.nextId (engine w) < tf.nextId (engine w))%nat by (apply Hok; eauto). lia. }
  unfold predict, run_kernel, data, read, alloc, dispose, array_elements.
  munfold. cbn [modelService with_calls engine].
  destruct (model (modelService w)) as [m|]; [|reflexivity].
  destruct (kernel_fault ext tf.Execute); [reflexivity|].
  cbn [engine with_calls].
  destruct (tf.live (engine w) !! preprocessedImage) as [t|]; [|reflexivity].
  cbn [lift]. destruct (execute m t) as [e|out]; [reflexivity|].
  munfold. cbn [engine with_engine with_calls tf.live tf.nextId].
  rewrite lookup_insert_eq. cbn [heap with_engine with_calls].
  destruct (JS.get (tf.values out) _);
    cbn [snd engine with_engine tf.live]; by apply delete_insert_id.
Qed.

(** X3: whatever its outcome, predict leaves the tensors of the engine as
    they were: the tensor the model made is disposed of, the tensor given is
    not; and the handles of the live tensors stay below the next handle. *)
Theorem predict_live_unchanged (ext : Externals) (preprocessedImage : nat) (w : World) :
  engine_ok w ->
  tf.live (engine (snd (predict ext preprocessedImage w))) = tf.live (engine w)
  /\ engine_ok (snd (predict ext preprocessedImage w)).
Proof.
  intros Hok. split; [by apply predict_engine|].
  apply maintains_predict; [| | | | |exact Hok].
  - intros c. apply (maintains_log _ engine_ok_state).
  - apply engine_ok_alloc.
  - apply engine_ok_read.
  - apply engine_ok_dispose.
  - apply engine_ok_array_elements.
Qed.

Lemma sample_preprocessed_engine_ok (m : GraphModel) (ticks : list Z) :
  engine_ok (Sample.preprocessed m ticks).
Proof.
  unfold Sample.preprocessed.
  apply maintains_preprocessImage.
  - intros c. apply (maintains_log _ engine_ok_state).
  - apply engine_ok_alloc.
  - apply engine_ok_read.
  - apply engine_ok_dispose.
  - intros h [t Ht]. discriminate.
Defined.

Lemma predict_live_unchanged_witness :
  tf.live (engine (snd (predict (Sample.libraries Sample.jpeg500x400 Sample.picture
                                   (Sample.constant_model Sample.scores)) 4
                          (Sample.preprocessed (Sample.constant_model Sample.scores) []))))
  = tf.live (engine (Sample.preprocessed (Sample.constant_model Sample.scores) []))
  /\ engine_ok (snd (predict (Sample.libraries Sample.jpeg500x400 Sample.picture
                                (Sample.constant_model Sample.scores)) 4
                       (Sample.preprocessed (Sample.constant_model Sample.scores) []))).
Proof.
  exact (predict_live_unchanged _ 4%nat _
           (sample_preprocessed_engine_ok (Sample.constant_model Sample.scores) [])).
Defined.

Lemma max2_NaN_r x : JS.max2 x JS.NaN = JS.NaN.
Proof. by destruct x. Qed.

Lemma Math_max_NaN (v : list JS.num) : JS.NaN ∈ v -> JS.Math_max v = JS.NaN.
Proof.
  unfold JS.Math_max. generalize JS.NegInf.
  induction v as [|x v IH]; intros acc Hin; [by apply elem_of_nil in Hin|].
  apply elem_of_cons in Hin as [<-|Hin]; simpl.
  - rewrite max2_NaN_r. apply foldl_max2_NaN.
  - by apply IH.
Qed.

(** Scores without a NaN, and not none, have a maximum. *)
Lemma NaN_free_has_max (v : list JS.num) :
  v <> [] -> JS.NaN ∉ v ->
  exists i x, v !! i = Some x /\ forall j y, v !! j = Some y -> JS.geb x y = true.
Proof.
  intros Hne Hfree.
  assert (JS.Math_max v <> JS.NaN) as Hm.
  { destruct v as [|x0 v]; [done|]. eapply Math_max_NaN_free; [reflexivity|].
    intros j y Hy ->. apply Hfree. apply list_elem_of_lookup. eauto. }
  destruct (foldl_max2_spec v _ Hm) as (_ & Hall & _ & Hin).
  rewrite Forall_forall in Hall.
  assert (JS.Math_max v ∈ v) as Hmem.
  { destruct Hin as [E|Hin]; [|exact Hin].
    destruct v as [|x0 v]; [done|].
    assert (JS.geb (JS.Math_max (x0 :: v)) x0 = true) as Hx0
      by (apply Hall; constructor).
    unfold JS.Math_max in *. rewrite E in Hx0 |- *.
    destruct x0; try discriminate. constructor. }
  apply list_elem_of_lookup in Hmem as [i Hi].
  exists i, (JS.Math_max v). split; [exact Hi|].
  intros j y Hj. apply Hall. apply list_elem_of_lookup. eauto.
Qed.

Lemma NaN_in_or_not (v : list JS.num) : JS.NaN ∈ v \/ JS.NaN ∉ v.
Proof.
  induction v as [|x v [IH|IH]].
  - right. apply not_elem_of_nil.
  - left. by constructor.
  - destruct x; [left; constructor|right..];
      (intros Hin; apply elem_of_cons in Hin as [?|?]; [discriminate | by apply IH]).
Qed.

(** X4: predict throws the TypeError of [confidence.toFixed] exactly when
    the scores of the model are none at all or have a NaN among them; on all
    other scores it returns. *)
Theorem predict_throws_iff_NaN (ext : Externals) (w : World) (h : nat) (v : list JS.num) :
  answers ext w h v ->
  (fst (predict ext h w)
   = Throw (new_Error "Prediction failed: TypeError: Cannot read properties of undefined (reading 'toFixed')")
   <-> v = [] \/ JS.NaN ∈ v)
  /\ ((exists r, fst (predict ext h w) = Return r) <-> v <> [] /\ JS.NaN ∉ v).
Proof.
  intros Hans. pose proof (predict_outcome ext w h v Hans) as Hout. cbv zeta in Hout.
  assert ((v = [] \/ JS.NaN ∈ v) \/ (v <> [] /\ JS.NaN ∉ v)) as [Hbad|Hgood].
  { destruct v as [|x v]; [by left; left|].
    destruct (NaN_in_or_not (x :: v)); [left; by right | right; by split]. }
  - assert (JS.get v (JS.indexOf v (JS.Math_max v)) = None) as Hget.
    { destruct Hbad as [->|Hnan]; [reflexivity|].
      rewrite (Math_max_NaN v Hnan). unfold JS.indexOf.
      rewrite indexOf_from_none; [reflexivity|].
      apply Forall_forall. intros y _. apply eqb_NaN_r. }
    rewrite Hget in Hout. rewrite Hout. split.
    + split; [by intros _ | reflexivity].
    + split; [intros [r [=]] | intros [Hne Hfree]; tauto].
  - destruct Hgood as [Hne Hfree].
    destruct (NaN_free_has_max v Hne Hfree) as (i & x & Hi & Hmax).
    destruct (first_max_exists v i x Hi Hmax) as [i0 Hfirst].
    rewrite (indexOf_first_max v i0 Hfirst), get_of_nat in Hout.
    destruct Hfirst as (x0 & Hi0 & _). rewrite Hi0 in Hout. rewrite Hout.
    split.
    + split; [intros [=] | intros Hbad; tauto].
    + split; [by intros _ | intros _; eauto].
Qed.

Lemma predict_throws_iff_NaN_witness :
  let ext := Sample.libraries Sample.jpeg500x400 Sample.picture
               (Sample.constant_model (JS.NaN :: Sample.scores)) in
  let w := Sample.preprocessed (Sample.constant_model (JS.NaN :: Sample.scores)) [] in
  (fst (predict ext 4 w)
   = Throw (new_Error "Prediction failed: TypeError: Cannot read properties of undefined (reading 'toFixed')")
   <-> JS.NaN :: Sample.scores = [] \/ JS.NaN ∈ JS.NaN :: Sample.scores)
  /\ ((exists r, fst (predict ext 4 w) = Return r)
      <-> JS.NaN :: Sample.scores <> [] /\ JS.NaN ∉ JS.NaN :: Sample.scores).
Proof.
  exact (predict_throws_iff_NaN _ _ 4%nat _ (sample_answers (JS.NaN :: Sample.scores) [])).
Defined.

(** What predict returns when the first maximum of the scores is at [i],
    whatever the number of scores and whatever the class list holds. *)
Lemma predict_outcome_first_max (ext : Externals) (w : World) (h : nat)
    (v : list JS.num) (i : nat) (x : JS.num) :
  answers ext w h v ->
  first_max v i ->
  v !! i = Some x ->
  let names := default [] (heap w !! classes (modelService w)) in
  fst (predict ext h w) =
    Return {| predictedClass := names !! i;
              confidence := JS.Number (JS.toFixed x 4);
              confidencePercentage := JS.toFixed (JS.mul x (JS.Fin 100)) 2;
              allPredictions := Array_sort byProbability (classResults_of names v) |}.
Proof.
  intros Hans Hfirst Hi. cbv zeta.
  rewrite (predict_outcome ext w h v Hans). cbv zeta.
  rewrite (indexOf_first_max v i Hfirst), !get_of_nat, Hi. reflexivity.
Qed.

(** X5: with fewer scores than classes (and a maximum among them) predict
    still returns one entry per class; the entries of the classes without a
    score have no probability and the percentage "NaN". *)
Theorem predict_missing_scores (ext : Externals) (w : World) (h : nat)
    (v : list JS.num) :
  answers ext w h v ->
  classes_intact w ->
  v <> [] -> JS.NaN ∉ v ->
  (length v < 10)%nat ->
  exists r,
    fst (predict ext h w) = Return r
    /\ length (allPredictions r) = 10%nat
    /\ forall k name,
         (length v <= k)%nat -> CLASSES !! k = Some name ->
         {| class := name; probability := None; percentage := "NaN" |}
         ∈ allPredictions r.
Proof.
  intros Hans Hclasses Hne Hfree Hlen.
  destruct (NaN_free_has_max v Hne Hfree) as (i & x & Hi & Hmax).
  destruct (first_max_exists v i x Hi Hmax) as [i0 Hfirst].
  pose proof Hfirst as (x0 & Hi0 & _).
  pose proof (predict_outcome_first_max ext w h v i0 x0 Hans Hfirst Hi0) as Hout.
  cbv zeta in Hout. unfold classes_intact in Hclasses. rewrite Hclasses in Hout.
  cbn [default from_option id] in Hout.
  eexists. split; [exact Hout|]. cbn [allPredictions]. split.
  - by rewrite Array_sort_length, classResults_length.
  - intros k name Hk Hname. rewrite Array_sort_perm.
    apply list_elem_of_lookup. exists k.
    rewrite (classResults_lookup CLASSES v k name Hname).
    by rewrite (lookup_ge_None_2 v k Hk).
Qed.

Lemma predict_missing_scores_witness :
  let v := JS.Fin <$> [1 # 10; 6 # 10; 3 # 10]%Q in
  exists r,
    fst (predict (Sample.libraries Sample.jpeg500x400 Sample.picture
                    (Sample.constant_model v)) 4
           (Sample.preprocessed (Sample.constant_model v) [])) = Return r
    /\ length (allPredictions r) = 10%nat
    /\ forall k name,
         (length v <= k)%nat -> CLASSES !! k = Some name ->
         {| class := name; probability := None; percentage := "NaN" |}
         ∈ allPredictions r.
Proof.
  cbv zeta.
  apply (predict_missing_scores _ _ 4%nat _ (sample_answers _ [])
           (sample_classes_intact _ _)).
  - discriminate.
  - intros Hin. repeat (apply elem_of_cons in Hin as [Hin|Hin]; [discriminate|]).
    by apply elem_of_nil in Hin.
  - cbn. lia.
Defined.

(** ** Printing a number and reading it back *)

Lemma append_nil_r (s : string) : s +:+ "" = s.
Proof. induction s as [|c s IH]; [reflexivity|]. by rewrite append_cons, IH. Qed.

Lemma append_assoc (a b c : string) : (a +:+ b) +:+ c = a +:+ b +:+ c.
Proof. induction a as [|x a IH]; [reflexivity|]. by rewrite !append_cons, IH. Qed.

Lemma length_append (a b : string) :
  String.length (a +:+ b) = (String.length a + String.length b)%nat.
Proof. induction a as [|x a IH]; [reflexivity|]. rewrite append_cons. simpl. by rewrite IH. Qed.

Lemma length_zeros (k : nat) : String.length (JS.zeros k) = k.
Proof.
  induction k as [|k IH]; [reflexivity|].
  cbn [JS.zeros]. rewrite length_append. simpl. by rewrite IH.
Qed.

(** A string cut in two at [n]. *)
Lemma substring_split (s : string) : forall n,
  (n <= String.length s)%nat ->
  substring 0 n s +:+ substring n (String.length s - n) s = s
  /\ String.length (substring 0 n s) = n.
Proof.
  induction s as [|c s IH]; intros n Hn.
  - simpl in Hn. assert (n = 0%nat) as -> by lia. by split.
  - destruct n as [|n].
    + cbn [substring String.length Nat.sub]. rewrite append_nil. split; [|reflexivity].
      clear. f_equal. induction s as [|x s IH]; [reflexivity|]. simpl. by f_equal.
    + simpl in Hn. destruct (IH n ltac:(lia)) as [Hcut Hlen].
      cbn [substring String.length Nat.sub]. rewrite append_cons, Hcut.
      split; [reflexivity | by f_equal].
Qed.


Lemma writes_nil : writes "" 0 0.
Proof. split; [reflexivity|]. intros acc. simpl. f_equal. lia. Qed.

Lemma digit_of_char (x : N) :
  (x < 10)%N -> JS.digit_of (pretty_N_char x) = Some (Z.of_N x).
Proof.
  intros Hx.
  assert (x = 0 \/ x = 1 \/ x = 2 \/ x = 3 \/ x = 4 \/ x = 5 \/ x = 6 \/ x = 7
          \/ x = 8 \/ x = 9)%N as H by lia.
  repeat (destruct H as [->|H]; [reflexivity|]). by subst.
Qed.

Lemma writes_cons (c : ascii) (d : Z) (s : string) (len : nat) (val : Z) :
  JS.digit_of c = Some d ->
  writes s len val ->
  writes (String c s) (S len) (d * 10 ^ Z.of_nat len + val).
Proof.
  intros Hc [Hlen Hval]. split; [simpl; by rewrite Hlen|].
  intros acc. cbn [digits_value]. rewrite Hc, Hval. f_equal.
  rewrite Nat2Z.inj_succ, Z.pow_succ_r by lia. lia.
Qed.

Lemma writes_pretty_go (x : N) : forall s len val,
  writes s len val ->
  exists len', writes (pretty_N_go x s) len' (Z.of_N x * 10 ^ Z.of_nat len + val).
Proof.
  induction (N.lt_wf_0 x) as [x _ IH]. intros s len val Hs.
  destruct (decide (x = 0%N)) as [->|Hx].
  - rewrite pretty_N_go_0. exists len. by rewrite Z.mul_0_l, Z.add_0_l.
  - rewrite pretty_N_go_step by lia.
    destruct (IH (x `div` 10)%N ltac:(apply N.div_lt; lia) _ _ _
                (writes_cons _ _ s len val
                   (digit_of_char (x `mod` 10)%N ltac:(apply N.mod_lt; lia)) Hs))
      as [len' Hw].
    exists len'.
    replace (Z.of_N x * 10 ^ Z.of_nat len + val)
      with (Z.of_N (x `div` 10) * 10 ^ Z.of_nat (S len)
            + (Z.of_N (x `mod` 10) * 10 ^ Z.of_nat len + val)); [exact Hw|].
    rewrite Nat2Z.inj_succ, Z.pow_succ_r by lia.
    rewrite (N.div_mod x 10) at 3 by lia. lia.
Qed.

Lemma writes_pretty (n : N) : exists len, (0 < len)%nat /\ writes (pretty n) len (Z.of_N n).
Proof.
  unfold pretty, pretty_N. case_decide as Hn.
  - subst. exists 1%nat. split; [lia|]. split; [reflexivity|].
    intros acc. simpl. first [reflexivity | f_equal; lia].
  - destruct (writes_pretty_go n "" 0 0 writes_nil) as [len Hw].
    rewrite Z.add_0_r, Z.pow_0_r, Z.mul_1_r in Hw.
    exists len. split; [|exact Hw].
    destruct len; [|lia]. destruct Hw as [Hlen Hval].
    specialize (Hval 0). destruct (pretty_N_go n ""); [|discriminate].
    simpl in Hval. injection Hval. lia.
Qed.

Lemma writes_zeros (k : nat) (s : string) (len : nat) (val : Z) :
  writes s len val -> writes (JS.zeros k +:+ s) (k + len) val.
Proof.
  intros Hs. induction k as [|k IH]; [exact Hs|].
  cbn [JS.zeros]. rewrite append_assoc.
  change ("0" +:+ JS.zeros k +:+ s) with (String "0" (JS.zeros k +:+ s)).
  pose proof (writes_cons "0" 0 _ _ _ eq_refl IH) as H.
  by rewrite Z.mul_0_l, Z.add_0_l in H.
Qed.

Lemma writes_split (a b : string) (len : nat) (val : Z) :
  writes (a +:+ b) len val ->
  exists va,
    digits_value a 0 = Some va /\ digits_value b va = Some val.
Proof.
  intros [_ Hval]. specialize (Hval 0). rewrite Z.mul_0_l, Z.add_0_l in Hval.
  revert Hval. generalize 0. induction a as [|c a IH]; intros acc Hval.
  - exists acc. by split.
  - rewrite append_cons in Hval. cbn [digits_value] in *.
    destruct (JS.digit_of c); [by apply IH | discriminate].
Qed.

(** Reading digits: the scan goes through a string of digits. *)
Lemma read_digits_through (s rest : string) : forall acc seen val,
  digits_value s acc = Some val ->
  JS.read_digits (s +:+ rest) acc seen
  = JS.read_digits rest val (seen + String.length s).
Proof.
  induction s as [|c s IH]; intros acc seen val Hval.
  - injection Hval as <-. rewrite append_nil. simpl. by rewrite Nat.add_0_r.
  - rewrite append_cons. cbn [JS.read_digits digits_value String.length] in *.
    destruct (JS.digit_of c); [|discriminate].
    rewrite (IH _ _ _ Hval). f_equal. lia.
Qed.

(** What [Number] reads from digits, a point, and digits. *)
Lemma read_decimal_point (a b : string) (va val : Z) :
  a <> "" ->
  digits_value a 0 = Some va ->
  digits_value b va = Some val ->
  JS.read_decimal (a +:+ "." +:+ b)
  = Some (val # Z.to_pos (10 ^ Z.of_nat (String.length b))).
Proof.
  intros Ha Hva Hval. unfold JS.read_decimal.
  rewrite (read_digits_through a _ 0 0 va Hva).
  change ("." +:+ b) with (String "." b). cbn [JS.read_digits JS.digit_of].
  change (JS.digit_of ".") with (@None Z). cbv beta iota.
  rewrite <- (append_nil_r b) at 1.
  rewrite (read_digits_through b "" va 0 val Hval).
  cbn [JS.read_digits]. destruct a as [|c a]; [done|]. reflexivity.
Qed.

Lemma read_decimal_digits (a : string) (va : Z) :
  a <> "" ->
  digits_value a 0 = Some va ->
  JS.read_decimal a = Some (inject_Z va).
Proof.
  intros Ha Hva. unfold JS.read_decimal.
  rewrite <- (append_nil_r a) at 1.
  rewrite (read_digits_through a "" 0 0 va Hva).
  cbn [JS.read_digits]. destruct a as [|c a]; [done|]. reflexivity.
Qed.

Lemma Number_digit_first (c : ascii) (d : Z) (s : string) :
  JS.digit_of c = Some d ->
  JS.Number (String c s) = from_option JS.Fin JS.NaN (JS.read_decimal (String c s))
  /\ String.eqb (String c s) "Infinity" = false.
Proof.
  intros Hc.
  destruct c as [b0 b1 b2 b3 b4 b5 b6 b7].
  destruct b0, b1, b2, b3, b4, b5, b6, b7;
    try (exfalso; vm_compute in Hc; discriminate Hc);
    split; reflexivity.
Qed.

(** What is printed for a natural number [n] with [digits] decimals starts
    with a digit and reads back as [n / 10^digits]. *)
Lemma positional_spec (digits : nat) (n : Z) :
  0 <= n ->
  exists c s d,
    JS.positional digits n = String c s
    /\ JS.digit_of c = Some d
    /\ JS.read_decimal (JS.positional digits n)
       = Some (n # Z.to_pos (10 ^ Z.of_nat digits)).
Proof.
  intros Hn. unfold JS.positional.
  destruct (writes_pretty (Z.to_N n)) as (len & Hlen & Hp).
  rewrite Z2N.id in Hp by exact Hn.
  set (p := pretty (Z.to_N n)) in *.
  pose proof (writes_zeros (S digits - String.length p) p len n Hp) as Hm.
  set (m := JS.zeros (S digits - String.length p) +:+ p) in *.
  cbv zeta.
  assert (S digits <= String.length m)%nat as Hk.
  { subst m. rewrite length_append, length_zeros. lia. }
  destruct digits as [|digits'].
  - destruct Hm as [Hml Hmv]. destruct m as [|c s]; [simpl in Hk; lia|].
    pose proof (Hmv 0) as H0. cbn [digits_value] in H0.
    destruct (JS.digit_of c) as [d|] eqn:Hc; [|discriminate].
    exists c, s, d. split; [reflexivity|]. split; [exact Hc|].
    rewrite (read_decimal_digits (String c s) n); [reflexivity | discriminate |].
    rewrite (Hmv 0). first [reflexivity | f_equal; lia].
  - set (digits := S digits') in *.
    destruct (substring_split m (String.length m - digits) ltac:(lia)) as [Hcut Hla].
    replace (String.length m - (String.length m - digits))%nat with digits in Hcut by lia.
    set (a := substring 0 (String.length m - digits) m) in *.
    set (b := substring (String.length m - digits) digits m) in *.
    assert (String.length b = digits) as Hlb.
    { pose proof (f_equal String.length Hcut) as Hl. rewrite length_append in Hl. lia. }
    rewrite <- Hcut in Hm.
    destruct (writes_split a b _ _ Hm) as (va & Hva & Hvb).
    destruct a as [|c s] eqn:Ea; [simpl in Hla; lia|].
    cbn [digits_value] in Hva.
    destruct (JS.digit_of c) as [d|] eqn:Hc; [|discriminate].
    exists c, (s +:+ "." +:+ b), d. split; [by rewrite append_cons|].
    split; [exact Hc|].
    rewrite (read_decimal_point (String c s) b va n); [by rewrite Hlb | discriminate | |exact Hvb].
    cbn [digits_value]. by rewrite Hc.
Qed.

Lemma scaled_nonneg (digits : nat) (x : Q) : (0 <= x)%Q -> 0 <= JS.scaled digits x.
Proof.
  intros Hx. unfold JS.scaled. rewrite <- (Qfloor_Z 0). apply Qfloor_resp_le.
  assert (0 < inject_Z (10 ^ Z.of_nat digits))%Q.
  { change 0%Q with (inject_Z 0). rewrite <- Zlt_Qlt. apply Z.pow_pos_nonneg; lia. }
  change (inject_Z 0) with 0%Q. nra.
Qed.

Lemma scaled_near (digits : nat) (x : Q) :
  (- (1 # 2) <= inject_Z (JS.scaled digits x) - x * inject_Z (10 ^ Z.of_nat digits)
   <= 1 # 2)%Q.
Proof.
  unfold JS.scaled.
  set (y := (x * inject_Z (10 ^ Z.of_nat digits) + (1 # 2))%Q).
  pose proof (Qfloor_le y) as Hlo. pose proof (Qlt_floor y) as Hhi.
  rewrite inject_Z_plus in Hhi. change (inject_Z 1) with 1%Q in Hhi.
  subst y. split; lra.
Qed.

Lemma Qmake_scale (n : Z) (digits : nat) :
  ((n # Z.to_pos (10 ^ Z.of_nat digits)) * inject_Z (10 ^ Z.of_nat digits)
   == inject_Z n)%Q.
Proof.
  assert (0 < 10 ^ Z.of_nat digits) as Hpos by (apply Z.pow_pos_nonneg; lia).
  unfold Qeq, Qmult, inject_Z. cbn [Qnum Qden].
  rewrite Pos.mul_1_r, Z.mul_1_r, Z2Pos.id by exact Hpos. reflexivity.
Qed.

(** What [Number(x.toFixed(digits))] makes of a finite [x]: a multiple of
    [10^-digits] no further from [x] than half of that. *)
Lemma Number_toFixed_rounds (q : Q) (digits : nat) :
  exists r,
    JS.Number (JS.toFixed (JS.Fin q) digits) = JS.Fin r
    /\ (exists n : Z, r * inject_Z (10 ^ Z.of_nat digits) == inject_Z n)%Q
    /\ (- (1 # 2) <= (r - q) * inject_Z (10 ^ Z.of_nat digits) <= 1 # 2)%Q.
Proof.
  unfold JS.toFixed, JS.sgn. destruct (Qcompare_spec q 0) as [Hq|Hq|Hq].
  - destruct (positional_spec digits (JS.scaled digits q)) as (c & s & d & Hs & Hc & Hread).
    { apply scaled_nonneg. rewrite Hq. apply Qle_refl. }
    exists (JS.scaled digits q # Z.to_pos (10 ^ Z.of_nat digits)).
    rewrite Hs in Hread |- *.
    rewrite (proj1 (Number_digit_first c d s Hc)), Hread. split; [reflexivity|].
    split; [eexists; apply Qmake_scale|].
    pose proof (scaled_near digits q). pose proof (Qmake_scale (JS.scaled digits q) digits).
    split; nra.
  - destruct (positional_spec digits (JS.scaled digits (- q)))
      as (c & s & d & Hs & Hc & Hread).
    { apply scaled_nonneg. lra. }
    exists (- (JS.scaled digits (- q) # Z.to_pos (10 ^ Z.of_nat digits)))%Q.
    rewrite Hs in Hread |- *.
    assert (JS.Number ("-" +:+ String c s)
            = from_option (fun q => JS.Fin (- q)) JS.NaN (JS.read_decimal (String c s)))
      as ->.
    { change ("-" +:+ String c s) with (String "-" (String c s)).
      unfold JS.Number.
      change (String "-" (String c s) =? "Infinity")%string with false.
      change (String "-" (String c s) =? "-Infinity")%string
        with (String c s =? "Infinity")%string.
      by rewrite (proj2 (Number_digit_first c d s Hc)). }
    rewrite Hread. split; [reflexivity|].
    split.
    { exists (- JS.scaled digits (- q)). rewrite inject_Z_opp.
      pose proof (Qmake_scale (JS.scaled digits (- q)) digits). nra. }
    pose proof (scaled_near digits (- q)).
    pose proof (Qmake_scale (JS.scaled digits (- q)) digits).
    split; nra.
  - destruct (positional_spec digits (JS.scaled digits q)) as (c & s & d & Hs & Hc & Hread).
    { apply scaled_nonneg. lra. }
    exists (JS.scaled digits q # Z.to_pos (10 ^ Z.of_nat digits)).
    rewrite Hs in Hread |- *.
    rewrite (proj1 (Number_digit_first c d s Hc)), Hread. split; [reflexivity|].
    split; [eexists; apply Qmake_scale|].
    pose proof (scaled_near digits q). pose proof (Qmake_scale (JS.scaled digits q) digits).
    split; nra.
Qed.

(** ** predict: the class, the list and the confidence *)

Lemma first_max_NaN_free (v : list JS.num) (i : nat) :
  first_max v i -> Forall (fun x => x <> JS.NaN) v.
Proof.
  intros (x & _ & Hmax & _). apply Forall_forall. intros y Hy.
  apply list_elem_of_lookup in Hy as [j Hj].
  by destruct (geb_not_NaN x y (Hmax j y Hj)).
Qed.

(** C10: when the ten scores have a maximum, predict returns.  With [i] the
    first index of the maximum and [p] the score there: the predicted class
    is the class at [i]; allPredictions holds the entries of the ten
    classes, each with the score of its class as the model gave it, sorted
    by probability, highest first; its first entry is the entry of the
    predicted class and carries [p]; and the confidence is [p] rounded to
    four decimals: a multiple of 0.0001 no further than 0.00005 from [p]
    (or [p] itself when [p] is infinite). *)
Theorem predict_consistent (ext : Externals) (w : World) (h : nat) (v : list JS.num) :
  answers ext w h v ->
  classes_intact w ->
  length v = 10%nat ->
  (exists i x, v !! i = Some x /\ forall j y, v !! j = Some y -> JS.geb x y = true) ->
  exists r w' i name top p,
    predict ext h w = (Return r, w')
    /\ first_max v i
    /\ v !! i = Some p
    /\ CLASSES !! i = Some name
    /\ predictedClass r = Some name
    /\ StronglySorted descending (allPredictions r)
    /\ allPredictions r ≡ₚ classResults_of CLASSES v
    /\ (forall c, c ∈ allPredictions r ->
          exists k, CLASSES !! k = Some (class c) /\ probability c = v !! k)
    /\ head (allPredictions r) = Some top
    /\ class top = name
    /\ probability top = Some p
    /\ match p with
       | JS.Fin q =>
           exists c,
             confidence r = JS.Fin c
             /\ (exists n : Z, c * 10000 == inject_Z n)%Q
             /\ (- (1 # 2) <= (c - q) * 10000 <= 1 # 2)%Q
       | _ => confidence r = p
       end.
Proof.
  intros Hans Hclasses Hlen (i & x & Hi & Hmax).
  destruct (first_max_exists v i x Hi Hmax) as [i0 Hfirst].
  destruct (predict_first_max ext w h v i0 Hans Hclasses Hfirst)
    as (r & w' & p & Hrun & Hi0 & Hclass & Hconf & Hall).
  destruct (lookup_lt_is_Some_2 CLASSES i0) as [name Hname].
  { apply lookup_lt_Some in Hi0. simpl. lia. }
  destruct (sorted_head_first_max v i0 name) as (top & Htop & Hcls & Hprob);
    [simpl; lia | exact Hfirst | exact Hname |].
  exists r, w', i0, name, top, p. rewrite Hall.
  split; [exact Hrun|]. split; [exact Hfirst|]. split; [exact Hi0|].
  split; [exact Hname|]. split; [by rewrite Hclass|].
  split.
  { apply classResults_sorted; [simpl; lia|]. by apply (first_max_NaN_free v i0). }
  split; [apply Array_sort_perm|].
  split.
  { intros c Hc. rewrite Array_sort_perm in Hc. by apply classResults_inv. }
  split; [exact Htop|]. split; [exact Hcls|]. split; [by rewrite Hprob|].
  rewrite Hconf. destruct p as [| |q|]; try reflexivity.
  destruct (Number_toFixed_rounds q 4) as (c & Hc & Hcn & Hcb). by exists c.
Qed.

Lemma predict_consistent_witness :
  exists r w' i name top p,
    predict (Sample.libraries Sample.jpeg500x400 Sample.picture
               (Sample.constant_model Sample.tied)) 4
      (Sample.preprocessed (Sample.constant_model Sample.tied) []) = (Return r, w')
    /\ first_max Sample.tied i
    /\ Sample.tied !! i = Some p
    /\ CLASSES !! i = Some name
    /\ predictedClass r = Some name
    /\ StronglySorted descending (allPredictions r)
    /\ allPredictions r ≡ₚ classResults_of CLASSES Sample.tied
    /\ (forall c, c ∈ allPredictions r ->
          exists k, CLASSES !! k = Some (class c) /\ probability c = Sample.tied !! k)
    /\ head (allPredictions r) = Some top
    /\ class top = name
    /\ probability top = Some p
    /\ match p with
       | JS.Fin q =>
           exists c,
             confidence r = JS.Fin c
             /\ (exists n : Z, c * 10000 == inject_Z n)%Q
             /\ (- (1 # 2) <= (c - q) * 10000 <= 1 # 2)%Q
       | _ => confidence r = p
       end.
Proof.
  apply (predict_consistent _ _ 4%nat Sample.tied (sample_answers Sample.tied [])
           (sample_classes_intact _ _) eq_refl).
  exists 5%nat, (JS.Fin (3 # 10)). split; [reflexivity|].
  intros k z Hk. unfold Sample.tied in Hk. simpl in Hk. each_index Hk.
Defined.

(** X8: when the first maximal score is a finite number [q], predict returns
    a confidence that is a multiple of 0.0001 at most 0.00005 away from [q],
    and the confidence percentage it prints reads back as a multiple of 0.01
    at most 0.005 away from [100 q]. *)
Theorem predict_confidence_rounded (ext : Externals) (w : World) (h : nat)
    (v : list JS.num) (i : nat) (q : Q) :
  answers ext w h v ->
  first_max v i ->
  v !! i = Some (JS.Fin q) ->
  exists r c p,
    fst (predict ext h w) = Return r
    /\ confidence r = JS.Fin c
    /\ (exists n : Z, c * 10000 == inject_Z n)%Q
    /\ (- (1 # 2) <= (c - q) * 10000 <= 1 # 2)%Q
    /\ JS.Number (confidencePercentage r) = JS.Fin p
    /\ (exists n : Z, p * 100 == inject_Z n)%Q
    /\ (- (1 # 2) <= (p - q * 100) * 100 <= 1 # 2)%Q.
Proof.
  intros Hans Hfirst Hi.
  pose proof (predict_outcome_first_max ext w h v i _ Hans Hfirst Hi) as Hrun.
  cbv zeta in Hrun.
  destruct (Number_toFixed_rounds q 4) as (c & Hc & Hcn & Hcb).
  destruct (Number_toFixed_rounds (q * 100) 2) as (p & Hp & Hpn & Hpb).
  eexists _, c, p. split; [exact Hrun|]. cbn [confidence confidencePercentage].
  split; [exact Hc|]. split; [exact Hcn|]. split; [exact Hcb|].
  split; [exact Hp|]. split; [exact Hpn|exact Hpb].
Qed.

Lemma predict_confidence_rounded_witness :
  exists r c p,
    fst (predict (Sample.libraries Sample.jpeg500x400 Sample.picture
                    (Sample.constant_model Sample.scores)) 4
           (Sample.preprocessed (Sample.constant_model Sample.scores) [])) = Return r
    /\ confidence r = JS.Fin c
    /\ (exists n : Z, c * 10000 == inject_Z n)%Q
    /\ (- (1 # 2) <= (c - (70 # 100)) * 10000 <= 1 # 2)%Q
    /\ JS.Number (confidencePercentage r) = JS.Fin p
    /\ (exists n : Z, p * 100 == inject_Z n)%Q
    /\ (- (1 # 2) <= (p - (70 # 100) * 100) * 100 <= 1 # 2)%Q.
Proof.
  apply (predict_confidence_rounded _ _ 4%nat Sample.scores 3%nat (70 # 100)
           (sample_answers Sample.scores []) sample_scores_max).
  reflexivity.
Defined.

(** ** predict: scores beyond the classes, and the percentages *)

(** X6: when the scores are more than the classes and their first maximum
    lies beyond the last class, predict returns a result without a
    predicted class, whose confidence is that maximum rounded to four
    decimals (the maximum itself when it is infinite), and with one entry
    per class. *)
Theorem predict_extra_scores (ext : Externals) (w : World) (h : nat)
    (v : list JS.num) (i : nat) (x : JS.num) :
  answers ext w h v ->
  classes_intact w ->
  first_max v i ->
  v !! i = Some x ->
  (10 <= i)%nat ->
  exists r,
    fst (predict ext h w) = Return r
    /\ predictedClass r = None
    /\ match x with
       | JS.Fin q =>
           exists c,
             confidence r = JS.Fin c
             /\ (exists n : Z, c * 10000 == inject_Z n)%Q
             /\ (- (1 # 2) <= (c - q) * 10000 <= 1 # 2)%Q
       | _ => confidence r = x
       end
    /\ length (allPredictions r) = 10%nat.
Proof.
  intros Hans Hclasses Hfirst Hi Hge.
  pose proof (predict_outcome_first_max ext w h v i x Hans Hfirst Hi) as Hout.
  cbv zeta in Hout. unfold classes_intact in Hclasses. rewrite Hclasses in Hout.
  cbn [default from_option id] in Hout.
  eexists. split; [exact Hout|]. cbn [predictedClass confidence allPredictions].
  split; [by apply lookup_ge_None_2|].
  split; [|by rewrite Array_sort_length, classResults_length].
  destruct x as [| |q|]; try reflexivity.
  destruct (Number_toFixed_rounds q 4) as (c & Hc & Hcn & Hcb). by exists c.
Qed.

Lemma sample_eleven_max : first_max (Sample.scores ++ [JS.Fin (9 # 10)]) 10.
Proof.
  exists (JS.Fin (9 # 10)). split; [reflexivity|]. split.
  - intros k z Hk. unfold Sample.scores in Hk. simpl in Hk. each_index Hk.
  - intros k z Hlt Hk. unfold Sample.scores in Hk. simpl in Hk.
    repeat (destruct k as [|k]; simpl in Hk; [injection Hk as <-; reflexivity|]). lia.
Defined.

Lemma predict_extra_scores_witness :
  let v := Sample.scores ++ [JS.Fin (9 # 10)] in
  exists r,
    fst (predict (Sample.libraries Sample.jpeg500x400 Sample.picture
                    (Sample.constant_model v)) 4
           (Sample.preprocessed (Sample.constant_model v) [])) = Return r
    /\ predictedClass r = None
    /\ (exists c,
          confidence r = JS.Fin c
          /\ (exists n : Z, c * 10000 == inject_Z n)%Q
          /\ (- (1 # 2) <= (c - (9 # 10)) * 10000 <= 1 # 2)%Q)
    /\ length (allPredictions r) = 10%nat.
Proof.
  cbv zeta.
  apply (predict_extra_scores _ _ 4%nat _ 10%nat (JS.Fin (9 # 10))
           (sample_answers _ []) (sample_classes_intact _ _) sample_eleven_max).
  - reflexivity.
  - lia.
Defined.

(** The percentage of an entry is printed from its own probability. *)
Lemma classResults_percentage (classNames : list string) (v : list JS.num)
    (c : ClassProbability) :
  c ∈ classResults_of classNames v ->
  percentage c = JS.toFixed (JS.mul (JS.ToNumber (probability c)) (JS.Fin 100)) 2.
Proof.
  intros Hc. apply list_elem_of_lookup in Hc as [i Hi].
  unfold classResults_of in Hi. rewrite list_lookup_imap in Hi.
  destruct (classNames !! i) as [name|]; [|discriminate].
  by injection Hi as <-.
Qed.

(** X7: in what predict returns on ten scores with a maximum, the
    percentage of every entry is printed from the entry's own probability
    [p]: it reads back as a multiple of 0.01 no further than 0.005 from
    [100 p] (for an infinite [p] it is the name of [p]); and the confidence
    percentage of the result is the percentage of the first entry. *)
Theorem predict_percentages (ext : Externals) (w : World) (h : nat) (v : list JS.num) :
  answers ext w h v ->
  classes_intact w ->
  length v = 10%nat ->
  v <> [] -> JS.NaN ∉ v ->
  exists r top,
    fst (predict ext h w) = Return r
    /\ head (allPredictions r) = Some top
    /\ confidencePercentage r = percentage top
    /\ forall c, c ∈ allPredictions r ->
         exists p,
           probability c = Some p
           /\ match p with
              | JS.Fin q =>
                  exists x,
                    JS.Number (percentage c) = JS.Fin x
                    /\ (exists n : Z, x * 100 == inject_Z n)%Q
                    /\ (- (1 # 2) <= (x - q * 100) * 100 <= 1 # 2)%Q
              | JS.PosInf => percentage c = "Infinity"
              | JS.NegInf => percentage c = "-Infinity"
              | JS.NaN => False
              end.
Proof.
  intros Hans Hclasses Hlen Hne Hfree.
  destruct (NaN_free_has_max v Hne Hfree) as (i & x & Hi & Hmax).
  destruct (first_max_exists v i x Hi Hmax) as [i0 Hfirst].
  pose proof Hfirst as (x0 & Hi0 & _).
  pose proof (predict_outcome_first_max ext w h v i0 x0 Hans Hfirst Hi0) as Hout.
  cbv zeta in Hout. unfold classes_intact in Hclasses. rewrite Hclasses in Hout.
  cbn [default from_option id] in Hout.
  destruct (lookup_lt_is_Some_2 CLASSES i0) as [name Hname].
  { apply lookup_lt_Some in Hi0. simpl. lia. }
  destruct (sorted_head_first_max v i0 name) as (top & Htop & _ & Hprob);
    [simpl; lia | exact Hfirst | exact Hname |].
  assert (forall c, c ∈ Array_sort byProbability (classResults_of CLASSES v) ->
            c ∈ classResults_of CLASSES v) as Hin.
  { intros c Hc. by rewrite Array_sort_perm in Hc. }
  eexists _, top. split; [exact Hout|].
  cbn [allPredictions confidencePercentage]. split; [exact Htop|]. split.
  - rewrite (classResults_percentage CLASSES v top).
    + by rewrite Hprob, Hi0.
    + apply Hin. by apply head_Some_elem_of.
  - intros c Hc. apply Hin in Hc.
    pose proof (classResults_percentage _ _ _ Hc) as Hpct.
    apply classResults_inv in Hc as (k & Hk & Hp).
    destruct (lookup_lt_is_Some_2 v k) as [p Hvk].
    { apply lookup_lt_Some in Hk. simpl in Hk. lia. }
    exists p. split; [by rewrite Hp|]. rewrite Hpct, Hp, Hvk.
    cbn [JS.ToNumber default from_option id].
    destruct p as [| |q|]; try reflexivity.
    + apply Hfree, list_elem_of_lookup. eauto.
    + destruct (Number_toFixed_rounds (q * 100) 2) as (y & Hy & Hyn & Hyb).
      by exists y.
Qed.

Lemma predict_percentages_witness :
  exists r top,
    fst (predict (Sample.libraries Sample.jpeg500x400 Sample.picture
                    (Sample.constant_model Sample.tied)) 4
           (Sample.preprocessed (Sample.constant_model Sample.tied) [])) = Return r
    /\ head (allPredictions r) = Some top
    /\ confidencePercentage r = percentage top
    /\ forall c, c ∈ allPredictions r ->
         exists p,
           probability c = Some p
           /\ match p with
              | JS.Fin q =>
                  exists x,
                    JS.Number (percentage c) = JS.Fin x
                    /\ (exists n : Z, x * 100 == inject_Z n)%Q
                    /\ (- (1 # 2) <= (x - q * 100) * 100 <= 1 # 2)%Q
              | JS.PosInf => percentage c = "Infinity"
              | JS.NegInf => percentage c = "-Infinity"
              | JS.NaN => False
              end.
Proof.
  apply (predict_percentages _ _ 4%nat Sample.tied (sample_answers Sample.tied [])
           (sample_classes_intact _ _) eq_refl).
  - discriminate.
  - intros Hin. unfold Sample.tied in Hin. simpl in Hin.
    repeat (apply elem_of_cons in Hin as [Hin|Hin]; [discriminate|]).
    by apply elem_of_nil in Hin.
Defined.

(** ** The stages of classifyImage *)

Lemma Date_now_returns (w : World) :
  exists t, Date_now w = (Return t, snd (Date_now w)).
Proof. unfold Date_now. destruct (clock w); eexists; reflexivity. Qed.

(** A timestamped answer goes out when none went out before. *)
Lemma timestamped_answers (code : nat) (b : Z -> Body) (w : World) :
  res w = None ->
  exists ts w',
    (timestamp ← Date_now; res_status_json code (b timestamp)) w = (Return tt, w')
    /\ res w' = Some {| status := code; body := b ts |}
    /\ engine w' = engine w /\ calls w' = calls w.
Proof.
  intros Hres. rewrite bind_unfold.
  destruct (Date_now_returns w) as [t Hnow]. rewrite Hnow.
  destruct (Date_now_frame w) as (He & _ & _ & Hr & Hc).
  unfold res_status_json. rewrite Hr, Hres.
  eexists t, _. split; [reflexivity|]. cbn. by rewrite He, Hc.
Qed.

(** Case analysis on every call and test of the run in the goal. *)
Ltac gcases :=
  repeat (match goal with
          | |- context [match ?x with _ => _ end] =>
              lazymatch x with
              | context [match _ with _ => _ end] => fail
              | _ => destruct x eqn:?
              end
          end;
          cbv beta iota zeta;
          cbn [res engine heap modelService clock calls fst snd
               with_res with_engine with_heap with_modelService with_clock with_calls]).

Lemma validateImage_calls (ext : Externals) (imageBuffer : Buffer) (w : World) :
  snd (validateImage ext imageBuffer w) = with_calls (calls w ++ [CallValidateImage]) w.
Proof. unfold validateImage. munfold. gcases; reflexivity. Qed.

Lemma validateImage_Throw (ext : Externals) (imageBuffer : Buffer) (w w' : World)
    (error : Exn) :
  validateImage ext imageBuffer w = (Throw error, w') ->
  exists text, error = new_Error ("Image validation failed: " +:+ text).
Proof.
  unfold validateImage. munfold. intros H.
  mcases H; injection H as <- _; eexists; reflexivity.
Qed.

Lemma preprocessImage_calls (ext : Externals) (imageBuffer : Buffer) (w : World) :
  calls (snd (preprocessImage ext imageBuffer w)) = calls w ++ [CallPreprocessImage].
Proof.
  unfold preprocessImage, decodeImage, run_kernel, alloc, read, dispose.
  munfold. gcases; reflexivity.
Qed.

Lemma preprocessImage_Throw (ext : Externals) (imageBuffer : Buffer) (w w' : World)
    (error : Exn) :
  preprocessImage ext imageBuffer w = (Throw error, w') ->
  exists text, error = new_Error ("Image preprocessing failed: " +:+ text).
Proof.
  unfold preprocessImage. rewrite bind_unfold. unfold log, modify.
  rewrite try_catch_unfold.
  destruct (_ ≫= _) as [[h|e] w1]; [discriminate|].
  intros [= <- _]. eexists. reflexivity.
Qed.

Lemma predict_calls (ext : Externals) (preprocessedImage : nat) (w : World) :
  model_loaded w ->
  calls (snd (predict ext preprocessedImage w)) = calls w ++ [CallPredict; CallExecute].
Proof.
  intros [m Hm].
  unfold predict, run_kernel, data, alloc, read, dispose, array_elements.
  munfold. cbn [modelService with_calls]. rewrite Hm.
  gcases; cbn; by rewrite <- app_assoc.
Qed.

Lemma predict_Throw (ext : Externals) (preprocessedImage : nat) (w w' : World)
    (error : Exn) :
  model_loaded w ->
  predict ext preprocessedImage w = (Throw error, w') ->
  exists text, error = new_Error ("Prediction failed: " +:+ text).
Proof.
  intros [m Hm]. unfold predict. rewrite bind_unfold. unfold log at 1, modify.
  rewrite bind_unfold. unfold this. cbn [modelService with_calls]. rewrite Hm.
  rewrite try_catch_unfold.
  destruct (_ ≫= _) as [[r|e] w1]; [discriminate|].
  intros [= <- _]. eexists. reflexivity.
Qed.

(** Into the handler, up to the first reading of the clock. *)
Ltac enter_classifyImage Hfile Hm :=
  unfold classifyImage; rewrite try_catch_unfold, Hfile; unfold isModelLoaded;
  rewrite !bind_unfold; cbn [this mret M_ret]; rewrite Hm;
  rewrite bool_decide_eq_true_2 by eauto; cbn [negb].

(** What a request with a file makes of the outcomes of the three services,
    once the model is loaded: an error of any of them is answered by the
    [catch] block, from the state the service left; when all return, the
    tensor is disposed of and the answer is 200. *)
Lemma classifyImage_cases (ext : Externals) (req : Request) (upload : File) (w : World) :
  file req = Some upload ->
  model_loaded w ->
  res w = None ->
  let answered (error : Exn) (w1 : World) :=
    exists ts w',
      classifyImage ext req w = (Return tt, w')
      /\ res w' = Some (failure_response error ts)
      /\ engine w' = engine w1 /\ calls w' = calls w1 in
  match validateImage ext (buffer upload) (snd (Date_now w)) with
  | (Throw error, w1) => answered error w1
  | (Return imageMetadata, w1) =>
      match preprocessImage ext (buffer upload) w1 with
      | (Throw error, w2) => answered error w2
      | (Return preprocessedImage, w2) =>
          match predict ext preprocessedImage w2 with
          | (Throw error, w3) => answered error w3
          | (Return prediction, w3) =>
              exists startTime endTime timestamp w',
                classifyImage ext req w = (Return tt, w')
                /\ fst (Date_now w) = Return startTime
                /\ res w' =
                   Some {| status := 200;
                           body :=
                             ClassifyBody true
                               {| r_predictedClass := predictedClass prediction;
                                  r_confidence := confidence prediction;
                                  r_confidencePercentage := confidencePercentage prediction;
                                  r_allPredictions := take 5 (allPredictions prediction) |}
                               {| o_filename := originalname upload;
                                  o_size := filesize upload;
                                  o_mimetype := mimetype upload;
                                  o_dimensions := dimensions imageMetadata |}
                               {| timeMs := endTime - startTime;
                                  modelInputSize := "32x32x3";
                                  normalization := "Range [-1, 1]" |}
                               timestamp |}
                /\ engine w' = engine (snd (dispose preprocessedImage w3))
                /\ calls w' = calls w3
          end
      end
  end.
Proof.
  intros Hfile Hmodel Hres. cbv zeta.
  destruct (Date_now_returns w) as [t0 Hnow].
  destruct (Date_now_frame w) as (_ & _ & _ & Hr0 & _).
  set (w0 := snd (Date_now w)) in *.
  destruct Hmodel as [m Hm].
  pose proof (validateImage_frame ext (buffer upload) w0) as [_ Hs1].
  destruct (validateImage ext (buffer upload) w0) as [[md|e1] w1] eqn:Hv; cbn [snd] in Hs1.
  2: { assert (res w1 = None) as Hr1.
       { unfold service_part in Hs1. injection Hs1 as _ _ Hr _. congruence. }
       enter_classifyImage Hfile Hm. rewrite bind_unfold, Hnow.
       rewrite bind_unfold, Hv. cbv zeta. unfold failure_response.
       destruct (instanceofError e1);
         repeat match goal with
                | |- context [if ?c then _ else _] => destruct c
                end;
         match goal with
         | |- context [Date_now ≫= (fun timestamp => res_status_json ?code (@?b timestamp))] =>
             apply (timestamped_answers code b w1 Hr1)
         end. }
  assert (res w1 = None) as Hr1.
  { unfold service_part in Hs1. injection Hs1 as _ _ Hr _. congruence. }
  pose proof (preprocessImage_frame ext (buffer upload) w1) as Hs2.
  destruct (preprocessImage ext (buffer upload) w1) as [[h|e2] w2] eqn:Hp; cbn [snd] in Hs2.
  2: { assert (res w2 = None) as Hr2.
       { unfold service_part in Hs2. injection Hs2 as _ _ Hr _. congruence. }
       enter_classifyImage Hfile Hm. rewrite bind_unfold, Hnow.
       rewrite bind_unfold, Hv, bind_unfold, Hp. cbv zeta. unfold failure_response.
       destruct (instanceofError e2);
         repeat match goal with
                | |- context [if ?c then _ else _] => destruct c
                end;
         match goal with
         | |- context [Date_now ≫= (fun timestamp => res_status_json ?code (@?b timestamp))] =>
             apply (timestamped_answers code b w2 Hr2)
         end. }
  assert (res w2 = None) as Hr2.
  { unfold service_part in Hs2. injection Hs2 as _ _ Hr _. congruence. }
  pose proof (predict_frame ext h w2) as Hs3.
  destruct (predict ext h w2) as [[prediction|e3] w3] eqn:Hpr; cbn [snd] in Hs3.
  2: { assert (res w3 = None) as Hr3.
       { unfold service_part in Hs3. injection Hs3 as _ _ Hr _. congruence. }
       enter_classifyImage Hfile Hm. rewrite bind_unfold, Hnow.
       rewrite bind_unfold, Hv, bind_unfold, Hp, bind_unfold, Hpr.
       cbv zeta. unfold failure_response.
       destruct (instanceofError e3);
         repeat match goal with
                | |- context [if ?c then _ else _] => destruct c
                end;
         match goal with
         | |- context [Date_now ≫= (fun timestamp => res_status_json ?code (@?b timestamp))] =>
             apply (timestamped_answers code b w3 Hr3)
         end. }
  assert (res w3 = None) as Hr3.
  { unfold service_part in Hs3. injection Hs3 as _ _ Hr _. congruence. }
  enter_classifyImage Hfile Hm. rewrite bind_unfold, Hnow.
  rewrite bind_unfold, Hv, bind_unfold, Hp, bind_unfold, Hpr.
  set (w4 := snd (dispose h w3)).
  rewrite bind_unfold. change (dispose h w3) with (Return tt, w4). cbv beta iota.
  assert (res w4 = None) as Hr4 by exact Hr3.
  destruct (Date_now_returns w4) as [t1 Hnow4].
  destruct (Date_now_frame w4) as (He5 & _ & _ & Hr5 & Hc5).
  rewrite bind_unfold, Hnow4. cbv zeta.
  destruct (Date_now_returns (snd (Date_now w4))) as [ts Hnow5].
  destruct (Date_now_frame (snd (Date_now w4))) as (He6 & _ & _ & Hr6 & Hc6).
  rewrite bind_unfold, Hnow5.
  unfold res_json, res_status_json. rewrite Hr6, Hr5, Hr4.
  exists t0, t1, ts. eexists. split; [reflexivity|]. split; [reflexivity|].
  split; [reflexivity|]. cbn [engine calls with_res].
  split; [by rewrite He6, He5 | by rewrite Hc6, Hc5].
Qed.

Lemma failure_response_status (error : Exn) (ts : Z) :
  exists st e m t,
    failure_response error ts = {| status := st; body := ErrorBody e m t |}
    /\ st ∈ [400; 503; 500]%nat.
Proof.
  unfold failure_response.
  destruct (instanceofError error);
    repeat match goal with
           | |- context [if ?c then _ else _] => destruct c
           end;
    eexists _, _, _, _; (split; [reflexivity|]); set_solver.
Qed.

(** ** The list in the answer *)

(** C4: on ten scores that have a maximum predict returns; the list it
    returns is sorted by probability, highest first; entries of equal
    probability are in the order of the class list; it has one entry per
    class, ten in all.  A request whose picture is validated, preprocessed
    and scored is answered 200 with the first five entries of the list that
    predict returned for its tensor; and every answer that carries a
    classification is made this way. *)
Theorem allPredictions_sorted (ext : Externals) :
  (forall w h v,
     answers ext w h v ->
     classes_intact w ->
     length v = 10%nat ->
     ((exists i x, v !! i = Some x /\ forall j y, v !! j = Some y -> JS.geb x y = true) ->
      exists r w', predict ext h w = (Return r, w'))
     /\ forall r w',
          predict ext h w = (Return r, w') ->
          StronglySorted descending (allPredictions r)
          /\ (forall p,
                List.filter (with_probability p) (allPredictions r)
                = List.filter (with_probability p) (classResults_of CLASSES v))
          /\ allPredictions r ≡ₚ classResults_of CLASSES v
          /\ length (allPredictions r) = 10%nat)
  /\ (forall req upload w imageMetadata preprocessedImage prediction,
        file req = Some upload ->
        model_loaded w ->
        res w = None ->
        let w1 := snd (validateImage ext (buffer upload) (snd (Date_now w))) in
        let w2 := snd (preprocessImage ext (buffer upload) w1) in
        fst (validateImage ext (buffer upload) (snd (Date_now w))) = Return imageMetadata ->
        fst (preprocessImage ext (buffer upload) w1) = Return preprocessedImage ->
        fst (predict ext preprocessedImage w2) = Return prediction ->
        exists oi pr ts w',
          classifyImage ext req w = (Return tt, w')
          /\ res w' =
             Some {| status := 200;
                     body :=
                       ClassifyBody true
                         {| r_predictedClass := predictedClass prediction;
                            r_confidence := confidence prediction;
                            r_confidencePercentage := confidencePercentage prediction;
                            r_allPredictions := take 5 (allPredictions prediction) |}
                         oi pr ts |})
  /\ (forall req w w' st ok result oi pr ts,
        res w = None ->
        classifyImage ext req w = (Return tt, w') ->
        res w' = Some {| status := st; body := ClassifyBody ok result oi pr ts |} ->
        exists upload imageMetadata preprocessedImage prediction,
          file req = Some upload
          /\ fst (validateImage ext (buffer upload) (snd (Date_now w)))
             = Return imageMetadata
          /\ fst (preprocessImage ext (buffer upload)
                    (snd (validateImage ext (buffer upload) (snd (Date_now w)))))
             = Return preprocessedImage
          /\ fst (predict ext preprocessedImage
                    (snd (preprocessImage ext (buffer upload)
                            (snd (validateImage ext (buffer upload)
                                    (snd (Date_now w)))))))
             = Return prediction
          /\ st = 200%nat
          /\ r_allPredictions result = take 5 (allPredictions prediction)).
Proof.
  split; [|split].
  - intros w h v Hans Hclasses Hlen. split.
    + intros (i & x & Hi & Hmax).
      destruct (first_max_exists v i x Hi Hmax) as [i0 Hfirst].
      destruct (predict_first_max ext w h v i0 Hans Hclasses Hfirst)
        as (r & w' & _ & Hrun & _).
      by exists r, w'.
    + intros r w' Hrun.
      destruct (predict_answers ext w h v Hans Hclasses) as [w0 Hrun0].
      rewrite Hrun in Hrun0.
      destruct (JS.get v _) as [c|] eqn:Hget; [|discriminate].
      apply found_NaN_free in Hget.
      pose proof (f_equal (fun o => match fst o with
                                    | Return r => allPredictions r
                                    | Throw _ => []
                                    end) Hrun0) as E.
      clear Hrun0. cbn [fst allPredictions] in E. rewrite E. clear E.
      split; [apply classResults_sorted; [simpl; lia | exact Hget]|].
      split; [intros p; apply classResults_stable|].
      split; [apply Array_sort_perm|].
      by rewrite Array_sort_length, classResults_length.
  - intros req upload w md h prediction Hfile Hloaded Hres w1 w2 Hvalid Hpre Hpredict.
    pose proof (classifyImage_cases ext req upload w Hfile Hloaded Hres) as Hcases.
    cbv zeta in Hcases. subst w2 w1.
    destruct (validateImage _ _ _) as [[md'|e1] x1]; [|discriminate].
    cbn [fst snd] in *. injection Hvalid as ->.
    destruct (preprocessImage _ _ _) as [[h'|e2] x2]; [|discriminate].
    cbn [fst snd] in *. injection Hpre as ->.
    destruct (predict _ _ _) as [[r|e3] x3]; [|discriminate].
    cbn [fst snd] in *. injection Hpredict as ->.
    destruct Hcases as (t0 & t1 & ts & w' & Hrun & _ & Hr & _).
    eexists _, _, ts, w'. split; [exact Hrun | exact Hr].
  - intros req w w' st ok result oi pr ts Hres Hrun Hanswer.
    destruct (file req) as [upload|] eqn:Hfile.
    2: { unfold classifyImage in Hrun. rewrite try_catch_unfold, Hfile in Hrun.
         unfold res_status_json in Hrun. rewrite Hres in Hrun.
         injection Hrun as <-. discriminate Hanswer. }
    destruct (model (modelService w)) as [m|] eqn:Hm.
    2: { unfold classifyImage in Hrun. rewrite try_catch_unfold, Hfile in Hrun.
         unfold isModelLoaded in Hrun. rewrite !bind_unfold in Hrun.
         cbn [this mret M_ret] in Hrun. rewrite Hm in Hrun.
         rewrite bool_decide_eq_false_2 in Hrun by (by intros [? ?]).
         cbn [negb] in Hrun. unfold res_status_json in Hrun. rewrite Hres in Hrun.
         injection Hrun as <-. discriminate Hanswer. }
    assert (model_loaded w) as Hloaded by (unfold model_loaded; rewrite Hm; eauto).
    pose proof (classifyImage_cases ext req upload w Hfile Hloaded Hres) as Hcases.
    cbv zeta in Hcases.
    assert (forall error x,
              (exists ts' x',
                 classifyImage ext req w = (Return tt, x')
                 /\ res x' = Some (failure_response error ts')
                 /\ engine x' = engine x /\ calls x' = calls x) -> False) as Hfail.
    { intros error x (ts' & x' & Hrun' & Hr & _).
      rewrite Hrun in Hrun'. injection Hrun' as <-.
      destruct (failure_response_status error ts') as (st' & e & msg & t & Hshape & _).
      rewrite Hshape, Hanswer in Hr. discriminate Hr. }
    exists upload.
    destruct (validateImage _ _ _) as [[md|e1] x1]; [|destruct (Hfail _ _ Hcases)].
    exists md. cbn [fst snd].
    destruct (preprocessImage _ _ _) as [[h|e2] x2]; [|destruct (Hfail _ _ Hcases)].
    exists h. cbn [fst snd].
    destruct (predict _ _ _) as [[prediction|e3] x3]; [|destruct (Hfail _ _ Hcases)].
    exists prediction. cbn [fst snd].
    destruct Hcases as (t0 & t1 & ts' & x' & Hrun' & _ & Hr & _).
    rewrite Hrun in Hrun'. injection Hrun' as <-.
    rewrite Hanswer in Hr. injection Hr as -> _ -> _ _ _.
    repeat split; reflexivity.
Qed.

Lemma allPredictions_sorted_witness :
  let ext := Sample.libraries Sample.jpeg500x400 Sample.picture
               (Sample.constant_model Sample.scores) in
  let req := {| file := Some Sample.upload |} in
  let w := Sample.serving (Sample.constant_model Sample.scores) Sample.ticks in
  (exists r w',
     predict ext 4 (Sample.preprocessed (Sample.constant_model Sample.scores) [])
     = (Return r, w')
     /\ StronglySorted descending (allPredictions r)
     /\ (forall p,
           List.filter (with_probability p) (allPredictions r)
           = List.filter (with_probability p) (classResults_of CLASSES Sample.scores))
     /\ allPredictions r ≡ₚ classResults_of CLASSES Sample.scores
     /\ length (allPredictions r) = 10%nat)
  /\ (exists prediction,
        fst (predict ext 4
               (snd (preprocessImage ext (buffer Sample.upload)
                       (snd (validateImage ext (buffer Sample.upload)
                               (snd (Date_now w)))))))
        = Return prediction
        /\ exists oi pr ts w',
          classifyImage ext req w = (Return tt, w')
          /\ res w' =
           Some {| status := 200;
                   body :=
                     ClassifyBody true
                       {| r_predictedClass := predictedClass prediction;
                          r_confidence := confidence prediction;
                          r_confidencePercentage := confidencePercentage prediction;
                          r_allPredictions := take 5 (allPredictions prediction) |}
                       oi pr ts |})
  /\ (exists upload imageMetadata preprocessedImage prediction,
        file req = Some upload
        /\ fst (validateImage ext (buffer upload) (snd (Date_now w)))
           = Return imageMetadata
        /\ fst (preprocessImage ext (buffer upload)
                  (snd (validateImage ext (buffer upload) (snd (Date_now w)))))
           = Return preprocessedImage
        /\ fst (predict ext preprocessedImage
                  (snd (preprocessImage ext (buffer upload)
                          (snd (validateImage ext (buffer upload)
                                  (snd (Date_now w)))))))
           = Return prediction
        /\ 200%nat = 200%nat
        /\ r_allPredictions Sample.expected_result = take 5 (allPredictions prediction)).
Proof.
  cbv zeta.
  pose proof (allPredictions_sorted
                (Sample.libraries Sample.jpeg500x400 Sample.picture
                   (Sample.constant_model Sample.scores)))
    as (Hpredict & Hanswer & Hfrom).
  split; [|split].
  - destruct (Hpredict _ 4%nat Sample.scores (sample_answers Sample.scores [])
                (sample_classes_intact _ _) eq_refl) as [Hreturns Hsorted].
    destruct Hreturns as (r & w' & Hrun).
    { destruct sample_scores_max as (x & Hx & Hmax & _). by exists 3%nat, x. }
    exists r, w'. split; [exact Hrun | exact (Hsorted r w' Hrun)].
  - assert (exists prediction,
              fst (predict
                     (Sample.libraries Sample.jpeg500x400 Sample.picture
                        (Sample.constant_model Sample.scores)) 4
                     (snd (preprocessImage
                             (Sample.libraries Sample.jpeg500x400 Sample.picture
                                (Sample.constant_model Sample.scores))
                             (buffer Sample.upload)
                             (snd (validateImage
                                     (Sample.libraries Sample.jpeg500x400 Sample.picture
                                        (Sample.constant_model Sample.scores))
                                     (buffer Sample.upload)
                                     (snd (Date_now
                                             (Sample.serving
                                                (Sample.constant_model Sample.scores)
                                                Sample.ticks))))))))
              = Return prediction) as [prediction Hscored].
    { vm_compute. eexists. reflexivity. }
    exists prediction. split; [exact Hscored|].
    apply (Hanswer {| file := Some Sample.upload |} Sample.upload
             (Sample.serving (Sample.constant_model Sample.scores) Sample.ticks)
             {| width := 500; height := 400; format := "jpeg"; size := 4; channels := 3 |}
             4%nat prediction).
    + reflexivity.
    + unfold model_loaded. vm_compute. eexists. reflexivity.
    + vm_compute. reflexivity.
    + vm_compute. reflexivity.
    + vm_compute. reflexivity.
    + exact Hscored.
  - eapply (Hfrom {| file := Some Sample.upload |}
              (Sample.serving (Sample.constant_model Sample.scores) Sample.ticks)).
    + reflexivity.
    + exact (proj1 sample_request).
    + exact (proj2 sample_request).
Defined.

(** X9: a request handled when no answer went out yet is answered exactly
    once, and the handler returns: with 200 and a classification, or with
    400, 503 or 500 and an error body. *)
Theorem classifyImage_always_answers (ext : Externals) (req : Request) (w : World) :
  res w = None ->
  exists st b w',
    classifyImage ext req w = (Return tt, w')
    /\ res w' = Some {| status := st; body := b |}
    /\ match b with
       | ClassifyBody _ _ _ _ _ => st = 200%nat
       | ErrorBody _ _ _ => st ∈ [400; 503; 500]%nat
       end.
Proof.
  intros Hres.
  destruct (file req) as [upload|] eqn:Hfile.
  2: { unfold classifyImage. rewrite try_catch_unfold, Hfile.
       unfold res_status_json. rewrite Hres.
       eexists _, _, _. split; [reflexivity|]. split; [reflexivity|]. set_solver. }
  destruct (model (modelService w)) as [m|] eqn:Hm.
  2: { unfold classifyImage. rewrite try_catch_unfold, Hfile. unfold isModelLoaded.
       rewrite !bind_unfold. cbn [this mret M_ret]. rewrite Hm.
       rewrite bool_decide_eq_false_2 by (by intros [? ?]). cbn [negb].
       unfold res_status_json. rewrite Hres.
       eexists _, _, _. split; [reflexivity|]. split; [reflexivity|]. set_solver. }
  assert (model_loaded w) as Hloaded by (unfold model_loaded; rewrite Hm; eauto).
  pose proof (classifyImage_cases ext req upload w Hfile Hloaded Hres) as Hcases.
  cbv zeta in Hcases.
  assert (forall error w1,
            (exists ts w',
               classifyImage ext req w = (Return tt, w')
               /\ res w' = Some (failure_response error ts)
               /\ engine w' = engine w1 /\ calls w' = calls w1) ->
            exists st b w',
              classifyImage ext req w = (Return tt, w')
              /\ res w' = Some {| status := st; body := b |}
              /\ match b with
                 | ClassifyBody _ _ _ _ _ => st = 200%nat
                 | ErrorBody _ _ _ => st ∈ [400; 503; 500]%nat
                 end) as Hfail.
  { intros error w1 (ts & w' & Hrun & Hr & _).
    destruct (failure_response_status error ts) as (st & e & msg & t & Hshape & Hst).
    rewrite Hshape in Hr. by exists st, (ErrorBody e msg t), w'. }
  destruct (validateImage _ _ _) as [[md|e1] w1]; [|by apply (Hfail e1 w1)].
  destruct (preprocessImage _ _ _) as [[h|e2] w2]; [|by apply (Hfail e2 w2)].
  destruct (predict _ _ _) as [[prediction|e3] w3]; [|by apply (Hfail e3 w3)].
  destruct Hcases as (t0 & t1 & ts & w' & Hrun & _ & Hr & _).
  eexists _, _, w'. split; [exact Hrun|]. split; [exact Hr|]. reflexivity.
Qed.

Lemma classifyImage_always_answers_witness :
  exists st b w',
    classifyImage (Sample.libraries Sample.tiff Sample.picture Sample.broken_model)
      {| file := Some Sample.upload |} (Sample.serving Sample.broken_model Sample.ticks)
    = (Return tt, w')
    /\ res w' = Some {| status := st; body := b |}
    /\ match b with
       | ClassifyBody _ _ _ _ _ => st = 200%nat
       | ErrorBody _ _ _ => st ∈ [400; 503; 500]%nat
       end.
Proof.
  apply (classifyImage_always_answers
           (Sample.libraries Sample.tiff Sample.picture Sample.broken_model)
           {| file := Some Sample.upload |}
           (Sample.serving Sample.broken_model Sample.ticks)).
  reflexivity.
Defined.

Lemma includes_validation_failed (text : string) :
  JS.includes ("Image validation failed: " +:+ text) "Image validation failed" = true.
Proof.
  change ("Image validation failed: " +:+ text)
    with ("Image validation failed" +:+ (": " +:+ text)).
  apply includes_prefix.
Qed.

Lemma includes_preprocessing_failed (text : string) :
  JS.includes ("Image preprocessing failed: " +:+ text) "Image preprocessing failed" = true.
Proof.
  change ("Image preprocessing failed: " +:+ text)
    with ("Image preprocessing failed" +:+ (": " +:+ text)).
  apply includes_prefix.
Qed.

Lemma Invalid_image_response (text : string) (ts : Z) :
  JS.includes text "Image validation failed"
  || JS.includes text "Image preprocessing failed" = true ->
  failure_response (new_Error text) ts
  = {| status := 400; body := ErrorBody "Invalid image" text (Some ts) |}.
Proof. intros H. unfold failure_response. cbn [instanceofError new_Error message]. by rewrite H. Qed.

(** X10: when validateImage throws, the answer is 400 "Invalid image" with
    the message of the error, which starts with "Image validation failed: ";
    neither preprocessImage nor predict is called and the engine is as
    before. *)
Theorem classifyImage_validation_failure (ext : Externals) (req : Request)
    (upload : File) (w : World) (error : Exn) :
  file req = Some upload ->
  model_loaded w ->
  res w = None ->
  fst (validateImage ext (buffer upload) (snd (Date_now w))) = Throw error ->
  exists text ts w',
    message error = "Image validation failed: " +:+ text
    /\ classifyImage ext req w = (Return tt, w')
    /\ res w' = Some {| status := 400;
                        body := ErrorBody "Invalid image" (message error) (Some ts) |}
    /\ calls w' = calls w ++ [CallValidateImage]
    /\ engine w' = engine w.
Proof.
  intros Hfile Hloaded Hres Hthrow.
  pose proof (classifyImage_cases ext req upload w Hfile Hloaded Hres) as Hcases.
  cbv zeta in Hcases.
  pose proof (validateImage_calls ext (buffer upload) (snd (Date_now w))) as Hcalls.
  destruct (Date_now_frame w) as (He0 & _ & _ & _ & Hc0).
  destruct (validateImage _ _ _) as [[md|e1] w1] eqn:Hv; [discriminate|].
  cbn [fst snd] in *. injection Hthrow as ->.
  destruct (validateImage_Throw _ _ _ _ _ Hv) as [text ->].
  destruct Hcases as (ts & w' & Hrun & Hr & He & Hc).
  exists text, ts, w'. split; [reflexivity|]. split; [exact Hrun|].
  rewrite (Invalid_image_response _ ts) in Hr
    by (by rewrite includes_validation_failed).
  split; [exact Hr|]. subst w1. cbn [calls engine with_calls] in *.
  split; [by rewrite Hc, Hc0 | by rewrite He, He0].
Qed.

Lemma classifyImage_validation_failure_witness :
  exists text ts w',
    message (new_Error "Image validation failed: Error: Unsupported image format: tiff. Supported: jpeg, jpg, png, webp, gif, bmp")
    = "Image validation failed: " +:+ text
    /\ classifyImage (Sample.libraries Sample.tiff Sample.picture Sample.broken_model)
         {| file := Some Sample.upload |} (Sample.serving Sample.broken_model Sample.ticks)
       = (Return tt, w')
    /\ res w' = Some {| status := 400;
                        body := ErrorBody "Invalid image"
                                  (message (new_Error "Image validation failed: Error: Unsupported image format: tiff. Supported: jpeg, jpg, png, webp, gif, bmp"))
                                  (Some ts) |}
    /\ calls w' = calls (Sample.serving Sample.broken_model Sample.ticks)
                  ++ [CallValidateImage]
    /\ engine w' = engine (Sample.serving Sample.broken_model Sample.ticks).
Proof.
  apply (classifyImage_validation_failure
           (Sample.libraries Sample.tiff Sample.picture Sample.broken_model)
           {| file := Some Sample.upload |} Sample.upload
           (Sample.serving Sample.broken_model Sample.ticks)).
  - reflexivity.
  - unfold model_loaded. vm_compute. eexists. reflexivity.
  - reflexivity.
  - vm_compute. reflexivity.
Defined.

(** X11: when validateImage returns and preprocessImage throws, the answer
    is 400 "Invalid image" with the message of the error, which starts with
    "Image preprocessing failed: "; predict is not called. *)
Theorem classifyImage_preprocessing_failure (ext : Externals) (req : Request)
    (upload : File) (w : World) (imageMetadata : ImageMetadata) (error : Exn) :
  file req = Some upload ->
  model_loaded w ->
  res w = None ->
  let w1 := snd (validateImage ext (buffer upload) (snd (Date_now w))) in
  fst (validateImage ext (buffer upload) (snd (Date_now w))) = Return imageMetadata ->
  fst (preprocessImage ext (buffer upload) w1) = Throw error ->
  exists text ts w',
    message error = "Image preprocessing failed: " +:+ text
    /\ classifyImage ext req w = (Return tt, w')
    /\ res w' = Some {| status := 400;
                        body := ErrorBody "Invalid image" (message error) (Some ts) |}
    /\ calls w' = calls w ++ [CallValidateImage; CallPreprocessImage]
    /\ engine w' = engine (snd (preprocessImage ext (buffer upload) w1)).
Proof.
  intros Hfile Hloaded Hres w1 Hvalid Hthrow.
  pose proof (classifyImage_cases ext req upload w Hfile Hloaded Hres) as Hcases.
  cbv zeta in Hcases.
  pose proof (validateImage_calls ext (buffer upload) (snd (Date_now w))) as Hcalls.
  pose proof (preprocessImage_calls ext (buffer upload) w1) as Hcalls2.
  destruct (Date_now_frame w) as (_ & _ & _ & _ & Hc0).
  subst w1.
  destruct (validateImage _ _ _) as [[md|e1] w1] eqn:Hv; [|discriminate].
  cbn [fst snd] in *.
  destruct (preprocessImage _ _ _) as [[h|e2] w2] eqn:Hp; [discriminate|].
  cbn [fst snd] in *. injection Hthrow as ->.
  destruct (preprocessImage_Throw _ _ _ _ _ Hp) as [text ->].
  destruct Hcases as (ts & w' & Hrun & Hr & He & Hc).
  exists text, ts, w'. split; [reflexivity|]. split; [exact Hrun|].
  rewrite (Invalid_image_response _ ts) in Hr
    by (rewrite includes_preprocessing_failed; apply orb_true_r).
  split; [exact Hr|]. split; [|exact He].
  rewrite Hc, Hcalls2, Hcalls. cbn [calls with_calls]. by rewrite Hc0, <- app_assoc.
Qed.

Lemma classifyImage_preprocessing_failure_witness :
  let ext := Sample.failing_in tf.Div
               (Sample.libraries Sample.jpeg500x400 Sample.picture Sample.broken_model) in
  let w := Sample.serving Sample.broken_model Sample.ticks in
  let error := new_Error "Image preprocessing failed: Error: Failed to allocate memory" in
  exists text ts w',
    message error = "Image preprocessing failed: " +:+ text
    /\ classifyImage ext {| file := Some Sample.upload |} w = (Return tt, w')
    /\ res w' = Some {| status := 400;
                        body := ErrorBody "Invalid image" (message error) (Some ts) |}
    /\ calls w' = calls w ++ [CallValidateImage; CallPreprocessImage]
    /\ engine w'
       = engine (snd (preprocessImage ext (buffer Sample.upload)
                        (snd (validateImage ext (buffer Sample.upload)
                                (snd (Date_now w)))))).
Proof.
  cbv zeta.
  apply (classifyImage_preprocessing_failure
           (Sample.failing_in tf.Div
              (Sample.libraries Sample.jpeg500x400 Sample.picture Sample.broken_model))
           {| file := Some Sample.upload |} Sample.upload
           (Sample.serving Sample.broken_model Sample.ticks)
           {| width := 500; height := 400; format := "jpeg"; size := 4; channels := 3 |}).
  - reflexivity.
  - unfold model_loaded. vm_compute. eexists. reflexivity.
  - vm_compute. reflexivity.
  - vm_compute. reflexivity.
  - vm_compute. reflexivity.
Defined.

(** What comes before the text of the error predict wraps holds none of
    the markers the [catch] block looks for. *)
Lemma includes_Prediction_failed (text marker : string) :
  marker ∈ ["Image validation failed"; "Image preprocessing failed"; "Model not loaded"] ->
  JS.includes ("Prediction failed: " +:+ text) marker = JS.includes text marker.
Proof.
  intros Hm. rewrite !append_cons, append_nil.
  repeat (apply elem_of_cons in Hm as [->|Hm]);
    [| | |by apply elem_of_nil in Hm];
    simpl; reflexivity.
Qed.

(** X12: when validateImage and preprocessImage return and predict throws,
    the error is "Prediction failed: " followed by the text of what went
    wrong, and that text alone decides the answer: 400 "Invalid image" when
    it holds "Image validation failed" or "Image preprocessing failed", 503
    when it holds "Model not loaded", and otherwise 500 with a fixed message
    that shows nothing of the error. *)
Theorem classifyImage_prediction_failure (ext : Externals) (req : Request)
    (upload : File) (w : World) (imageMetadata : ImageMetadata)
    (preprocessedImage : nat) (error : Exn) :
  file req = Some upload ->
  model_loaded w ->
  res w = None ->
  let w1 := snd (validateImage ext (buffer upload) (snd (Date_now w))) in
  let w2 := snd (preprocessImage ext (buffer upload) w1) in
  fst (validateImage ext (buffer upload) (snd (Date_now w))) = Return imageMetadata ->
  fst (preprocessImage ext (buffer upload) w1) = Return preprocessedImage ->
  fst (predict ext preprocessedImage w2) = Throw error ->
  exists text ts w',
    error = new_Error ("Prediction failed: " +:+ text)
    /\ classifyImage ext req w = (Return tt, w')
    /\ res w' =
       Some (if JS.includes text "Image validation failed"
                || JS.includes text "Image preprocessing failed" then
               {| status := 400;
                  body := ErrorBody "Invalid image" (message error) (Some ts) |}
             else if JS.includes text "Model not loaded" then
               {| status := 503;
                  body := ErrorBody "Service unavailable"
                            "Classification model is not ready" (Some ts) |}
             else
               {| status := 500;
                  body := ErrorBody "Classification failed"
                            "An error occurred during image classification" (Some ts) |})
    /\ calls w'
       = calls w ++ [CallValidateImage; CallPreprocessImage; CallPredict; CallExecute].
Proof.
  intros Hfile Hloaded Hres w1 w2 Hvalid Hpre Hthrow.
  pose proof (classifyImage_cases ext req upload w Hfile Hloaded Hres) as Hcases.
  cbv zeta in Hcases.
  pose proof (validateImage_calls ext (buffer upload) (snd (Date_now w))) as Hcalls.
  pose proof (preprocessImage_calls ext (buffer upload) w1) as Hcalls2.
  pose proof (predict_calls ext preprocessedImage w2) as Hcalls3.
  pose proof (validateImage_frame ext (buffer upload) (snd (Date_now w))) as [_ Hs1].
  pose proof (preprocessImage_frame ext (buffer upload) w1) as Hs2.
  destruct (Date_now_frame w) as (_ & _ & Hm0 & _ & Hc0).
  assert (model_loaded w2) as Hloaded2.
  { unfold model_loaded. subst w2 w1. unfold service_part in Hs1, Hs2.
    injection Hs2 as _ -> _ _. injection Hs1 as _ -> _ _. by rewrite Hm0. }
  specialize (Hcalls3 Hloaded2).
  subst w2 w1.
  destruct (validateImage _ _ _) as [[md|e1] w1] eqn:Hv; [|discriminate].
  cbn [fst snd] in *.
  destruct (preprocessImage _ _ _) as [[h|e2] w2] eqn:Hp; [|discriminate].
  cbn [fst snd] in *. injection Hpre as ->.
  destruct (predict _ _ _) as [[prediction|e3] w3] eqn:Hpr; [discriminate|].
  cbn [fst snd] in *. injection Hthrow as ->.
  destruct (predict_Throw _ _ _ _ _ Hloaded2 Hpr) as [text ->].
  destruct Hcases as (ts & w' & Hrun & Hr & He & Hc).
  exists text, ts, w'. split; [reflexivity|]. split; [exact Hrun|]. split.
  - rewrite Hr. unfold failure_response. cbn [instanceofError new_Error message].
    rewrite !includes_Prediction_failed by set_solver. reflexivity.
  - rewrite Hc, Hcalls3, Hcalls2, Hcalls. cbn [calls with_calls].
    rewrite Hc0, <- !app_assoc. reflexivity.
Qed.

Lemma classifyImage_prediction_failure_witness :
  let ext := Sample.libraries Sample.jpeg500x400 Sample.picture Sample.broken_model in
  let w := Sample.serving Sample.broken_model Sample.ticks in
  let error :=
    new_Error "Prediction failed: Error: Error in matMul: inner shapes must match" in
  exists text ts w',
    error = new_Error ("Prediction failed: " +:+ text)
    /\ classifyImage ext {| file := Some Sample.upload |} w = (Return tt, w')
    /\ res w' =
       Some (if JS.includes text "Image validation failed"
                || JS.includes text "Image preprocessing failed" then
               {| status := 400;
                  body := ErrorBody "Invalid image" (message error) (Some ts) |}
             else if JS.includes text "Model not loaded" then
               {| status := 503;
                  body := ErrorBody "Service unavailable"
                            "Classification model is not ready" (Some ts) |}
             else
               {| status := 500;
                  body := ErrorBody "Classification failed"
                            "An error occurred during image classification" (Some ts) |})
    /\ calls w'
       = calls w ++ [CallValidateImage; CallPreprocessImage; CallPredict; CallExecute].
Proof.
  cbv zeta.
  apply (classifyImage_prediction_failure
           (Sample.libraries Sample.jpeg500x400 Sample.picture Sample.broken_model)
           {| file := Some Sample.upload |} Sample.upload
           (Sample.serving Sample.broken_model Sample.ticks)
           {| width := 500; height := 400; format := "jpeg"; size := 4; channels := 3 |}
           4%nat).
  - reflexivity.
  - unfold model_loaded. vm_compute. eexists. reflexivity.
  - vm_compute. reflexivity.
  - vm_compute. reflexivity.
  - vm_compute. reflexivity.
  - vm_compute. reflexivity.
Defined.

(** X13: when the three services return, the answer is 200 with the fields
    of what predict returned, the first five entries of its list, the
    dimensions validateImage read and the time between two readings of the
    clock; and one tensor more is live than before the request: the result
    of [tf.sub] inside preprocessImage. *)
Theorem classifyImage_success (ext : Externals) (req : Request) (upload : File)
    (w : World) (imageMetadata : ImageMetadata) (preprocessedImage : nat)
    (prediction : PredictionResult) :
  file req = Some upload ->
  model_loaded w ->
  res w = None ->
  engine_ok w ->
  let w1 := snd (validateImage ext (buffer upload) (snd (Date_now w))) in
  let w2 := snd (preprocessImage ext (buffer upload) w1) in
  fst (validateImage ext (buffer upload) (snd (Date_now w))) = Return imageMetadata ->
  fst (preprocessImage ext (buffer upload) w1) = Return preprocessedImage ->
  fst (predict ext preprocessedImage w2) = Return prediction ->
  exists startTime endTime timestamp resized w',
    classifyImage ext req w = (Return tt, w')
    /\ fst (Date_now w) = Return startTime
    /\ res w' =
       Some {| status := 200;
               body :=
                 ClassifyBody true
                   {| r_predictedClass := predictedClass prediction;
                      r_confidence := confidence prediction;
                      r_confidencePercentage := confidencePercentage prediction;
                      r_allPredictions := take 5 (allPredictions prediction) |}
                   {| o_filename := originalname upload;
                      o_size := filesize upload;
                      o_mimetype := mimetype upload;
                      o_dimensions := dimensions imageMetadata |}
                   {| timeMs := endTime - startTime;
                      modelInputSize := "32x32x3";
                      normalization := "Range [-1, 1]" |}
                   timestamp |}
    /\ tf.live (engine w) !! (tf.nextId (engine w) + 2)%nat = None
    /\ tf.live (engine w')
       = <[(tf.nextId (engine w) + 2)%nat := difference_of resized]> (tf.live (engine w)).
Proof.
  intros Hfile Hloaded Hres Hok w1 w2 Hvalid Hpre Hpredict.
  pose proof (classifyImage_cases ext req upload w Hfile Hloaded Hres) as Hcases.
  cbv zeta in Hcases.
  pose proof (validateImage_frame ext (buffer upload) (snd (Date_now w))) as [He1 _].
  destruct (Date_now_frame w) as (He0 & _).
  assert (engine w1 = engine w) as Hengine1 by (subst w1; by rewrite He1, He0).
  assert (engine_ok w1) as Hok1 by (unfold engine_ok; by rewrite Hengine1).
  assert (engine_ok w2) as Hok2.
  { subst w2. apply maintains_preprocessImage; [| | | |exact Hok1].
    - intros c. apply (maintains_log _ engine_ok_state).
    - apply engine_ok_alloc.
    - apply engine_ok_read.
    - apply engine_ok_dispose. }
  pose proof (predict_engine ext preprocessedImage w2 Hok2) as Hlive3.
  assert (forall k, (tf.nextId (engine w) <= k)%nat -> tf.live (engine w) !! k = None)
    as Hfresh.
  { intros k Hk. destruct (tf.live (engine w) !! k) eqn:E; [|reflexivity].
    assert (k < tf.nextId (engine w))%nat by (apply Hok; eauto). lia. }
  subst w2 w1.
  destruct (validateImage _ _ _) as [[md|e1] w1] eqn:Hv; [|discriminate].
  cbn [fst snd] in *. injection Hvalid as ->.
  destruct (preprocessImage _ _ _) as [[h|e2] w2] eqn:Hp; [|discriminate].
  cbn [fst snd] in *. injection Hpre as ->.
  destruct (predict _ _ _) as [[r|e3] w3] eqn:Hpr; [|discriminate].
  cbn [fst snd] in *. injection Hpredict as ->.
  destruct (preprocessImage_survivors _ _ _ _ _ Hok1 Hp) as (resized & -> & Hlive2).
  destruct Hcases as (t0 & t1 & ts & w' & Hrun & Hstart & Hr & He & _).
  exists t0, t1, ts, resized, w'.
  split; [exact Hrun|]. split; [exact Hstart|]. split; [exact Hr|].
  split; [apply Hfresh; lia|].
  rewrite He. unfold dispose, modify. cbn [snd engine with_engine tf.live].
  rewrite Hlive3, Hlive2, Hengine1.
  apply delete_insert_id. rewrite lookup_insert_ne by lia. apply Hfresh. lia.
Qed.

Lemma sample_serving_engine_ok (m : GraphModel) (ticks : list Z) :
  engine_ok (Sample.serving m ticks).
Proof. intros h [t Ht]. discriminate. Defined.

Lemma classifyImage_success_witness :
  let ext := Sample.libraries Sample.jpeg500x400 Sample.picture
               (Sample.constant_model Sample.scores) in
  let w := Sample.serving (Sample.constant_model Sample.scores) Sample.ticks in
  exists prediction startTime endTime timestamp resized w',
    classifyImage ext {| file := Some Sample.upload |} w = (Return tt, w')
    /\ fst (Date_now w) = Return startTime
    /\ res w' =
       Some {| status := 200;
               body :=
                 ClassifyBody true
                   {| r_predictedClass := predictedClass prediction;
                      r_confidence := confidence prediction;
                      r_confidencePercentage := confidencePercentage prediction;
                      r_allPredictions := take 5 (allPredictions prediction) |}
                   {| o_filename := originalname Sample.upload;
                      o_size := filesize Sample.upload;
                      o_mimetype := mimetype Sample.upload;
                      o_dimensions :=
                        dimensions {| width := 500; height := 400; format := "jpeg";
                                      size := 4; channels := 3 |} |}
                   {| timeMs := endTime - startTime;
                      modelInputSize := "32x32x3";
                      normalization := "Range [-1, 1]" |}
                   timestamp |}
    /\ tf.live (engine w) !! (tf.nextId (engine w) + 2)%nat = None
    /\ tf.live (engine w')
       = <[(tf.nextId (engine w) + 2)%nat := difference_of resized]> (tf.live (engine w)).
Proof.
  cbv zeta. eexists.
  apply (classifyImage_success
           (Sample.libraries Sample.jpeg500x400 Sample.picture
              (Sample.constant_model Sample.scores))
           {| file := Some Sample.upload |} Sample.upload
           (Sample.serving (Sample.constant_model Sample.scores) Sample.ticks)
           {| width := 500; height := 400; format := "jpeg"; size := 4; channels := 3 |}
           4%nat).
  - reflexivity.
  - unfold model_loaded. vm_compute. eexists. reflexivity.
  - vm_compute. reflexivity.
  - apply sample_serving_engine_ok.
  - vm_compute. reflexivity.
  - vm_compute. reflexivity.
  - vm_compute. reflexivity.
Defined.

(** ** createDebugImage *)

Lemma clipByValue_0_255 (x : tf.Tensor) :
  tfx.clipByValue (JS.Fin 0) (JS.Fin 255) x
  = inr {| tf.shape := tf.shape x;
           tf.values := tfx.clip (JS.Fin 0) (JS.Fin 255) <$> tf.values x |}.
Proof. reflexivity. Qed.

Lemma run_debug_kernel_live (backend : tfx.Backend) (k : tfx.Kernel)
    (f : tf.Tensor -> Exn + tf.Tensor) (h : nat) (w : World) (t t' : tf.Tensor) :
  backend_ok backend ->
  tf.live (engine w) !! h = Some t ->
  f t = inr t' ->
  run_debug_kernel backend k f h w
  = (Return (tf.nextId (engine w)),
     with_engine {| tf.nextId := S (tf.nextId (engine w));
                    tf.live := <[tf.nextId (engine w) := t']> (tf.live (engine w)) |} w).
Proof.
  intros Hok Hlive Hf. unfold run_debug_kernel. rewrite (Hok k).
  rewrite bind_unfold. unfold read. rewrite Hlive.
  rewrite bind_unfold, Hf. reflexivity.
Qed.

(** What createDebugImage does with a live tensor when no kernel fails:
    five tensors are made, and the outcome is the encoder's. *)
Lemma createDebugImage_outcome (backend : tfx.Backend) (preprocessedTensor : nat)
    (w : World) (t : tf.Tensor) :
  backend_ok backend ->
  tf.live (engine w) !! preprocessedTensor = Some t ->
  let n := tf.nextId (engine w) in
  let made :=
    <[S (S (S (S n))) := uint8_of backend t]>
      (<[S (S (S n)) := clamped_of t]>
         (<[S (S n) := denormalized_of t]>
            (<[S n := product_of t]>
               (<[n := squeezed_of t]> (tf.live (engine w)))))) in
  createDebugImage backend preprocessedTensor w =
    match tfx.encodeJpeg backend (uint8_of backend t) with
    | inr debugBuffer =>
        (Return debugBuffer,
         with_engine
           {| tf.nextId := S (S (S (S (S n))));
              tf.live :=
                delete (S (S (S (S n))))
                  (delete (S (S (S n))) (delete (S (S n)) (delete n made))) |} w)
    | inl error =>
        (Throw (new_Error ("Debug image creation failed: " +:+ toString error)),
         with_engine {| tf.nextId := S (S (S (S (S n)))); tf.live := made |} w)
    end.
Proof.
  intros Hok Hlive. cbv zeta. unfold createDebugImage.
  rewrite try_catch_unfold.
  rewrite bind_unfold.
  rewrite (run_debug_kernel_live backend _ _ _ w t (squeezed_of t) Hok Hlive eq_refl).
  rewrite bind_unfold.
  erewrite (run_debug_kernel_live backend _ _ _ _ (squeezed_of t) (product_of t) Hok);
    [|cbn [engine with_engine tf.live tf.nextId]; apply lookup_insert_eq | reflexivity].
  rewrite bind_unfold. cbn [engine with_engine tf.live tf.nextId].
  erewrite (run_debug_kernel_live backend _ _ _ _ (product_of t) (denormalized_of t) Hok);
    [|cbn [engine with_engine tf.live tf.nextId]; apply lookup_insert_eq | reflexivity].
  rewrite bind_unfold. cbn [engine with_engine tf.live tf.nextId].
  erewrite (run_debug_kernel_live backend _ _ _ _ (denormalized_of t) (clamped_of t) Hok);
    [|cbn [engine with_engine tf.live tf.nextId]; apply lookup_insert_eq
     |apply clipByValue_0_255].
  rewrite bind_unfold. cbn [engine with_engine tf.live tf.nextId].
  erewrite (run_debug_kernel_live backend _ _ _ _ (clamped_of t) (uint8_of backend t) Hok);
    [|cbn [engine with_engine tf.live tf.nextId]; apply lookup_insert_eq | reflexivity].
  rewrite bind_unfold. cbn [engine with_engine tf.live tf.nextId].
  unfold encodeJpeg. rewrite (Hok tfx.EncodeJpeg).
  rewrite bind_unfold. unfold read. cbn [engine with_engine tf.live tf.nextId].
  rewrite lookup_insert_eq.
  destruct (tfx.encodeJpeg backend (uint8_of backend t)) as [e|debugBuffer]; reflexivity.
Qed.

(** X14: createDebugImage on a live tensor, when no kernel fails.  When the
    encoder returns, its buffer is returned, the tensor given is still live
    and one tensor more is live than before: the result of [tf.mul], which
    is bound to no variable.  When the encoder throws, the error is wrapped
    and all five tensors made stay live. *)
Theorem createDebugImage_leaks (backend : tfx.Backend) (preprocessedTensor : nat)
    (w : World) (t : tf.Tensor) :
  backend_ok backend ->
  engine_ok w ->
  tf.live (engine w) !! preprocessedTensor = Some t ->
  let n := tf.nextId (engine w) in
  (forall debugBuffer,
     tfx.encodeJpeg backend (uint8_of backend t) = inr debugBuffer ->
     exists w',
       createDebugImage backend preprocessedTensor w = (Return debugBuffer, w')
       /\ tf.live (engine w) !! S n = None
       /\ tf.live (engine w') = <[S n := product_of t]> (tf.live (engine w))
       /\ tf.live (engine w') !! preprocessedTensor = Some t)
  /\ (forall error,
        tfx.encodeJpeg backend (uint8_of backend t) = inl error ->
        exists w',
          createDebugImage backend preprocessedTensor w
          = (Throw (new_Error ("Debug image creation failed: " +:+ toString error)), w')
          /\ forall k, (n <= k < n + 5)%nat -> is_Some (tf.live (engine w') !! k)).
Proof.
  intros Hbackend Hok Hlive n.
  pose proof (createDebugImage_outcome backend preprocessedTensor w t Hbackend Hlive)
    as Hrun.
  cbv zeta in Hrun. fold n in Hrun.
  assert (forall k, (n <= k)%nat -> tf.live (engine w) !! k = None) as Hfresh.
  { intros k Hk. destruct (tf.live (engine w) !! k) eqn:E; [|reflexivity].
    assert (k < n)%nat by (apply Hok; eauto). lia. }
  assert (preprocessedTensor < n)%nat as Hbelow by (apply Hok; eauto).
  split.
  - intros debugBuffer Henc. rewrite Henc in Hrun. eexists. split; [exact Hrun|].
    split; [apply Hfresh; lia|].
    assert (delete (S (S (S (S n))))
              (delete (S (S (S n)))
                 (delete (S (S n))
                    (delete n
                       (<[S (S (S (S n))) := uint8_of backend t]>
                          (<[S (S (S n)) := clamped_of t]>
                             (<[S (S n) := denormalized_of t]>
                                (<[S n := product_of t]>
                                   (<[n := squeezed_of t]> (tf.live (engine w))))))))))
            = <[S n := product_of t]> (tf.live (engine w))) as Heq.
    { apply map_eq. intros i.
      repeat (rewrite lookup_delete || rewrite lookup_insert || case_decide);
        subst; try reflexivity; try lia; symmetry; apply Hfresh; lia. }
    cbn [engine with_engine tf.live]. rewrite Heq. split; [reflexivity|].
    rewrite lookup_insert_ne by lia. exact Hlive.
  - intros error Henc. rewrite Henc in Hrun. eexists. split; [exact Hrun|].
    intros k Hk. cbn [engine with_engine tf.live].
    repeat (rewrite lookup_insert; case_decide; [eauto|]). lia.
Qed.

Lemma createDebugImage_leaks_witness :
  let w := Sample.preprocessed Sample.broken_model [] in
  let t := default {| tf.shape := []; tf.values := [] |}
             (tf.live (engine w) !! 4%nat) in
  let n := tf.nextId (engine w) in
  (forall debugBuffer,
     tfx.encodeJpeg Case.backend (uint8_of Case.backend t) = inr debugBuffer ->
     exists w',
       createDebugImage Case.backend 4 w = (Return debugBuffer, w')
       /\ tf.live (engine w) !! S n = None
       /\ tf.live (engine w') = <[S n := product_of t]> (tf.live (engine w))
       /\ tf.live (engine w') !! 4%nat = Some t)
  /\ (forall error,
        tfx.encodeJpeg Case.backend (uint8_of Case.backend t) = inl error ->
        exists w',
          createDebugImage Case.backend 4 w
          = (Throw (new_Error ("Debug image creation failed: " +:+ toString error)), w')
          /\ forall k, (n <= k < n + 5)%nat -> is_Some (tf.live (engine w') !! k)).
Proof.
  cbv zeta.
  apply (createDebugImage_leaks Case.backend 4%nat
           (Sample.preprocessed Sample.broken_model [])
           (default {| tf.shape := []; tf.values := [] |}
              (tf.live (engine (Sample.preprocessed Sample.broken_model [])) !! 4%nat))).
  - intros k. reflexivity.
  - apply sample_preprocessed_engine_ok.
  - vm_compute. reflexivity.
Defined.

(** Whatever its outcome, a kernel of createDebugImage disposes of
    nothing. *)
Lemma run_debug_kernel_grows (backend : tfx.Backend) (k : tfx.Kernel)
    (f : tf.Tensor -> Exn + tf.Tensor) (h : nat) (w : World) :
  engine_ok w ->
  engine_ok (snd (run_debug_kernel backend k f h w))
  /\ tf.live (engine w) ⊆ tf.live (engine (snd (run_debug_kernel backend k f h w)))
  /\ service_part (snd (run_debug_kernel backend k f h w)) = service_part w
  /\ calls (snd (run_debug_kernel backend k f h w)) = calls w.
Proof.
  intros Hok. unfold run_debug_kernel.
  destruct (tfx.fault backend k); [done|].
  rewrite bind_unfold. unfold read.
  destruct (tf.live (engine w) !! h) as [t|]; [|done].
  rewrite bind_unfold. destruct (f t) as [e|t']; [done|].
  cbn [lift mret M_ret]. split; [by apply engine_ok_alloc|].
  split; [|done].
  cbn [alloc snd engine with_engine tf.live]. apply insert_subseteq.
  destruct (tf.live (engine w) !! tf.nextId (engine w)) eqn:E; [|reflexivity].
  assert (tf.nextId (engine w) < tf.nextId (engine w))%nat by (apply Hok; eauto). lia.
Qed.

Lemma encodeJpeg_state (backend : tfx.Backend) (h : nat) (w : World) :
  snd (encodeJpeg backend h w) = w.
Proof.
  unfold encodeJpeg. destruct (tfx.fault backend tfx.EncodeJpeg); [done|].
  rewrite bind_unfold. unfold read. destruct (tf.live (engine w) !! h) as [t|]; [|done].
  by destruct (tfx.encodeJpeg backend t).
Qed.

(** Through a chain of inclusions among the hypotheses. *)
Ltac subseteq_chain :=
  repeat (first [eassumption | etrans; [eassumption|]]).

(** X15: when createDebugImage throws, the error is "Debug image creation
    failed: " followed by the text of what went wrong, no tensor that was
    live before was disposed of, and nothing but the engine has changed; on
    a tensor that is disposed of it throws "Tensor is disposed." wrapped
    this way, leaving the state as it was. *)
Theorem createDebugImage_failure (backend : tfx.Backend) (preprocessedTensor : nat)
    (w : World) :
  engine_ok w ->
  (forall error w',
     createDebugImage backend preprocessedTensor w = (Throw error, w') ->
     (exists text, error = new_Error ("Debug image creation failed: " +:+ text))
     /\ tf.live (engine w) ⊆ tf.live (engine w')
     /\ service_part w' = service_part w
     /\ calls w' = calls w)
  /\ (tfx.fault backend tfx.Squeeze = None ->
      tf.live (engine w) !! preprocessedTensor = None ->
      createDebugImage backend preprocessedTensor w
      = (Throw (new_Error "Debug image creation failed: Error: Tensor is disposed."), w)).
Proof.
  intros Hok. split.
  2: { intros Hfault Hgone. unfold createDebugImage, run_debug_kernel.
       rewrite try_catch_unfold, bind_unfold, Hfault, bind_unfold. unfold read.
       rewrite Hgone. reflexivity. }
  intros error w' Hrun. unfold createDebugImage in Hrun.
  rewrite try_catch_unfold in Hrun.
  match type of Hrun with
  | match ?body w with _ => _ end = _ =>
      assert (forall e w1, body w = (Throw e, w1) ->
                tf.live (engine w) ⊆ tf.live (engine w1)
                /\ service_part w1 = service_part w /\ calls w1 = calls w) as Hbody;
      [|destruct (body w) as [[b|e] w1]; [discriminate|];
        injection Hrun as <- <-; split; [eexists; reflexivity | by apply (Hbody e)]]
  end.
  clear Hrun. intros e w1.
  rewrite bind_unfold.
  destruct (run_debug_kernel_grows backend tfx.Squeeze tfx.squeeze preprocessedTensor w Hok)
    as (Hok1 & Hsub1 & Hs1 & Hc1).
  destruct (run_debug_kernel backend tfx.Squeeze _ _ w) as [[h1|e1] x1]; cbn [snd] in *;
    [|by intros [= <- <-]].
  rewrite bind_unfold.
  destruct (run_debug_kernel_grows backend tfx.Mul (tfx.mul (JS.Fin (255 # 2))) h1 x1 Hok1)
    as (Hok2 & Hsub2 & Hs2 & Hc2).
  destruct (run_debug_kernel backend tfx.Mul _ _ x1) as [[h2|e2] x2]; cbn [snd] in *;
    [|intros [= <- <-]; split; [by etrans | split; congruence]].
  rewrite bind_unfold.
  destruct (run_debug_kernel_grows backend tfx.Add (tfx.add (JS.Fin (255 # 2))) h2 x2 Hok2)
    as (Hok3 & Hsub3 & Hs3 & Hc3).
  destruct (run_debug_kernel backend tfx.Add _ _ x2) as [[h3|e3] x3]; cbn [snd] in *;
    [|intros [= <- <-]; split; [subseteq_chain | split; congruence]].
  rewrite bind_unfold.
  destruct (run_debug_kernel_grows backend tfx.ClipByValue
              (tfx.clipByValue (JS.Fin 0) (JS.Fin 255)) h3 x3 Hok3)
    as (Hok4 & Hsub4 & Hs4 & Hc4).
  destruct (run_debug_kernel backend tfx.ClipByValue _ _ x3) as [[h4|e4] x4];
    cbn [snd] in *;
    [|intros [= <- <-]; split; [subseteq_chain | split; congruence]].
  rewrite bind_unfold.
  destruct (run_debug_kernel_grows backend tfx.Cast (tfx.cast_int32 backend) h4 x4 Hok4)
    as (Hok5 & Hsub5 & Hs5 & Hc5).
  destruct (run_debug_kernel backend tfx.Cast _ _ x4) as [[h5|e5] x5]; cbn [snd] in *;
    [|intros [= <- <-]; split; [subseteq_chain | split; congruence]].
  rewrite bind_unfold.
  pose proof (encodeJpeg_state backend h5 x5) as Henc.
  destruct (encodeJpeg backend h5 x5) as [[buf|e6] x6]; cbn [snd] in Henc; subst x6;
    [discriminate | intros [= <- <-]; split; [subseteq_chain | split; congruence]].
Qed.

Lemma createDebugImage_failure_witness :
  let w := Sample.preprocessed Sample.broken_model [] in
  (forall error w',
     createDebugImage Case.backend 3 w = (Throw error, w') ->
     (exists text, error = new_Error ("Debug image creation failed: " +:+ text))
     /\ tf.live (engine w) ⊆ tf.live (engine w')
     /\ service_part w' = service_part w
     /\ calls w' = calls w)
  /\ (tfx.fault Case.backend tfx.Squeeze = None ->
      tf.live (engine w) !! 3%nat = None ->
      createDebugImage Case.backend 3 w
      = (Throw (new_Error "Debug image creation failed: Error: Tensor is disposed."), w)).
Proof.
  exact (createDebugImage_failure Case.backend 3%nat
           (Sample.preprocessed Sample.broken_model [])
           (sample_preprocessed_engine_ok Sample.broken_model [])).
Defined.

(** What the kernels of createDebugImage make of a normalized channel
    value: its integer part. *)
Lemma denormalize_channel (backend : tfx.Backend) (x : JS.num) :
  in_range 0 255 x ->
  tfx.toInt32 backend
    (tfx.clip (JS.Fin 0) (JS.Fin 255)
       (JS.add (JS.mul (JS.div (JS.sub x (JS.Fin (255 # 2))) (JS.Fin (255 # 2)))
                  (JS.Fin (255 # 2)))
          (JS.Fin (255 # 2))))
  = floor_of x.
Proof.
  intros (v & -> & Hv0 & Hv1).
  set (q := ((v + - (255 # 2)) / (255 # 2) * (255 # 2) + (255 # 2))%Q).
  assert (JS.add (JS.mul (JS.div (JS.sub (JS.Fin v) (JS.Fin (255 # 2))) (JS.Fin (255 # 2)))
                    (JS.Fin (255 # 2)))
            (JS.Fin (255 # 2)) = JS.Fin q) as -> by reflexivity.
  assert (q == v)%Q as Hq by (subst q; field).
  unfold tfx.clip, JS.gtb, JS.ltb, JS.compare.
  destruct (Qcompare_spec q 255) as [H|H|H]; [| |rewrite Hq in H; lra];
    (destruct (Qcompare_spec q 0) as [H0|H0|H0]; [| rewrite Hq in H0; lra |]);
    unfold tfx.toInt32, tfx.truncate, JS.sgn;
    (destruct (Qcompare_spec q 0) as [H1|H1|H1]; [| rewrite Hq in H1; lra |]);
    rewrite (Qfloor_comp _ _ Hq);
    assert (0 <= Qfloor v <= 255) as Hf
      by (split;
          [rewrite <- (Qfloor_Z 0); by apply Qfloor_resp_le
          |rewrite <- (Qfloor_Z 255); by apply Qfloor_resp_le]);
    (destruct (Z.leb_spec (- 2 ^ 31) (Qfloor v)); [|lia]);
    (destruct (Z.ltb_spec (Qfloor v) (2 ^ 31)); [|lia]);
    reflexivity.
Qed.

(** X16: createDebugImage on the tensor preprocessImage returned, when no
    kernel fails: over exact arithmetic the encoder is given the 32 by 32 by
    3 tensor of the integer parts of the channel values of the resized
    picture, and the outcome is the encoder's. *)
Theorem createDebugImage_round_trip (ext : Externals) (backend : tfx.Backend)
    (imageBuffer : Buffer) (w : World) (preprocessedTensor : nat) (w1 : World) :
  decoder_ok ext ->
  backend_ok backend ->
  preprocessImage ext imageBuffer w = (Return preprocessedTensor, w1) ->
  exists png img resized,
    sharp_resize_png ext TARGET_WIDTH TARGET_HEIGHT imageBuffer = inr png
    /\ decodePng ext png = inr img
    /\ tf.resizeBilinear (TARGET_WIDTH, TARGET_HEIGHT) (tf.of_image img) = inr resized
    /\ fst (createDebugImage backend preprocessedTensor w1)
       = match tfx.encodeJpeg backend
                 {| tf.shape := [32; 32; 3]%nat;
                    tf.values := floor_of <$> tf.values resized |} with
         | inr debugBuffer => Return debugBuffer
         | inl error =>
             Throw (new_Error ("Debug image creation failed: " +:+ toString error))
         end.
Proof.
  intros Hdec Hbackend Hrun.
  apply preprocessImage_Return in Hrun as (png & img & resized & Hpng & Himg & Hres & -> & ->).
  pose proof (Hdec _ _ Himg) as Hwf.
  destruct (resizeBilinear_in_range img TARGET_WIDTH TARGET_HEIGHT Hwf)
    as (resized' & Hres' & Hshape & Hrange).
  rewrite Hres in Hres'. injection Hres' as <-.
  exists png, img, resized.
  split; [exact Hpng|]. split; [exact Himg|]. split; [exact Hres|].
  rewrite (createDebugImage_outcome backend _ _ (batched_of resized) Hbackend).
  2: { cbn [engine with_engine tf.live].
       rewrite !lookup_delete_ne by lia. apply lookup_insert_eq. }
  assert (uint8_of backend (batched_of resized)
          = {| tf.shape := [32; 32; 3]%nat; tf.values := floor_of <$> tf.values resized |})
    as ->.
  { unfold uint8_of, clamped_of, denormalized_of, product_of, squeezed_of, batched_of,
      normalized_of, difference_of.
    cbn [tf.shape tf.values]. rewrite Hshape. f_equal.
    rewrite <- !list_fmap_compose. apply Forall_fmap_ext.
    eapply Forall_impl; [exact Hrange|]. intros x Hx. cbn [compose].
    by apply denormalize_channel. }
  by destruct (tfx.encodeJpeg backend _).
Qed.

Lemma createDebugImage_round_trip_witness :
  let ext := Sample.libraries Sample.jpeg500x400 Sample.picture Sample.broken_model in
  exists png img resized,
    sharp_resize_png ext TARGET_WIDTH TARGET_HEIGHT (buffer Sample.upload) = inr png
    /\ decodePng ext png = inr img
    /\ tf.resizeBilinear (TARGET_WIDTH, TARGET_HEIGHT) (tf.of_image img) = inr resized
    /\ fst (createDebugImage Case.backend 4 (Sample.preprocessed Sample.broken_model []))
       = match tfx.encodeJpeg Case.backend
                 {| tf.shape := [32; 32; 3]%nat;
                    tf.values := floor_of <$> tf.values resized |} with
         | inr debugBuffer => Return debugBuffer
         | inl error =>
             Throw (new_Error ("Debug image creation failed: " +:+ toString error))
         end.
Proof.
  cbv zeta.
  apply (createDebugImage_round_trip
           (Sample.libraries Sample.jpeg500x400 Sample.picture Sample.broken_model)
           Case.backend (buffer Sample.upload) (Sample.serving Sample.broken_model [])).
  - apply sample_decoder_ok.
  - intros k. reflexivity.
  - apply sample_preprocessed.
Defined.

(** ** The upload middleware in front of the controller *)

Lemma timestamped_calls (code : nat) (b : Z -> Body) (w : World) :
  calls (snd ((timestamp ← Date_now; res_status_json code (b timestamp)) w)) = calls w.
Proof.
  rewrite bind_unfold. destruct (Date_now_returns w) as [t Hnow]. rewrite Hnow.
  destruct (Date_now_frame w) as (_ & _ & _ & _ & Hc).
  unfold res_status_json. by destruct (res (snd (Date_now w))).
Qed.

(** The [catch] block of classifyImage calls none of the services. *)
Ltac catch_block_calls :=
  cbv beta iota zeta;
  repeat match goal with
         | |- context [if ?c then _ else _] => destruct c
         end;
  match goal with
  | |- context [Date_now ≫= (fun timestamp => res_status_json ?code (@?b timestamp))] =>
      apply (timestamped_calls code b)
  end.

(** A request that has no file, or that comes before the model is loaded,
    reaches none of the services. *)
Lemma classifyImage_idle (ext : Externals) (req : Request) (w : World) :
  file req = None \/ model (modelService w) = None ->
  calls (snd (classifyImage ext req w)) = calls w.
Proof.
  intros Hidle. unfold classifyImage. rewrite try_catch_unfold.
  destruct (file req) as [upload|] eqn:Hfile.
  - destruct Hidle as [|Hmodel]; [discriminate|].
    unfold isModelLoaded. rewrite !bind_unfold. cbn [this mret M_ret].
    rewrite Hmodel. rewrite bool_decide_eq_false_2 by (by intros [? ?]).
    cbn [negb]. unfold res_status_json at 1.
    destruct (res w); [catch_block_calls | reflexivity].
  - unfold res_status_json at 1.
    destruct (res w); [catch_block_calls | reflexivity].
Qed.

(** X17: what the upload middleware lets through.  A part that is no image
    by its MIME type is answered 500 "Only image files are allowed!" by the
    error middleware, an image the parser finds over the limit of 5 MB is
    answered 400 "File too large", both without entering the controller;
    and a service is called only for an image within the limit, once the
    model is loaded. *)
Theorem post_classify_guards (ext : Externals) (over_limit : nat -> nat -> bool)
    (part : option File) (w : World) :
  res w = None ->
  (forall upload,
     part = Some upload ->
     String.prefix "image/" (mimetype upload) = false ->
     post_classify ext over_limit part w
     = (Return tt,
        with_res (Some {| status := 500;
                          body := ErrorBody "Internal server error"
                                    "Only image files are allowed!" None |}) w))
  /\ (forall upload,
        part = Some upload ->
        String.prefix "image/" (mimetype upload) = true ->
        over_limit (filesize upload) (5 * 1024 * 1024)%nat = true ->
        post_classify ext over_limit part w
        = (Return tt,
           with_res (Some {| status := 400;
                             body := ErrorBody "File upload error" "File too large"
                                       None |}) w))
  /\ (calls (snd (post_classify ext over_limit part w)) <> calls w ->
      exists upload,
        part = Some upload
        /\ String.prefix "image/" (mimetype upload) = true
        /\ over_limit (filesize upload) (5 * 1024 * 1024)%nat = false
        /\ model_loaded w).
Proof.
  intros Hres. split; [|split].
  - intros upload -> Hmime. unfold post_classify, upload_single, fileFilter.
    rewrite Hmime. unfold errorMiddleware, res_status_json. simpl.
    rewrite Hres. reflexivity.
  - intros upload -> Hmime Hover. unfold post_classify, upload_single, fileFilter.
    rewrite Hmime. change fileSize_limit with (5 * 1024 * 1024)%nat. rewrite Hover.
    unfold errorMiddleware, res_status_json. simpl. rewrite Hres. reflexivity.
  - intros Hcalls. unfold post_classify, upload_single, fileFilter in Hcalls.
    destruct part as [upload|].
    2: { exfalso. apply Hcalls. apply classifyImage_idle. by left. }
    exists upload. split; [reflexivity|].
    destruct (String.prefix "image/" (mimetype upload)).
    2: { exfalso. apply Hcalls. unfold errorMiddleware, res_status_json.
         simpl. by destruct (res w). }
    split; [reflexivity|].
    change fileSize_limit with (5 * 1024 * 1024)%nat in Hcalls.
    destruct (over_limit (filesize upload) _).
    { exfalso. apply Hcalls. unfold errorMiddleware, res_status_json.
      simpl. by destruct (res w). }
    split; [reflexivity|].
    destruct (model (modelService w)) as [m|] eqn:Hm;
      [unfold model_loaded; rewrite Hm; eauto|].
    exfalso. apply Hcalls. apply classifyImage_idle. by right.
Qed.

Lemma post_classify_guards_witness :
  let ext := Sample.libraries Sample.jpeg500x400 Sample.picture
               (Sample.constant_model Sample.scores) in
  let w := Sample.serving (Sample.constant_model Sample.scores) Sample.ticks in
  post_classify ext Case.longer (Some Case.text_upload) w
  = (Return tt,
     with_res (Some {| status := 500;
                       body := ErrorBody "Internal server error"
                                 "Only image files are allowed!" None |}) w)
  /\ (calls (snd (post_classify ext Case.longer (Some Sample.upload) w)) <> calls w ->
      exists upload,
        Some Sample.upload = Some upload
        /\ String.prefix "image/" (mimetype upload) = true
        /\ Case.longer (filesize upload) (5 * 1024 * 1024)%nat = false
        /\ model_loaded w).
Proof.
  cbv zeta. split.
  - apply (proj1 (post_classify_guards
                    (Sample.libraries Sample.jpeg500x400 Sample.picture
                       (Sample.constant_model Sample.scores))
                    Case.longer (Some Case.text_upload)
                    (Sample.serving (Sample.constant_model Sample.scores) Sample.ticks)
                    eq_refl) Case.text_upload eq_refl).
    reflexivity.
  - apply (proj2 (proj2 (post_classify_guards
                           (Sample.libraries Sample.jpeg500x400 Sample.picture
                              (Sample.constant_model Sample.scores))
                           Case.longer (Some Sample.upload)
                           (Sample.serving (Sample.constant_model Sample.scores)
                              Sample.ticks)
                           eq_refl))).
Defined.

(** ** getModelInfo *)

(** validateImage returns on [md] exactly when both dimensions were read
    and the format is one of [supportedFormats]. *)
Lemma validateImage_accepts (ext : Externals) (imageBuffer : Buffer) (w : World)
    (md : sharp.Metadata) (f : string) :
  sharp_metadata ext imageBuffer = inr md ->
  falsy (sharp.width md) = false ->
  falsy (sharp.height md) = false ->
  sharp.format md = Some f ->
  (exists r, fst (validateImage ext imageBuffer w) = Return r) <-> f ∈ supportedFormats.
Proof.
  intros Hmd Hw Hh Hf. unfold validateImage.
  rewrite bind_unfold. unfold log, modify.
  rewrite try_catch_unfold, bind_unfold, Hmd. cbn [lift mret M_ret].
  rewrite Hw, Hh, Hf. cbn [orb default from_option id].
  destruct f as [|a f'].
  { cbn [falsy_string orb throw fst]. split; [intros [r Hr]; discriminate Hr|].
    intros Hin. exfalso. revert Hin.
    apply (proj1 (bool_decide_eq_false _)). reflexivity. }
  cbn [falsy_string orb].
  destruct (decide (String a f' ∈ supportedFormats)) as [Hin|Hout].
  - rewrite bool_decide_eq_true_2 by exact Hin. cbn [negb]. split; [done|].
    intros _. eexists. reflexivity.
  - rewrite bool_decide_eq_false_2 by exact Hout. cbn [negb throw fst].
    split; [intros [r Hr]; discriminate Hr | done].
Qed.

(** X18: getModelInfo, when nothing was sent yet and the class list is
    intact, answers 200: [modelLoaded] tells whether the model is loaded,
    [classes] are the ten class names, and the formats it lists are exactly
    those validateImage accepts for a picture whose dimensions were read.
    The class list of the service is as before, and so is the engine. *)
Theorem getModelInfo_answer (w : World) :
  classes_intact w ->
  exists w' obj info formats,
    getModelInfo (w, None) = (Return tt, (w', Some {| code := 200; json := obj |}))
    /\ field "modelLoaded" obj = Some (JBool (bool_decide (model_loaded w)))
    /\ field "classes" obj = Some (JArray (JString <$> CLASSES))
    /\ field "modelInfo" obj = Some info
    /\ field "supportedFormats" info = Some (JArray (JString <$> formats))
    /\ (forall ext imageBuffer w0 md f,
          sharp_metadata ext imageBuffer = inr md ->
          falsy (sharp.width md) = false ->
          falsy (sharp.height md) = false ->
          sharp.format md = Some f ->
          (exists r, fst (validateImage ext imageBuffer w0) = Return r) <-> f ∈ formats)
    /\ modelService w' = modelService w
    /\ classes_intact w'
    /\ engine w' = engine w.
Proof.
  intros Hclasses. unfold getModelInfo, route_try_catch.
  unfold mbind, Route_bind, call, isModelLoaded, getClasses, array_elements, new_array.
  munfold. cbn [fst snd]. unfold reply_status_json. cbn [fst snd].
  unfold classes_intact in Hclasses. rewrite Hclasses. cbn [default from_option id].
  cbn [heap with_heap]. rewrite lookup_insert_eq. cbn [default from_option id].
  eexists _, _, _, ["jpeg"; "jpg"; "png"; "webp"; "gif"; "bmp"].
  split; [reflexivity|]. split; [reflexivity|]. split; [reflexivity|].
  split; [reflexivity|]. split; [reflexivity|].
  split; [intros ext imageBuffer w0 md f; apply validateImage_accepts|].
  split; [reflexivity|]. split; [|reflexivity].
  unfold classes_intact. cbn [heap with_heap modelService].
  rewrite lookup_insert_ne; [exact Hclasses|].
  intros Heq. pose proof (is_fresh (dom (heap w))) as Hfresh.
  rewrite Heq in Hfresh. apply Hfresh, elem_of_dom. eauto.
Qed.

Lemma getModelInfo_answer_witness :
  let w := Sample.serving Sample.broken_model [] in
  exists w' obj info formats,
    getModelInfo (w, None) = (Return tt, (w', Some {| code := 200; json := obj |}))
    /\ field "modelLoaded" obj = Some (JBool (bool_decide (model_loaded w)))
    /\ field "classes" obj = Some (JArray (JString <$> CLASSES))
    /\ field "modelInfo" obj = Some info
    /\ field "supportedFormats" info = Some (JArray (JString <$> formats))
    /\ (forall ext imageBuffer w0 md f,
          sharp_metadata ext imageBuffer = inr md ->
          falsy (sharp.width md) = false ->
          falsy (sharp.height md) = false ->
          sharp.format md = Some f ->
          (exists r, fst (validateImage ext imageBuffer w0) = Return r) <-> f ∈ formats)
    /\ modelService w' = modelService w
    /\ classes_intact w'
    /\ engine w' = engine w.
Proof.
  cbv zeta. apply (getModelInfo_answer (Sample.serving Sample.broken_model [])).
  vm_compute. reflexivity.
Defined.
